(** * auto_build.py: the build orchestration script, embedded in Rocq

    The pure helpers of [auto_build.py] (flag parsing, module resolution)
    are embedded as functions on strings.  The effectful part ([run],
    [execute_in_dir], the cleaners, [build_module] and [main]) is embedded
    in a trace-and-exception monad whose answers from the outside world
    (directory tests, exit statuses of the external commands) come from an
    oracle.

    Text is modelled by [string]: a sequence of 8-bit characters, read as
    the UTF-8 bytes of the Python text.  The character class of the
    pattern, [A-Z0-9_], is ASCII in Python too, and so is all that the
    flag parser returns.  [str.lower], [str.split] and [int] are embedded
    for ASCII text ([PyStr.is_ascii]), where they are exact; Python also
    lowers letters, splits at white space and reads digits outside ASCII,
    which the embedding does not.  A property that depends on one of the
    three at a text that is not the parser's carries the assumption that
    the text is ASCII.

    Threads are modelled by what the main thread does with them, in
    program order: it starts the background thread, submits futures to the
    pool, asks futures for their results, leaves the [with] block of the
    pool, joins the background thread.  Every other unit of work (the
    background thread, each future) is run on its own answers from the
    outside world; the order in which futures complete is part of those
    answers.  The facts of the Python runtime the model relies on:
    - [sys.exit] raises [SystemExit], which [except Exception] does not
      catch;
    - an exception raised by the target of a [threading.Thread] ends that
      thread only, and [Thread.join] returns normally afterwards;
    - a worker of the pool stores whatever the call raises in the future,
      and [Future.result] raises it again;
    - leaving [with ThreadPoolExecutor(...)] calls [shutdown(wait=True)],
      which runs every submitted call and waits for it;
    - at exit the interpreter waits for the threads that are not daemons. *)

From Stdlib Require Import String Ascii List Bool Arith ZArith Lia Permutation Sorted.
From Stdlib Require DecimalString.
Import ListNotations.

Local Open Scope list_scope.
Local Open Scope string_scope.

(** ** Characters and strings, as Python sees them *)

Module PyStr.

Definition code (c : ascii) : nat := nat_of_ascii c.

Definition in_range (lo hi : nat) (c : ascii) : bool :=
  ((lo <=? code c)%nat && (code c <=? hi)%nat)%bool.

Definition is_upper (c : ascii) : bool := in_range 65 90 c.
Definition is_digit (c : ascii) : bool := in_range 48 57 c.

(** [str.lower] on one ASCII character. *)
Definition lower_char (c : ascii) : ascii :=
  if is_upper c then ascii_of_nat (code c + 32) else c.

(** [s.lower()] for ASCII [s].  (Python lowers letters outside ASCII as
    well; bytes above 127 are left as they are here.) *)
Fixpoint lower (s : string) : string :=
  match s with
  | EmptyString => EmptyString
  | String c t => String (lower_char c) (lower t)
  end.

(** [s.replace(c, '')] for a one-character [c]. *)
Fixpoint remove_char (x : ascii) (s : string) : string :=
  match s with
  | EmptyString => EmptyString
  | String c t => if Ascii.eqb c x then remove_char x t else String c (remove_char x t)
  end.

(** [s.startswith(p)] *)
Definition startswith (s p : string) : bool := String.prefix p s.

(** [x in {...}] for a set display of string literals. *)
Definition in_set (x : string) (l : list string) : bool := existsb (String.eqb x) l.

(** [sep.join(l)] *)
Definition join (sep : string) (l : list string) : string := String.concat sep l.

(** [c.isspace()] for an ASCII character, the white space of
    [str.split()]: tab, line feed, vertical tab, form feed, carriage
    return, the four separators 0x1c..0x1f and the space. *)
Definition is_space (c : ascii) : bool :=
  in_range 9 13 c || in_range 28 32 c.

(** [s.split()] for ASCII [s]: the maximal runs of characters that are
    not white space.  [cur] holds the run being read, in reverse.  (Python
    also splits at the white space outside ASCII, such as U+00A0.) *)
Fixpoint split_aux (cur : list ascii) (s : string) : list string :=
  match s with
  | EmptyString =>
      match cur with [] => [] | _ => [string_of_list_ascii (rev cur)] end
  | String c t =>
      if is_space c
      then match cur with
           | [] => split_aux [] t
           | _ => string_of_list_ascii (rev cur) :: split_aux [] t
           end
      else split_aux (c :: cur) t
  end.

Definition split (s : string) : list string := split_aux [] s.

(** Truth value of a string: [not s] holds for the empty string. *)
Definition truthy (s : string) : bool :=
  match s with EmptyString => false | _ => true end.

Definition all_chars (p : ascii -> bool) (s : string) : bool :=
  forallb p (list_ascii_of_string s).

(** [s.isascii()]: every character of [s] is below 128. *)
Definition is_ascii (s : string) : bool := all_chars (fun c => (code c <? 128)%nat) s.

End PyStr.

(** ** The flag parser: [re.findall(r"-D([A-Z0-9_]+)", cxxflags)] *)

(** The character class [[A-Z0-9_]]. *)
Definition ident_char (c : ascii) : bool :=
  PyStr.is_upper c || PyStr.is_digit c || Ascii.eqb c "_".

(** The greedy [[A-Z0-9_]+]: the longest run of class characters at the
    head of [s], and what follows it. *)
Fixpoint span_ident (s : string) : string * string :=
  match s with
  | EmptyString => (EmptyString, EmptyString)
  | String c t =>
      if ident_char c
      then let (g, r) := span_ident t in (String c g, r)
      else (EmptyString, s)
  end.

(** One attempt of the pattern at the head of [s]: the group and the text
    after the match. *)
Definition match_at (s : string) : option (string * string) :=
  match s with
  | String a (String b t) =>
      if Ascii.eqb a "-" && Ascii.eqb b "D"
      then match span_ident t with
           | (EmptyString, _) => None
           | (g, r) => Some (g, r)
           end
      else None
  | _ => None
  end.

(** [re.findall]: scan from the left; at a match, keep the group and go on
    after the match; otherwise move one character on.  [fuel] bounds the
    number of scan steps. *)
Fixpoint findall (fuel : nat) (s : string) : list string :=
  match fuel with
  | O => []
  | S fuel' =>
      match match_at s with
      | Some (g, r) => g :: findall fuel' r
      | None =>
          match s with
          | EmptyString => []
          | String _ t => findall fuel' t
          end
      end
  end.

Definition get_flags (cxxflags : string) : list string :=
  findall (String.length cxxflags) cxxflags.

(** An identifier as the pattern's group can bind it. *)
Definition valid_ident (s : string) : bool :=
  PyStr.truthy s && PyStr.all_chars ident_char s.

(** ** The module resolver *)

Definition get_module_dir (flag : string) : string :=
  if PyStr.startswith flag "CUSTOM_MUTATOR_" then "custommutator"
  else if String.eqb flag "BITCOIN_CORE" then "modules/bitcoin"
  else "modules/" ++ PyStr.remove_char "_" (PyStr.lower flag).

Definition rust_nightly_flags : list string :=
  ["RUST_BITCOIN"; "RUST_MINISCRIPT"; "LDK"; "TINY_MINISCRIPT"; "RUSTBITCOINKERNEL"].

Definition needs_rust_nightly (flag : string) : bool :=
  PyStr.in_set flag rust_nightly_flags.

Definition sequential_flags : list string :=
  ["SECP256K1"; "BITCOINJ"; "LIGHTNING_KMP"].

Definition should_build_sequentially (flag : string) : bool :=
  PyStr.in_set flag sequential_flags || PyStr.startswith flag "CUSTOM_MUTATOR_".

(** ** Integers read from, and written to, text *)

Module PyInt.

(** The white space [int] skips at both ends of an ASCII text: tab, line
    feed, vertical tab, form feed, carriage return and the space.  The
    separators 0x1c..0x1f are not among them: [int] refuses them. *)
Definition is_space (c : ascii) : bool :=
  PyStr.in_range 9 13 c || (PyStr.code c =? 32)%nat.

Fixpoint lstrip (l : list ascii) : list ascii :=
  match l with
  | c :: t => if is_space c then lstrip t else l
  | [] => []
  end.

Definition strip (l : list ascii) : list ascii := rev (lstrip (rev (lstrip l))).

Definition digit_value (c : ascii) : Z := Z.of_nat (PyStr.code c - 48).

(** Decimal digits, single underscores allowed between two digits.
    [prev] tells whether the previous character was a digit. *)
Fixpoint digits (acc : Z) (prev : bool) (l : list ascii) : option Z :=
  match l with
  | [] => if prev then Some acc else None
  | c :: t =>
      if PyStr.is_digit c then digits (10 * acc + digit_value c) true t
      else if Ascii.eqb c "_" then (if prev then digits acc false t else None)
      else None
  end.

(** [sys.get_int_max_str_digits()], as the interpreter sets it when
    nothing configures it: [int] refuses a text with more digits. *)
Definition int_max_str_digits : nat := 4300.

(** A sign, then digits. *)
Definition signed (l : list ascii) : option Z :=
  match l with
  | c :: t =>
      if Ascii.eqb c "-" then option_map Z.opp (digits 0 false t)
      else if Ascii.eqb c "+" then digits 0 false t
      else digits 0 false (c :: t)
  | [] => None
  end.

(** [int(s)] in base ten for ASCII [s]: [None] stands for [ValueError].
    (Python also reads the decimal digits and skips the white space
    outside ASCII.) *)
Definition int (s : string) : option Z :=
  let body := strip (list_ascii_of_string s) in
  if (length (filter PyStr.is_digit body) <=? int_max_str_digits)%nat
  then signed body
  else None.

(** [str(n)], as an f-string formats an integer. *)
Definition str (n : Z) : string := DecimalString.NilZero.string_of_int (Z.to_int n).

End PyInt.

(** ** Effects: exceptions, the outside world, traces *)

(** The exceptions the script can meet.  [SystemExit] is what [sys.exit]
    raises: a [BaseException] that is not an [Exception].  [OSError] is
    what [subprocess.run] raises when the shell cannot be started in [cwd];
    [ValueError] is what [int] and the constructor of the thread pool
    raise on a bad argument. *)
Inductive exn : Type :=
| SystemExit (code : Z)
| OSError
| ValueError.

(** [isinstance(e, Exception)], the test of [except Exception]. *)
Definition is_Exception (e : exn) : bool :=
  match e with
  | SystemExit _ => false
  | OSError | ValueError => true
  end.

Inductive outcome (A : Type) : Type :=
| Returned (a : A)
| Raised (e : exn).

Arguments Returned {A} a.
Arguments Raised {A} e.

(** What [subprocess.run] hands back: [proc.returncode], [proc.stdout] and
    [proc.stderr] (the last two are read in quiet mode only). *)
Record CompletedProcess : Type := {
  returncode : Z;
  stdout : string;
  stderr : string
}.

Inductive spawned : Type :=
| Completed (proc : CompletedProcess)
| CannotStart.

(** What a unit of work does that the outside can see, in program order:
    - [Print], [PrintErr]: a line on standard output, on standard error;
    - [IsDir]: [Path(path).is_dir()] and its answer;
    - [Glob]: [Path("modules").glob("*/")] and the paths it yields;
    - [Subprocess]: [subprocess.run(cmd, cwd=cwd, shell=True, ...)] and
      what came of it;
    - [ThreadStart]: [seq_thread.start()], with the variables the target
      [run_sequential] captures;
    - [Submit]: [pool.submit(build_module, flag, quiet)], the [i]-th
      future;
    - [FutureResult]: [fut.result()] on the [i]-th future, and how it
      ended;
    - [PoolShutdown]: leaving the [with] block of the pool, which waits
      for every submitted future;
    - [ThreadJoin]: [seq_thread.join()];
    - [ExitJoin]: the interpreter, at exit, waiting for the background
      thread. *)
Inductive event : Type :=
| Print (line : string)
| PrintErr (line : string)
| IsDir (path : string) (answer : bool)
| Glob (found : list string)
| Subprocess (cmd : string) (cwd : option string) (quiet : bool) (res : spawned)
| ThreadStart (sequential : list string) (quiet : bool)
| Submit (i : nat) (flag : string) (quiet : bool)
| FutureResult (i : nat) (res : outcome unit)
| PoolShutdown
| ThreadJoin
| ExitJoin.

(** The answers of the outside world to one unit of work.  Each answer may
    depend on everything that unit has done so far (its trace). *)
Record world : Type := {
  path_is_dir : list event -> string -> bool;
  subprocess_run : list event -> string -> option string -> bool -> spawned;
  glob_modules : list event -> list string
}.

(** A computation reads the trace so far and yields the events it adds,
    with the way it ends. *)
Definition M (A : Type) : Type := list event -> list event * outcome A.

Definition ret {A : Type} (a : A) : M A := fun _ => ([], Returned a).

Definition raise {A : Type} (e : exn) : M A := fun _ => ([], Raised e).

Definition bind {A B : Type} (m : M A) (k : A -> M B) : M B :=
  fun h =>
    match m h with
    | (es, Returned a) =>
        match k a (h ++ es)%list with
        | (es', o) => ((es ++ es')%list, o)
        end
    | (es, Raised e) => (es, Raised e)
    end.

Definition emit (ev : event) : M unit := fun _ => ([ev], Returned tt).

Declare Scope py_scope.
Delimit Scope py_scope with py.
Notation "x <- m ;; k" := (bind m (fun x => k))
  (at level 61, m at next level, right associativity) : py_scope.
Notation "m ;; k" := (bind m (fun _ => k))
  (at level 61, right associativity) : py_scope.
Local Open Scope py_scope.

(** [for x in l: body(x)] *)
Fixpoint for_each {A : Type} (l : list A) (body : A -> M unit) : M unit :=
  match l with
  | [] => ret tt
  | x :: t => body x ;; for_each t body
  end.

(** [if c: body] *)
Definition when (c : bool) (body : M unit) : M unit :=
  if c then body else ret tt.

(** [try: body / except Exception: handler] *)
Definition try_except_Exception {A : Type} (body handler : M A) : M A :=
  fun h =>
    match body h with
    | (es, Raised e) =>
        if is_Exception e
        then match handler (h ++ es)%list with (es', o) => ((es ++ es')%list, o) end
        else (es, Raised e)
    | r => r
    end.

(** [with ThreadPoolExecutor(...) as pool: body].  However [body] ends,
    leaving the block calls [pool.shutdown(wait=True)]: the main thread
    blocks until every submitted future has run, then the way [body] ended
    goes on. *)
Definition with_pool {A : Type} (body : M A) : M A :=
  fun h => match body h with (es, o) => ((es ++ [PoolShutdown])%list, o) end.

Definition print (line : string) : M unit := emit (Print line).

(** ** The script *)

Definition dq : string := String "034"%char EmptyString.

Definition die {A : Type} (msg : string) : M A :=
  emit (PrintErr ("Error: " ++ msg)) ;; raise (SystemExit 1).

Section Unit_of_work.

Variable w : world.

Definition is_dir (path : string) : M bool :=
  fun h => let b := path_is_dir w h path in ([IsDir path b], Returned b).

Definition subprocess (cmd : string) (cwd : option string) (quiet : bool) : M CompletedProcess :=
  fun h =>
    let r := subprocess_run w h cmd cwd quiet in
    ([Subprocess cmd cwd quiet r],
     match r with
     | Completed proc => Returned proc
     | CannotStart => Raised OSError
     end).

Definition glob : M (list string) :=
  fun h => let ds := glob_modules w h in ([Glob ds], Returned ds).

Definition run (cmd : string) (cwd : option string) (quiet : bool) : M CompletedProcess :=
  when (negb quiet)
    (let loc := match cwd with
                | Some d => if PyStr.truthy d then "(cd " ++ d ++ ") " else EmptyString
                | None => EmptyString
                end in
     print (loc ++ cmd)) ;;
  proc <- subprocess cmd cwd quiet ;;
  if negb (returncode proc =? 0)%Z
  then when quiet (print (stdout proc) ;; print (stderr proc)) ;;
       die ("Command failed: " ++ cmd)
  else ret proc.

Definition execute_in_dir (dirpath command : string) (quiet : bool) : M unit :=
  b <- is_dir dirpath ;;
  (if negb b then die ("Directory " ++ dirpath ++ " does not exist") else ret tt) ;;
  run command (Some dirpath) quiet ;;
  ret tt.

Definition full_clean : M unit :=
  print "Performing full clean..." ;;
  ds <- glob ;;
  for_each ds (fun d => execute_in_dir d "make clean" false) ;;
  execute_in_dir "custommutator" "make clean" false.

Definition clean_by_flags (flags : list string) : M unit :=
  print ("Cleaning modules: " ++ PyStr.join " " flags) ;;
  for_each flags (fun flag => execute_in_dir (get_module_dir flag) "make clean" false).

Definition build_module (flag : string) (quiet : bool) : M unit :=
  let dirpath := get_module_dir flag in
  when (negb quiet) (print ("Building module: " ++ flag)) ;;
  (if needs_rust_nightly flag
   then execute_in_dir dirpath "rustup default nightly && make cargo && make" quiet
   else execute_in_dir dirpath "make" quiet) ;;
  when quiet (print ("âœ“ " ++ flag ++ " built successfully")).

(** The closure [run_sequential] of [main], with the variables it
    captures. *)
Definition run_sequential (sequential : list string) (quiet : bool) : M unit :=
  print ("Starting sequential module builds:" ++ PyStr.join " " sequential) ;;
  for_each sequential (fun f => build_module f quiet).

End Unit_of_work.

(** ** The process: environment, threads, [main] *)

(** [os.environ]: the value of each variable that is set. *)
Definition environ : Type := string -> option string.

(** [os.environ.get(key, default)] *)
Definition environ_get (env : environ) (key default : string) : string :=
  match env key with
  | Some v => v
  | None => default
  end.

(** The units of work of one invocation: the main thread, the background
    thread of the sequential group, and one future per parallel module. *)
Inductive unit_of_work : Type :=
| MainThread
| SequentialThread
| PoolFuture (i : nat).

(** The outside world of an invocation: the answers each unit of work
    gets, and the time at which each future completes, which is the
    order in which [as_completed] yields the futures. *)
Record system : Type := {
  view : unit_of_work -> world;
  finish_time : nat -> nat
}.

(** [int(text)] inside a computation. *)
Definition int_of (text : string) : M Z :=
  match PyInt.int text with
  | Some n => ret n
  | None => raise ValueError
  end.

Definition non_empty {A : Type} (l : list A) : bool :=
  match l with
  | [] => false
  | _ :: _ => true
  end.

(** The futures of [{pool.submit(build_module, f, quiet): f for f in parallel}],
    numbered in submission order. *)
Definition enumerate (l : list string) : list (nat * string) :=
  combine (seq 0 (length l)) l.

Fixpoint insert_by (key : nat -> nat) (x : nat * string) (l : list (nat * string))
  : list (nat * string) :=
  match l with
  | [] => [x]
  | y :: t => if (key (fst x) <=? key (fst y))%nat then x :: l else y :: insert_by key x t
  end.

(** [as_completed(futures)]: the futures, earliest completion first. *)
Definition as_completed (key : nat -> nat) (futures : list (nat * string))
  : list (nat * string) :=
  fold_right (insert_by key) [] futures.

(** How the [i]-th future ends: [build_module(f, quiet)] run by a worker of
    the pool, which stores whatever the call raises in the future. *)
Definition future_run (sys : system) (i : nat) (f : string) (quiet : bool)
  : list event * outcome unit :=
  build_module (view sys (PoolFuture i)) f quiet [].

(** [fut.result()]: returns, or raises again what the call raised. *)
Definition future_result (sys : system) (quiet : bool) (fut : nat * string) : M unit :=
  fun _ =>
    let o := snd (future_run sys (fst fut) (snd fut) quiet) in
    ([FutureResult (fst fut) o], o).

Definition cxxflags_missing : string :=
  "CXXFLAGS not defined. Example: CXXFLAGS=" ++ dq ++ "-DLDK -DLND" ++ dq ++ " ./auto_build.py".

(** Lines 104-114 of [main]: the clean mode. *)
Definition clean_step (w : world) (env : environ) (cxxflags : string) : M unit :=
  match env "CLEAN_BUILD" with
  | Some clean_build =>
      if PyStr.truthy clean_build
      then if String.eqb clean_build "FULL" then full_clean w
           else if String.eqb clean_build "CLEAN" then clean_by_flags w (get_flags cxxflags)
           else clean_by_flags w (PyStr.split clean_build)
      else print "No CLEAN_BUILD option specified. Skipping clean step."
  | None => print "No CLEAN_BUILD option specified. Skipping clean step."
  end.

(** Lines 151-160 of [main]: the parallel builds.  The constructor of the
    pool refuses a negative [max_workers]; a zero [parallel_jobs] becomes
    [None], the default size. *)
Definition parallel_builds (sys : system) (sequential parallel : list string)
  (parallel_jobs : Z) (quiet : bool) : M unit :=
  when (non_empty parallel)
    (if (parallel_jobs <? 0)%Z then raise ValueError
     else with_pool
       (let futures := enumerate parallel in
        for_each futures (fun fut => emit (Submit (fst fut) (snd fut) quiet)) ;;
        try_except_Exception
          (for_each (as_completed (finish_time sys) futures) (future_result sys quiet))
          (when (non_empty sequential)
             (print "Parallel build failed, terminating sequential builds") ;;
           die "One or more module builds failed"))).

(** Lines 121-172 of [main]: the builds and the final aggregate build. *)
Definition build_phase (sys : system) (env : environ) (cxxflags : string)
  (flags : list string) : M unit :=
  let w := view sys MainThread in
  parallel_jobs <- int_of (environ_get env "PARALLEL_JOBS" "0") ;;
  let quiet := negb (parallel_jobs =? 1)%Z in
  (if (parallel_jobs =? 1)%Z
   then print ("Compiling selected modules sequentially with CXXFLAGS=" ++ cxxflags ++ "...")
   else print ("Compiling selected modules in parallel (jobs=" ++ PyInt.str parallel_jobs
               ++ ") with CXXFLAGS=" ++ cxxflags ++ "...")) ;;
  let sequential := filter should_build_sequentially flags in
  let parallel := filter (fun f => negb (should_build_sequentially f)) flags in
  when (non_empty sequential) (emit (ThreadStart sequential quiet)) ;;
  parallel_builds sys sequential parallel parallel_jobs quiet ;;
  when (non_empty sequential) (emit ThreadJoin) ;;
  print "All module builds completed successfully!" ;;
  only_modules <- int_of (environ_get env "ONLY_MODULES" "0") ;;
  when (only_modules =? 0)%Z
    (print "Compiling the main project in the root..." ;;
     run w "make" None false ;;
     ret tt) ;;
  print "Build completed successfully!".

(** [os.environ.get("CXXFLAGS")] is [None] or a string; [not cxxflags]
    holds for [None] and for the empty string alike. *)
Definition main (sys : system) (env : environ) : M unit :=
  let w := view sys MainThread in
  let cxxflags := environ_get env "CXXFLAGS" EmptyString in
  (if negb (PyStr.truthy cxxflags) then die cxxflags_missing else ret tt) ;;
  print "Cleaning previous builds..." ;;
  run w "make clean" None false ;;
  clean_step w env cxxflags ;;
  let flags := get_flags cxxflags in
  if negb (non_empty flags)
  then print "No modules to build."
  else build_phase sys env cxxflags flags.

(** The thread the main thread started, if any: its target and arguments. *)
Fixpoint started (tr : list event) : option (list string * bool) :=
  match tr with
  | [] => None
  | ThreadStart sequential quiet :: _ => Some (sequential, quiet)
  | _ :: t => started t
  end.

(** The futures the main thread submitted. *)
Fixpoint submitted (tr : list event) : list (nat * string * bool) :=
  match tr with
  | [] => []
  | Submit i f quiet :: t => (i, f, quiet) :: submitted t
  | _ :: t => submitted t
  end.

(** The exit status of the interpreter, from the way [main()] ends: zero
    when it returns, the code of a [SystemExit], one after the traceback
    of any other exception. *)
Definition status_of (o : outcome unit) : Z :=
  match o with
  | Returned _ => 0
  | Raised (SystemExit code) => code
  | Raised _ => 1
  end.

(** One invocation.  The background thread runs [run_sequential] in its
    own view of the world; whatever it raises ends that thread only.  Each
    submitted future is run by the pool.  When [main()] has ended the
    interpreter waits for the background thread, which is not a daemon,
    before the process exits. *)
Record process : Type := {
  main_trace : list event;
  main_outcome : outcome unit;
  sequential_thread : option (list event * outcome unit);
  pool_futures : list (list event * outcome unit);
  at_exit : list event;
  exit_status : Z
}.

Definition auto_build (sys : system) (env : environ) : process :=
  let r := main sys env [] in
  {| main_trace := fst r;
     main_outcome := snd r;
     sequential_thread :=
       option_map (fun t => run_sequential (view sys SequentialThread) (fst t) (snd t) [])
                  (started (fst r));
     pool_futures :=
       map (fun s => future_run sys (fst (fst s)) (snd (fst s)) (snd s)) (submitted (fst r));
     at_exit := match started (fst r) with Some _ => [ExitJoin] | None => [] end;
     exit_status := status_of (snd r) |}.

(** ** The shell's and-list

    [build_module] hands the text [a && b && c] to the shell, which runs
    the commands from the left and stops at the first one whose status is
    not zero. *)




(** ** Sample worlds and environments *)

Definition proc_ok : CompletedProcess :=
  {| returncode := 0; stdout := EmptyString; stderr := EmptyString |}.

Definition proc_failed : CompletedProcess :=
  {| returncode := 2; stdout := "out"; stderr := "err" |}.

(** Every directory exists, every command succeeds; [modules/] holds the
    directories [found]. *)
Definition all_fine (found : list string) : world :=
  {| path_is_dir := fun _ _ => true;
     subprocess_run := fun _ _ _ _ => Completed proc_ok;
     glob_modules := fun _ => found |}.

(** As [all_fine], but every command run in directory [d] exits with
    status 2. *)
Definition failing_in (d : string) (found : list string) : world :=
  {| path_is_dir := fun _ _ => true;
     subprocess_run := fun _ _ cwd _ =>
       match cwd with
       | Some c => if String.eqb c d then Completed proc_failed else Completed proc_ok
       | None => Completed proc_ok
       end;
     glob_modules := fun _ => found |}.

(** As [all_fine], but directory [d] does not exist. *)
Definition missing (d : string) (found : list string) : world :=
  {| path_is_dir := fun _ p => negb (String.eqb p d);
     subprocess_run := fun _ _ _ _ => Completed proc_ok;
     glob_modules := fun _ => found |}.

(** As [all_fine], but the shell cannot be started in directory [d]. *)
Definition unstartable_in (d : string) (found : list string) : world :=
  {| path_is_dir := fun _ _ => true;
     subprocess_run := fun _ _ cwd _ =>
       match cwd with
       | Some c => if String.eqb c d then CannotStart else Completed proc_ok
       | None => Completed proc_ok
       end;
     glob_modules := fun _ => found |}.

Fixpoint env_of (l : list (string * string)) : environ :=
  fun key =>
    match l with
    | [] => None
    | (k, v) :: t => if String.eqb key k then Some v else env_of t key
    end.

(** [env] with variable [key] set to [v], or unset. *)
Definition setenv (env : environ) (key : string) (v : option string) : environ :=
  fun k => if String.eqb k key then v else env k.

(** The same world for every unit of work; futures complete in submission
    order. *)
Definition same_for_all (w : world) : system :=
  {| view := fun _ => w; finish_time := fun i => i |}.

(** ** Notions used to state the properties *)

(** [l1] is [l2] with some elements left out, the others in their order. *)
Inductive subsequence {A : Type} : list A -> list A -> Prop :=
| subsequence_nil : subsequence [] []
| subsequence_keep (x : A) (l1 l2 : list A) :
    subsequence l1 l2 -> subsequence (x :: l1) (x :: l2)
| subsequence_skip (x : A) (l1 l2 : list A) :
    subsequence l1 l2 -> subsequence l1 (x :: l2).

(** A module that must build in the sequential lane: one of the three
    named modules, or any identifier that starts with [CUSTOM_MUTATOR_]. *)
Definition forced_sequential (f : string) : Prop :=
  In f ["SECP256K1"; "BITCOINJ"; "LIGHTNING_KMP"]
  \/ exists suffix : string, f = "CUSTOM_MUTATOR_" ++ suffix.

(** A module whose build needs the pinned toolchain. *)
Definition pinned_toolchain (f : string) : Prop :=
  In f ["RUST_BITCOIN"; "RUST_MINISCRIPT"; "LDK"; "TINY_MINISCRIPT"; "RUSTBITCOINKERNEL"].

(** What may follow an identifier in the text: nothing, or a character
    outside [A-Z0-9_]. *)
Definition boundary (post : string) : bool :=
  match post with
  | EmptyString => true
  | String c _ => negb (ident_char c)
  end.

(** A matching token [-D<id>] stands at offset [n] of [text]: after [n]
    characters come [-D] and [id], a non-empty word over [A-Z0-9_] that
    ends there. *)
Definition token_at (text : string) (n : nat) (id : string) : Prop :=
  exists pre post : string,
    text = pre ++ "-D" ++ id ++ post
    /\ String.length pre = n
    /\ valid_ident id = true
    /\ boundary post = true.

(** Every event a computation adds satisfies [P], whatever came before. *)
Definition emits {A : Type} (P : event -> Prop) (m : M A) : Prop :=
  forall h, Forall P (fst (m h)).

(** An event in which the outside world reports a failure: a directory
    that is missing, a command that cannot be started or that exits with
    a status other than zero. *)
Definition failing (ev : event) : bool :=
  match ev with
  | IsDir _ answer => negb answer
  | Subprocess _ _ _ (Completed proc) => negb (returncode proc =? 0)%Z
  | Subprocess _ _ _ CannotStart => true
  | _ => false
  end.

Definition calm (ev : event) : Prop := failing ev = false.

(** What the script does right after a failing event, and the exception
    that ends the unit of work. *)
Definition aftermath (ev : event) : list event * exn :=
  match ev with
  | IsDir path _ =>
      ([PrintErr ("Error: Directory " ++ path ++ " does not exist")], SystemExit 1)
  | Subprocess cmd _ quiet (Completed proc) =>
      ((if quiet then [Print (stdout proc); Print (stderr proc)] else [])
         ++ [PrintErr ("Error: Command failed: " ++ cmd)],
       SystemExit 1)%list
  | _ => ([], OSError)
  end.

(** Fail-fast: either nothing failed, or the first failing event is
    followed by its report alone and the unit of work ends there. *)
Inductive fail_fast {A : Type} : list event -> outcome A -> Prop :=
| fail_fast_calm (tr : list event) (o : outcome A) :
    Forall calm tr -> fail_fast tr o
| fail_fast_failed (pre : list event) (ev : event) :
    Forall calm pre -> failing ev = true ->
    fail_fast (pre ++ ev :: fst (aftermath ev))%list (Raised (snd (aftermath ev))).

Definition fails_fast {A : Type} (m : M A) : Prop :=
  forall h, fail_fast (fst (m h)) (snd (m h)).

(** A computation that raises only after a failing event. *)
Definition raises_on_failure_only {A : Type} (m : M A) : Prop :=
  forall h e, snd (m h) = Raised e -> Exists (fun ev => failing ev = true) (fst (m h)).

(** The events of the main thread up to the end of the clean mode: output,
    directory tests, the listing of [modules/], and [make clean] commands. *)
Definition cleaning (ev : event) : Prop :=
  match ev with
  | Print _ | PrintErr _ | IsDir _ _ | Glob _ => True
  | Subprocess cmd _ _ _ => cmd = "make clean"
  | _ => False
  end.

(** The events of the main thread from line 121 on: output, the thread and
    pool operations, and the final [make] at the top level. *)
Definition building (ev : event) : Prop :=
  match ev with
  | Print _ | PrintErr _ | ThreadStart _ _ | Submit _ _ _ | FutureResult _ _
  | PoolShutdown | ThreadJoin => True
  | Subprocess cmd cwd _ _ => cmd = "make" /\ cwd = None
  | _ => False
  end.

(** Output only. *)
Definition message (ev : event) : Prop :=
  match ev with
  | Print _ | PrintErr _ => True
  | _ => False
  end.

(** Neither a failed result of a future, nor the join of the background
    thread. *)
Definition pending (ev : event) : Prop :=
  match ev with
  | FutureResult _ (Raised _) | ThreadJoin => False
  | _ => True
  end.

(** The external commands of a trace, with their working directories. *)
Fixpoint commands (tr : list event) : list (string * option string) :=
  match tr with
  | [] => []
  | Subprocess cmd cwd _ _ :: t => (cmd, cwd) :: commands t
  | _ :: t => commands t
  end.

(** The two ways a clean step fails, each with the text of its report. *)
Inductive clean_failure : event -> string -> Prop :=
| missing_directory (d : string) :
    clean_failure (IsDir d false) ("Directory " ++ d ++ " does not exist")
| failed_command (cwd : option string) (proc : CompletedProcess) :
    returncode proc <> 0%Z ->
    clean_failure (Subprocess "make clean" cwd false (Completed proc))
                  "Command failed: make clean".

(** "After the first failed result the main thread does not wait for the
    pool": no [PoolShutdown] follows a failed [FutureResult]. *)
Definition abandons_pool_after_failure (tr : list event) : Prop :=
  forall pre i e post,
    tr = (pre ++ FutureResult i (Raised e) :: post)%list -> ~ In PoolShutdown post.

Definition pinned_command : string := "rustup default nightly && make cargo && make".

(** Where the scheduler may put the modules of [flags]: the background
    thread is started with the forced-sequential ones, the pool is given
    only the others. *)
Definition placed (flags : list string) (ev : event) : Prop :=
  match ev with
  | ThreadStart sequential _ => sequential = filter should_build_sequentially flags
  | Submit _ f _ => In f (filter (fun f => negb (should_build_sequentially f)) flags)
  | _ => True
  end.

(** The run stopped in the clean phase: the main thread did nothing but
    clean, and one of its steps failed. *)
Definition stops_in_clean_phase (tr : list event) : Prop :=
  Forall cleaning tr /\ Exists (fun ev => failing ev = true) tr.


(** Not a failed result of a future. *)
Definition settled (ev : event) : Prop :=
  match ev with
  | FutureResult _ (Raised _) => False
  | _ => True
  end.

(** CXXFLAGS="-DSECP256K1 -DBITCOINJ -DLDK -DLND", nothing else set: two
    modules for the sequential lane, two for the pool. *)
Definition env_four : environ :=
  env_of [("CXXFLAGS", "-DSECP256K1 -DBITCOINJ -DLDK -DLND")].

(** The build of LDK, the first future, fails; all else goes well. *)
Definition sys_ldk_fails : system :=
  {| view := fun u =>
       match u with
       | PoolFuture 0 => failing_in "modules/ldk" []
       | _ => all_fine []
       end;
     finish_time := fun i => i |}.

(** [sys] with the answers given to the background thread replaced by
    [w]. *)
Definition with_sequential_view (sys : system) (w : world) : system :=
  {| view := fun u =>
       match u with
       | SequentialThread => w
       | _ => view sys u
       end;
     finish_time := finish_time sys |}.

(** The build of SECP256K1, in the background thread, fails; all else
    goes well. *)
Definition sys_secp256k1_fails : system :=
  {| view := fun u =>
       match u with
       | SequentialThread => failing_in "modules/secp256k1" []
       | _ => all_fine []
       end;
     finish_time := fun i => i |}.

(** ** Further notions, for the properties of the code beyond the claims *)

(** The directories a trace tests, in order. *)
Fixpoint probed (tr : list event) : list string :=
  match tr with
  | [] => []
  | IsDir path _ :: t => path :: probed t
  | _ :: t => probed t
  end.

(** A lower-case ASCII letter or a digit. *)
Definition lower_or_digit (c : ascii) : bool :=
  PyStr.in_range 97 122 c || PyStr.is_digit c.

(** The results of futures a trace asks for, in order. *)
Fixpoint results (tr : list event) : list (nat * outcome unit) :=
  match tr with
  | [] => []
  | FutureResult i o :: t => (i, o) :: results t
  | _ :: t => results t
  end.

(** A [SystemExit], if that is how the computation ends, carries code 1. *)
Definition exits_with_one {A : Type} (o : outcome A) : Prop :=
  match o with
  | Raised (SystemExit code) => code = 1%Z
  | _ => True
  end.



(** A computation whose [SystemExit], if any, carries code 1. *)
Definition ends_with_one {A : Type} (m : M A) : Prop :=
  forall h, exits_with_one (snd (m h)).

(** [fut.result()] on a future whose call returned. *)
Definition returned_result (fut : nat * string) : event :=
  FutureResult (fst fut) (Returned tt).

(** The submission of a future. *)
Definition submission (quiet : bool) (fut : nat * string) : event :=
  Submit (fst fut) (snd fut) quiet.

(** What the [except Exception] branch of lines 157-160 prints when the
    exception [e] reaches it. *)
Definition except_output (sequential : list string) (e : exn) : list event :=
  if is_Exception e
  then ((if non_empty sequential
         then [Print "Parallel build failed, terminating sequential builds"]
         else [])
          ++ [PrintErr "Error: One or more module builds failed"])%list
  else [].

(** The call of the [i]-th future returned. *)
Definition future_returned (sys : system) (quiet : bool) (fut : nat * string) : Prop :=
  snd (future_run sys (fst fut) (snd fut) quiet) = Returned tt.

(** Lines 165-172 of [main]: the end of the run, once the builds are
    over. *)
Definition final_build (w : world) (env : environ) : M unit :=
  print "All module builds completed successfully!" ;;
  only_modules <- int_of (environ_get env "ONLY_MODULES" "0") ;;
  when (only_modules =? 0)%Z
    (print "Compiling the main project in the root..." ;;
     run w "make" None false ;;
     ret tt) ;;
  print "Build completed successfully!".

(** The line that announces the builds. *)
Definition banner (parallel_jobs : Z) (cxxflags : string) : string :=
  if (parallel_jobs =? 1)%Z
  then "Compiling selected modules sequentially with CXXFLAGS=" ++ cxxflags ++ "..."
  else "Compiling selected modules in parallel (jobs=" ++ PyInt.str parallel_jobs
       ++ ") with CXXFLAGS=" ++ cxxflags ++ "...".

(** Every thread start and every submission carries the quiet setting
    [quiet]. *)
Definition quiet_is (quiet : bool) (ev : event) : Prop :=
  match ev with
  | ThreadStart _ q | Submit _ _ q => q = quiet
  | _ => True
  end.

(** Not the final [make] at the top level. *)
Definition not_final_make (ev : event) : Prop :=
  match ev with
  | Subprocess cmd _ _ _ => cmd <> "make"
  | _ => True
  end.

(** Output and external commands only: no thread or pool operation. *)
Definition plain (ev : event) : Prop :=
  match ev with
  | Print _ | PrintErr _ | Subprocess _ _ _ _ => True
  | _ => False
  end.

(** * Theorems *)

(** ** Facts on strings and on the flag parser *)


Lemma in_set_In (x : string) (l : list string) : PyStr.in_set x l = true <-> In x l.
Proof.
  unfold PyStr.in_set. rewrite existsb_exists. split.
  - intros [y [Hy E]]. apply String.eqb_eq in E. now subst.
  - intros H. exists x. split; [assumption | apply String.eqb_refl].
Qed.


Lemma lower_char_underscore (c : ascii) :
  Ascii.eqb (PyStr.lower_char c) "_" = Ascii.eqb c "_".
Proof. destruct c as [[] [] [] [] [] [] [] []]; reflexivity. Qed.


Lemma span_ident_length (s : string) :
  String.length (fst (span_ident s)) + String.length (snd (span_ident s)) = String.length s.
Proof.
  induction s as [|c t IH]; simpl; [reflexivity|].
  destruct (ident_char c); simpl; [|reflexivity].
  destruct (span_ident t) as [g r]; simpl in *. lia.
Qed.

Lemma match_at_shorter (s g r : string) :
  match_at s = Some (g, r) -> String.length r + 3 <= String.length s.
Proof.
  unfold match_at. destruct s as [|a [|b t]]; try discriminate.
  destruct (Ascii.eqb a "-" && Ascii.eqb b "D"); try discriminate.
  pose proof (span_ident_length t) as L.
  destruct (span_ident t) as [[|c g'] r']; try discriminate.
  intros E. injection E as <- <-. simpl in *. lia.
Qed.

Lemma str_app_assoc (a b c : string) : (a ++ b) ++ c = a ++ (b ++ c).
Proof. induction a as [|x a IH]; simpl; [reflexivity | now rewrite IH]. Qed.

Lemma span_ident_split (s : string) : s = fst (span_ident s) ++ snd (span_ident s).
Proof.
  induction s as [|c t IH]; simpl; [reflexivity|].
  destruct (ident_char c); [|reflexivity].
  destruct (span_ident t) as [g r]; simpl in *. now rewrite <- IH.
Qed.

Lemma span_ident_rest (s : string) :
  match snd (span_ident s) with
  | EmptyString => True
  | String c _ => ident_char c = false
  end.
Proof.
  induction s as [|c t IH]; simpl; [exact I|].
  destruct (ident_char c) eqn:E; [|simpl; exact E].
  destruct (span_ident t) as [g r]; simpl in *. exact IH.
Qed.

Lemma match_at_text (s g r : string) :
  match_at s = Some (g, r) ->
  s = "-D" ++ g ++ r
  /\ match r with EmptyString => True | String c _ => ident_char c = false end.
Proof.
  unfold match_at. destruct s as [|a [|b t]]; try discriminate.
  destruct (Ascii.eqb_spec a "-") as [->|]; [|discriminate].
  destruct (Ascii.eqb_spec b "D") as [->|]; [|discriminate].
  cbn [andb]. pose proof (span_ident_split t) as S. pose proof (span_ident_rest t) as R.
  destruct (span_ident t) as [[|c g'] r']; try discriminate.
  intros E. injection E as <- <-. cbn [fst snd] in *. split; [|exact R].
  rewrite S. reflexivity.
Qed.

(** The fuel given by [get_flags] is never used up. *)
Lemma findall_fuel (n m : nat) (s : string) :
  String.length s <= n -> String.length s <= m -> findall n s = findall m s.
Proof.
  revert m s. induction n as [|n IH]; intros m s Hn Hm.
  - destruct s; [|simpl in Hn; lia]. destruct m; reflexivity.
  - destruct m as [|m].
    + destruct s; [reflexivity | simpl in Hm; lia].
    + simpl. destruct (match_at s) as [[g r]|] eqn:E.
      * apply match_at_shorter in E. f_equal. apply IH; lia.
      * destruct s as [|c t]; [reflexivity|]. simpl in Hn, Hm. apply IH; lia.
Qed.

Lemma get_flags_step (s : string) :
  get_flags s =
  match match_at s with
  | Some (g, r) => g :: get_flags r
  | None => match s with
            | EmptyString => []
            | String _ t => get_flags t
            end
  end.
Proof.
  unfold get_flags. destruct s as [|c t]; [reflexivity|].
  cbn [String.length findall].
  destruct (match_at (String c t)) as [[g r]|] eqn:E.
  - apply match_at_shorter in E. simpl in E. f_equal. apply findall_fuel; lia.
  - reflexivity.
Qed.

Lemma span_ident_append (u : string) (c : ascii) (v : string) :
  ident_char c = false ->
  span_ident (u ++ String c v) = (fst (span_ident u), snd (span_ident u) ++ String c v).
Proof.
  intros Hc. induction u as [|a t IH]; simpl.
  - now rewrite Hc.
  - destruct (ident_char a); [|reflexivity].
    rewrite IH. destruct (span_ident t); reflexivity.
Qed.

Lemma get_flags_separator_aux (c : ascii) (s2 : string) :
  ident_char c = false -> Ascii.eqb c "-" = false ->
  forall n s1, String.length s1 <= n ->
  get_flags (s1 ++ String c s2) = (get_flags s1 ++ get_flags s2)%list.
Proof.
  intros Hc Hd. induction n as [|n IH]; intros s1 Hn.
  - destruct s1; [|simpl in Hn; lia]. simpl.
    rewrite (get_flags_step (String c s2)).
    unfold match_at. destruct s2; rewrite ?Hd; reflexivity.
  - destruct s1 as [|a t].
    + simpl. rewrite (get_flags_step (String c s2)).
      unfold match_at. destruct s2; rewrite ?Hd; reflexivity.
    + simpl in Hn. rewrite (get_flags_step (String a t)).
      rewrite (get_flags_step (String a t ++ String c s2)).
      destruct t as [|b u].
      * cbn [append match_at].
        assert (Ascii.eqb c "D" = false) as HD.
        { destruct (Ascii.eqb_spec c "D") as [->|]; [discriminate Hc | reflexivity]. }
        rewrite HD, andb_false_r. apply (IH EmptyString). simpl; lia.
      * cbn [append match_at].
        destruct (Ascii.eqb a "-" && Ascii.eqb b "D").
        -- rewrite span_ident_append by assumption.
           pose proof (span_ident_length u) as L.
           destruct (span_ident u) as [[|x g] r]; cbn [fst snd] in *.
           ++ apply (IH (String b u)). lia.
           ++ cbn [app]. f_equal. apply IH. cbn [String.length] in L, Hn. lia.
        -- apply (IH (String b u)). lia.
Qed.

Lemma get_flags_separator (c : ascii) (s1 s2 : string) :
  ident_char c = false -> Ascii.eqb c "-" = false ->
  get_flags (s1 ++ String c s2) = (get_flags s1 ++ get_flags s2)%list.
Proof. intros Hc Hd. now apply (get_flags_separator_aux c s2 Hc Hd (String.length s1)). Qed.

Lemma span_ident_all (s : string) :
  PyStr.all_chars ident_char s = true -> span_ident s = (s, EmptyString).
Proof.
  unfold PyStr.all_chars. induction s as [|c t IH]; simpl; [reflexivity|].
  intros H. apply andb_true_iff in H as [Hc Ht]. rewrite Hc, IH by assumption. reflexivity.
Qed.

Lemma get_flags_token (id : string) :
  valid_ident id = true -> get_flags ("-D" ++ id) = [id].
Proof.
  unfold valid_ident. intros H. apply andb_true_iff in H as [Hne Hall].
  rewrite get_flags_step. cbn [append match_at]. simpl.
  rewrite span_ident_all by assumption.
  destruct id; [discriminate|]. reflexivity.
Qed.

Lemma span_ident_group (s : string) :
  PyStr.all_chars ident_char (fst (span_ident s)) = true.
Proof.
  unfold PyStr.all_chars. induction s as [|c t IH]; simpl; [reflexivity|].
  destruct (ident_char c) eqn:E; [|reflexivity].
  destruct (span_ident t); simpl in *. now rewrite E.
Qed.

Lemma match_at_valid (s g r : string) : match_at s = Some (g, r) -> valid_ident g = true.
Proof.
  unfold match_at. destruct s as [|a [|b t]]; try discriminate.
  destruct (Ascii.eqb a "-" && Ascii.eqb b "D"); try discriminate.
  pose proof (span_ident_group t) as G.
  destruct (span_ident t) as [[|c g'] r']; try discriminate.
  intros E. injection E as <- <-. exact G.
Qed.

Lemma get_flags_valid (s : string) : Forall (fun g => valid_ident g = true) (get_flags s).
Proof.
  remember (String.length s) as n eqn:Hn.
  assert (String.length s <= n) as H by lia. clear Hn.
  revert s H. induction n as [|n IH]; intros s H.
  - destruct s; [constructor | simpl in H; lia].
  - rewrite get_flags_step. destruct (match_at s) as [[g r]|] eqn:E.
    + constructor; [eapply match_at_valid; eassumption|].
      apply IH. apply match_at_shorter in E. lia.
    + destruct s as [|c t]; [constructor|]. apply IH. simpl in H. lia.
Qed.

Lemma get_flags_join (toks : list string) :
  get_flags (PyStr.join " " toks) = List.concat (map get_flags toks).
Proof.
  unfold PyStr.join. induction toks as [|t ts IH]; [reflexivity|].
  destruct ts as [|t' ts].
  - simpl. now rewrite app_nil_r.
  - change (String.concat " " (t :: t' :: ts)) with (t ++ String " " (String.concat " " (t' :: ts))).
    rewrite get_flags_separator by reflexivity. rewrite IH. reflexivity.
Qed.

Lemma startswith_iff (s p : string) :
  PyStr.startswith s p = true <-> exists suffix : string, s = p ++ suffix.
Proof.
  unfold PyStr.startswith. revert s. induction p as [|a p IH]; intros s.
  - split; [intros _; now exists s | intros _; destruct s; reflexivity].
  - destruct s as [|b s]; simpl.
    + split; [discriminate | intros [x Hx]; discriminate].
    + destruct (ascii_dec a b) as [->|N].
      * rewrite IH. split; intros [x Hx]; exists x; congruence.
      * split; [discriminate | intros [x Hx]; congruence].
Qed.

Lemma should_build_sequentially_iff (f : string) :
  should_build_sequentially f = true <-> forced_sequential f.
Proof.
  unfold should_build_sequentially, forced_sequential.
  rewrite orb_true_iff, in_set_In, startswith_iff. reflexivity.
Qed.

Lemma needs_rust_nightly_iff (f : string) :
  needs_rust_nightly f = true <-> pinned_toolchain f.
Proof. unfold needs_rust_nightly. apply in_set_In. Qed.

Lemma filter_subsequence {A : Type} (p : A -> bool) (l : list A) :
  subsequence (filter p l) l.
Proof.
  induction l as [|x l IH]; simpl; [constructor|].
  destruct (p x); now constructor.
Qed.

Lemma filter_partition_perm {A : Type} (p : A -> bool) (l : list A) :
  Permutation l (filter p l ++ filter (fun x => negb (p x)) l)%list.
Proof.
  induction l as [|x l IH]; simpl; [constructor|].
  destruct (p x); simpl.
  - now constructor.
  - now apply Permutation_cons_app.
Qed.

(** ** The monad: traces of composed computations *)

Lemma bind_run {A B : Type} (m : M A) (k : A -> M B) (h : list event) :
  bind m k h =
  match snd (m h) with
  | Returned a =>
      ((fst (m h) ++ fst (k a (h ++ fst (m h))))%list, snd (k a (h ++ fst (m h))%list))
  | Raised e => (fst (m h), Raised e)
  end.
Proof.
  unfold bind. destruct (m h) as [es [a|e]]; simpl; [|reflexivity].
  destruct (k a (h ++ es)%list); reflexivity.
Qed.

Section Emits.

Context (P : event -> Prop).

Lemma emits_ret {A : Type} (a : A) : emits P (ret a).
Proof. intros h. constructor. Qed.

Lemma emits_raise {A : Type} (e : exn) : emits P (@raise A e).
Proof. intros h. constructor. Qed.

Lemma emits_emit (ev : event) : P ev -> emits P (emit ev).
Proof. intros H h. simpl. auto. Qed.

Lemma emits_bind {A B : Type} (m : M A) (k : A -> M B) :
  emits P m -> (forall a, emits P (k a)) -> emits P (bind m k).
Proof.
  intros Hm Hk h. rewrite bind_run. specialize (Hm h).
  destruct (snd (m h)) as [a|e]; simpl; [|assumption].
  apply Forall_app. split; [assumption | apply Hk].
Qed.

Lemma emits_when (c : bool) (body : M unit) : emits P body -> emits P (when c body).
Proof. destruct c; simpl; [trivial | intros _; apply emits_ret]. Qed.

Lemma emits_for_each {A : Type} (l : list A) (body : A -> M unit) :
  (forall x, emits P (body x)) -> emits P (for_each l body).
Proof.
  intros H. induction l as [|x l IH]; simpl; [apply emits_ret|].
  apply emits_bind; auto.
Qed.

Lemma emits_try {A : Type} (body handler : M A) :
  emits P body -> emits P handler -> emits P (try_except_Exception body handler).
Proof.
  intros Hb Hh h. unfold try_except_Exception. specialize (Hb h).
  destruct (body h) as [es [a|e]]; simpl in *; [assumption|].
  destruct (is_Exception e); [|assumption].
  specialize (Hh (h ++ es)%list). destruct (handler (h ++ es)%list); simpl in *.
  apply Forall_app; auto.
Qed.

Lemma emits_with_pool {A : Type} (body : M A) :
  emits P body -> P PoolShutdown -> emits P (with_pool body).
Proof.
  intros Hb Hp h. unfold with_pool. specialize (Hb h).
  destruct (body h) as [es o]; simpl in *. apply Forall_app; auto.
Qed.

Lemma emits_print (s : string) : P (Print s) -> emits P (print s).
Proof. apply emits_emit. Qed.

Lemma emits_die {A : Type} (msg : string) :
  P (PrintErr ("Error: " ++ msg)) -> emits P (@die A msg).
Proof. intros H. apply emits_bind; [now apply emits_emit | intros; apply emits_raise]. Qed.

Lemma emits_int_of (s : string) : emits P (int_of s).
Proof. unfold int_of. destruct (PyInt.int s); [apply emits_ret | apply emits_raise]. Qed.

Hypothesis P_print : forall s, P (Print s).
Hypothesis P_printerr : forall s, P (PrintErr s).

Lemma emits_run (w : world) (cmd : string) (cwd : option string) (quiet : bool) :
  (forall r, P (Subprocess cmd cwd quiet r)) -> emits P (run w cmd cwd quiet).
Proof.
  intros H. unfold run. apply emits_bind.
  - apply emits_when, emits_print, P_print.
  - intros _. apply emits_bind.
    + intros h. simpl. auto.
    + intros proc. destruct (negb (returncode proc =? 0)%Z); [|apply emits_ret].
      apply emits_bind; [|intros; apply emits_die, P_printerr].
      apply emits_when, emits_bind; [apply emits_print, P_print|].
      intros; apply emits_print, P_print.
Qed.

Lemma emits_execute_in_dir (w : world) (d cmd : string) (quiet : bool) :
  (forall b, P (IsDir d b)) -> (forall r, P (Subprocess cmd (Some d) quiet r)) ->
  emits P (execute_in_dir w d cmd quiet).
Proof.
  intros Hd Hs. unfold execute_in_dir. apply emits_bind.
  - intros h. simpl. auto.
  - intros b. apply emits_bind.
    + destruct (negb b); [apply emits_die, P_printerr | apply emits_ret].
    + intros _. apply emits_bind; [now apply emits_run | intros; apply emits_ret].
Qed.

End Emits.

(** ** Fail-fast computations *)

Lemma fail_fast_returned {A : Type} (tr : list event) (a : A) :
  fail_fast tr (Returned a) -> Forall calm tr.
Proof. intros H. inversion H; assumption. Qed.

Lemma fail_fast_raised {A B : Type} (tr : list event) (e : exn) :
  fail_fast tr (@Raised A e) -> fail_fast tr (@Raised B e).
Proof.
  intros H. inversion H as [tr' o Hc E1 E2 | pre ev Hc Hf E1 E2].
  - now apply fail_fast_calm.
  - now apply fail_fast_failed.
Qed.

Lemma fails_fast_emits {A : Type} (m : M A) : emits calm m -> fails_fast m.
Proof. intros H h. apply fail_fast_calm, H. Qed.

Lemma fails_fast_ret {A : Type} (a : A) : fails_fast (ret a).
Proof. apply fails_fast_emits, emits_ret. Qed.

Lemma fails_fast_print (s : string) : fails_fast (print s).
Proof. apply fails_fast_emits, emits_print. reflexivity. Qed.

Lemma fails_fast_die {A : Type} (msg : string) : fails_fast (@die A msg).
Proof. apply fails_fast_emits, emits_die. reflexivity. Qed.

Lemma fails_fast_bind {A B : Type} (m : M A) (k : A -> M B) :
  fails_fast m -> (forall a, fails_fast (k a)) -> fails_fast (bind m k).
Proof.
  intros Hm Hk h. rewrite bind_run. specialize (Hm h).
  destruct (snd (m h)) as [a|e]; simpl; [|exact (fail_fast_raised _ _ Hm)].
  apply fail_fast_returned in Hm.
  specialize (Hk a (h ++ fst (m h))%list).
  inversion Hk as [tr o Hc E1 E2 | pre ev Hc Hf E1 E2].
  - apply fail_fast_calm. apply Forall_app; auto.
  - rewrite app_assoc. apply fail_fast_failed; [apply Forall_app; auto | assumption].
Qed.

Lemma fails_fast_when (c : bool) (body : M unit) : fails_fast body -> fails_fast (when c body).
Proof. destruct c; simpl; [trivial | intros _; apply fails_fast_ret]. Qed.

Lemma fails_fast_for_each {A : Type} (l : list A) (body : A -> M unit) :
  (forall x, fails_fast (body x)) -> fails_fast (for_each l body).
Proof.
  intros H. induction l as [|x l IH]; simpl; [apply fails_fast_ret|].
  apply fails_fast_bind; auto.
Qed.

Lemma fails_fast_run (w : world) (cmd : string) (cwd : option string) (quiet : bool) :
  fails_fast (run w cmd cwd quiet).
Proof.
  unfold run. apply fails_fast_bind.
  { apply fails_fast_when, fails_fast_print. }
  intros _ h. unfold bind, subprocess.
  destruct (subprocess_run w h cmd cwd quiet) as [proc|] eqn:E.
  - destruct (negb (returncode proc =? 0)%Z) eqn:R.
    + pose proof (@fail_fast_failed CompletedProcess []
                    (Subprocess cmd cwd quiet (Completed proc)) (Forall_nil _) R) as F.
      destruct quiet; exact F.
    + apply fail_fast_calm. simpl. constructor; [exact R | constructor].
  - exact (@fail_fast_failed CompletedProcess []
             (Subprocess cmd cwd quiet CannotStart) (Forall_nil _) eq_refl).
Qed.

Lemma fail_fast_cons {A : Type} (ev : event) (tr : list event) (o : outcome A) :
  calm ev -> fail_fast tr o -> fail_fast (ev :: tr) o.
Proof.
  intros Hev H. inversion H as [tr' o' Hc E1 E2 | pre ev' Hc Hf E1 E2].
  - apply fail_fast_calm. now constructor.
  - change (fail_fast ((ev :: pre) ++ ev' :: fst (aftermath ev'))%list
              (@Raised A (snd (aftermath ev')))).
    apply fail_fast_failed; [now constructor | assumption].
Qed.

Lemma fails_fast_execute_in_dir (w : world) (d cmd : string) (quiet : bool) :
  fails_fast (execute_in_dir w d cmd quiet).
Proof.
  intros h. unfold execute_in_dir. rewrite bind_run. cbn [is_dir fst snd].
  destruct (path_is_dir w h d) eqn:E; cbn [negb].
  - assert (fails_fast (ret tt ;; run w cmd (Some d) quiet ;; ret tt)%py) as F.
    { apply fails_fast_bind; [apply fails_fast_ret|]. intros _.
      apply fails_fast_bind; [apply fails_fast_run | intros; apply fails_fast_ret]. }
    specialize (F (h ++ [IsDir d true])%list).
    apply (fail_fast_cons (IsDir d true)); [reflexivity | exact F].
  - exact (@fail_fast_failed unit [] (IsDir d false) (Forall_nil _) eq_refl).
Qed.

Lemma fails_fast_clean_by_flags (w : world) (flags : list string) :
  fails_fast (clean_by_flags w flags).
Proof.
  unfold clean_by_flags. apply fails_fast_bind; [apply fails_fast_print|].
  intros _. apply fails_fast_for_each. intros; apply fails_fast_execute_in_dir.
Qed.

Lemma fails_fast_full_clean (w : world) : fails_fast (full_clean w).
Proof.
  unfold full_clean. apply fails_fast_bind; [apply fails_fast_print|].
  intros _. apply fails_fast_bind.
  { apply fails_fast_emits. intros h. simpl. repeat constructor. }
  intros ds. apply fails_fast_bind.
  - apply fails_fast_for_each. intros; apply fails_fast_execute_in_dir.
  - intros _. apply fails_fast_execute_in_dir.
Qed.

Lemma fails_fast_clean_step (w : world) (env : environ) (cxxflags : string) :
  fails_fast (clean_step w env cxxflags).
Proof.
  unfold clean_step. destruct (env "CLEAN_BUILD") as [cb|]; [|apply fails_fast_print].
  destruct (PyStr.truthy cb); [|apply fails_fast_print].
  destruct (cb =? "FULL"); [apply fails_fast_full_clean|].
  destruct (cb =? "CLEAN"); apply fails_fast_clean_by_flags.
Qed.

Lemma fails_fast_build_module (w : world) (flag : string) (quiet : bool) :
  fails_fast (build_module w flag quiet).
Proof.
  unfold build_module. apply fails_fast_bind.
  { apply fails_fast_when, fails_fast_print. }
  intros _. apply fails_fast_bind.
  - destruct (needs_rust_nightly flag); apply fails_fast_execute_in_dir.
  - intros _. apply fails_fast_when, fails_fast_print.
Qed.

Lemma fails_fast_run_sequential (w : world) (sequential : list string) (quiet : bool) :
  fails_fast (run_sequential w sequential quiet).
Proof.
  unfold run_sequential. apply fails_fast_bind; [apply fails_fast_print|].
  intros _. apply fails_fast_for_each. intros; apply fails_fast_build_module.
Qed.

(** ** Computations that raise only after a failure *)

Lemma rofo_ret {A : Type} (a : A) : raises_on_failure_only (ret a).
Proof. intros h e H. discriminate H. Qed.

Lemma rofo_print (s : string) : raises_on_failure_only (print s).
Proof. intros h e H. discriminate H. Qed.

Lemma rofo_bind {A B : Type} (m : M A) (k : A -> M B) :
  raises_on_failure_only m -> (forall a, raises_on_failure_only (k a)) ->
  raises_on_failure_only (bind m k).
Proof.
  intros Hm Hk h e. rewrite bind_run. specialize (Hm h).
  destruct (snd (m h)) as [a|e']; cbn [fst snd].
  - intros H. apply Exists_app. right. now apply (Hk a _ e).
  - intros H. exact (Hm _ eq_refl).
Qed.

Lemma rofo_when (c : bool) (body : M unit) :
  raises_on_failure_only body -> raises_on_failure_only (when c body).
Proof. destruct c; simpl; [trivial | intros _; apply rofo_ret]. Qed.

Lemma rofo_for_each {A : Type} (l : list A) (body : A -> M unit) :
  (forall x, raises_on_failure_only (body x)) -> raises_on_failure_only (for_each l body).
Proof.
  intros H. induction l as [|x l IH]; simpl; [apply rofo_ret|].
  apply rofo_bind; auto.
Qed.

Lemma rofo_run (w : world) (cmd : string) (cwd : option string) (quiet : bool) :
  raises_on_failure_only (run w cmd cwd quiet).
Proof.
  unfold run. apply rofo_bind; [apply rofo_when, rofo_print|].
  intros _ h e. unfold bind, subprocess.
  destruct (subprocess_run w h cmd cwd quiet) as [proc|] eqn:E.
  - destruct (negb (returncode proc =? 0)%Z) eqn:R.
    + intros _. destruct quiet; apply Exists_cons_hd; exact R.
    + discriminate.
  - intros _. apply Exists_cons_hd. reflexivity.
Qed.

Lemma rofo_execute_in_dir (w : world) (d cmd : string) (quiet : bool) :
  raises_on_failure_only (execute_in_dir w d cmd quiet).
Proof.
  intros h e. unfold execute_in_dir. rewrite bind_run. cbn [is_dir fst snd].
  destruct (path_is_dir w h d) eqn:E; cbn [negb].
  - intros H. apply Exists_cons_tl.
    assert (raises_on_failure_only (ret tt ;; run w cmd (Some d) quiet ;; ret tt)%py) as F.
    { apply rofo_bind; [apply rofo_ret|]. intros _.
      apply rofo_bind; [apply rofo_run | intros; apply rofo_ret]. }
    exact (F _ _ H).
  - intros _. apply Exists_cons_hd. reflexivity.
Qed.

Lemma rofo_clean_by_flags (w : world) (flags : list string) :
  raises_on_failure_only (clean_by_flags w flags).
Proof.
  unfold clean_by_flags. apply rofo_bind; [apply rofo_print|].
  intros _. apply rofo_for_each. intros; apply rofo_execute_in_dir.
Qed.

Lemma rofo_full_clean (w : world) : raises_on_failure_only (full_clean w).
Proof.
  unfold full_clean. apply rofo_bind; [apply rofo_print|].
  intros _. apply rofo_bind; [intros h e H; discriminate H|].
  intros ds. apply rofo_bind.
  - apply rofo_for_each. intros; apply rofo_execute_in_dir.
  - intros _. apply rofo_execute_in_dir.
Qed.

Lemma rofo_clean_step (w : world) (env : environ) (cxxflags : string) :
  raises_on_failure_only (clean_step w env cxxflags).
Proof.
  unfold clean_step. destruct (env "CLEAN_BUILD") as [cb|]; [|apply rofo_print].
  destruct (PyStr.truthy cb); [|apply rofo_print].
  destruct (cb =? "FULL"); [apply rofo_full_clean|].
  destruct (cb =? "CLEAN"); apply rofo_clean_by_flags.
Qed.

Lemma rofo_build_module (w : world) (flag : string) (quiet : bool) :
  raises_on_failure_only (build_module w flag quiet).
Proof.
  unfold build_module. apply rofo_bind; [apply rofo_when, rofo_print|].
  intros _. apply rofo_bind.
  - destruct (needs_rust_nightly flag); apply rofo_execute_in_dir.
  - intros _. apply rofo_when, rofo_print.
Qed.

(** What a failed build raises: [SystemExit(1)] from [die], or the
    [OSError] of a shell that could not be started. *)
Lemma build_module_raises (w : world) (flag : string) (quiet : bool) (h : list event) (e : exn) :
  snd (build_module w flag quiet h) = Raised e -> e = SystemExit 1 \/ e = OSError.
Proof.
  intros H. pose proof (fails_fast_build_module w flag quiet h) as F.
  pose proof (rofo_build_module w flag quiet h e H) as X.
  rewrite H in F. inversion F as [tr o Hc E1 E2 | pre ev Hc Hf E1 E2].
  - exfalso. apply Exists_exists in X as [ev [Hin Hf]].
    rewrite Forall_forall in Hc. specialize (Hc ev Hin). unfold calm in Hc. congruence.
  - destruct ev as [| | | |cmd cwd q [proc|]| | | | | |]; simpl; auto.
Qed.

(** ** The main thread, phase by phase *)

Lemma emits_clean_step (w : world) (env : environ) (cxxflags : string) :
  emits cleaning (clean_step w env cxxflags).
Proof.
  assert (forall flags, emits cleaning (clean_by_flags w flags)) as Hsel.
  { intros flags. unfold clean_by_flags. apply emits_bind; [now apply emits_print|].
    intros _. apply emits_for_each. intros f.
    apply emits_execute_in_dir; simpl; auto. }
  unfold clean_step. destruct (env "CLEAN_BUILD") as [cb|]; [|now apply emits_print].
  destruct (PyStr.truthy cb); [|now apply emits_print].
  destruct (cb =? "FULL"); [|destruct (cb =? "CLEAN"); apply Hsel].
  unfold full_clean. apply emits_bind; [now apply emits_print|].
  intros _. apply emits_bind; [intros h; repeat constructor|].
  intros ds. apply emits_bind.
  - apply emits_for_each. intros d. apply emits_execute_in_dir; simpl; auto.
  - intros _. apply emits_execute_in_dir; simpl; auto.
Qed.

Lemma emits_parallel_builds (P : event -> Prop) (sys : system)
  (sequential parallel : list string) (jobs : Z) (quiet : bool) :
  (forall s, P (Print s)) -> (forall s, P (PrintErr s)) ->
  (forall i f, In f parallel -> P (Submit i f quiet)) ->
  (forall i o, P (FutureResult i o)) -> P PoolShutdown ->
  emits P (parallel_builds sys sequential parallel jobs quiet).
Proof.
  intros Hp He Hs Hr Hd. unfold parallel_builds. apply emits_when.
  destruct (jobs <? 0)%Z; [apply emits_raise|].
  apply emits_with_pool; [|assumption]. apply emits_bind.
  - unfold enumerate.
    assert (forall l, (forall x, In x l -> In (snd x) parallel) ->
            emits P (for_each l (fun fut => emit (Submit (fst fut) (snd fut) quiet)))) as G.
    { induction l as [|x l IH]; intros Hl; simpl; [apply emits_ret|].
      apply emits_bind.
      - apply emits_emit, Hs, Hl. now left.
      - intros _. apply IH. intros y Hy. apply Hl. now right. }
    apply G. intros [i f] Hin. apply in_combine_r in Hin. exact Hin.
  - intros _. apply emits_try.
    + apply emits_for_each. intros fut h. simpl. auto.
    + apply emits_bind; [apply emits_when; now apply emits_print|].
      intros _. now apply emits_die.
Qed.

Lemma emits_build_phase (P : event -> Prop) (sys : system) (env : environ)
  (cxxflags : string) (flags : list string) :
  (forall s, P (Print s)) -> (forall s, P (PrintErr s)) ->
  (forall q, P (ThreadStart (filter should_build_sequentially flags) q)) ->
  (forall i f q, In f (filter (fun f => negb (should_build_sequentially f)) flags) ->
                 P (Submit i f q)) ->
  (forall i o, P (FutureResult i o)) -> P PoolShutdown -> P ThreadJoin ->
  (forall r, P (Subprocess "make" None false r)) ->
  emits P (build_phase sys env cxxflags flags).
Proof.
  intros Hp He Ht Hs Hr Hd Hj Hm. unfold build_phase.
  apply emits_bind; [apply emits_int_of|]. intros jobs.
  apply emits_bind; [destruct (jobs =? 1)%Z; now apply emits_print|]. intros _.
  apply emits_bind; [apply emits_when, emits_emit, Ht|]. intros _.
  apply emits_bind; [apply emits_parallel_builds; auto|]. intros _.
  apply emits_bind; [apply emits_when, emits_emit, Hj|]. intros _.
  apply emits_bind; [now apply emits_print|]. intros _.
  apply emits_bind; [apply emits_int_of|]. intros only.
  apply emits_bind; [|intros _; now apply emits_print].
  apply emits_when. apply emits_bind; [now apply emits_print|]. intros _.
  apply emits_bind; [now apply emits_run | intros; apply emits_ret].
Qed.

Lemma fails_fast_build_phase (sys : system) (env : environ) (cxxflags : string)
  (flags : list string) : fails_fast (build_phase sys env cxxflags flags).
Proof.
  unfold build_phase.
  apply fails_fast_bind; [apply fails_fast_emits, emits_int_of|]. intros jobs.
  apply fails_fast_bind; [destruct (jobs =? 1)%Z; apply fails_fast_print|]. intros _.
  apply fails_fast_bind; [apply fails_fast_emits, emits_when, emits_emit; reflexivity|].
  intros _. apply fails_fast_bind.
  { apply fails_fast_emits, emits_parallel_builds; reflexivity. }
  intros _.
  apply fails_fast_bind; [apply fails_fast_emits, emits_when, emits_emit; reflexivity|].
  intros _. apply fails_fast_bind; [apply fails_fast_print|]. intros _.
  apply fails_fast_bind; [apply fails_fast_emits, emits_int_of|]. intros only.
  apply fails_fast_bind; [|intros _; apply fails_fast_print].
  apply fails_fast_when. apply fails_fast_bind; [apply fails_fast_print|]. intros _.
  apply fails_fast_bind; [apply fails_fast_run | intros; apply fails_fast_ret].
Qed.

Lemma fails_fast_main (sys : system) (env : environ) : fails_fast (main sys env).
Proof.
  unfold main. apply fails_fast_bind.
  { destruct (negb _); [apply fails_fast_die | apply fails_fast_ret]. }
  intros _. apply fails_fast_bind; [apply fails_fast_print|]. intros _.
  apply fails_fast_bind; [apply fails_fast_run|]. intros _.
  apply fails_fast_bind; [apply fails_fast_clean_step|]. intros _.
  destruct (negb _); [apply fails_fast_print | apply fails_fast_build_phase].
Qed.

Lemma bind_inv {A B : Type} (m : M A) (k : A -> M B) (h tr : list event) (o : outcome B) :
  bind m k h = (tr, o) ->
  (exists e, m h = (tr, Raised e) /\ o = Raised e)
  \/ (exists a t1 t2, m h = (t1, Returned a) /\ k a (h ++ t1)%list = (t2, o)
                       /\ tr = (t1 ++ t2)%list).
Proof.
  unfold bind. destruct (m h) as [es [a|e]].
  - destruct (k a (h ++ es)%list) as [es' o'] eqn:K. intros E. injection E as <- <-.
    right. exists a, es, es'. auto.
  - intros E. injection E as <- <-. left. exists e. auto.
Qed.

Lemma emits_at {A : Type} (P : event -> Prop) (m : M A) (h tr : list event) (o : outcome A) :
  emits P m -> m h = (tr, o) -> Forall P tr.
Proof. intros E H. specialize (E h). now rewrite H in E. Qed.

(** Either [main] never leaves the clean phase, or its trace is a clean
    phase that went well, followed by the build phase. *)
Lemma main_cases (sys : system) (env : environ) :
  let cxx := environ_get env "CXXFLAGS" EmptyString in
  (Forall cleaning (fst (main sys env []))
   /\ (get_flags cxx = [] \/ exists e, snd (main sys env []) = Raised e))
  \/ (get_flags cxx <> []
      /\ exists tc h, Forall cleaning tc
         /\ main sys env [] =
            ((tc ++ fst (build_phase sys env cxx (get_flags cxx) h))%list,
             snd (build_phase sys env cxx (get_flags cxx) h))).
Proof.
  intros cxx.
  assert (emits cleaning
            (if negb (PyStr.truthy cxx) then @die unit cxxflags_missing else ret tt)) as E1.
  { destruct (negb _); [now apply emits_die | apply emits_ret]. }
  assert (emits cleaning (print "Cleaning previous builds...")) as E2
    by now apply emits_print.
  assert (emits cleaning (run (view sys MainThread) "make clean" None false)) as E3
    by (apply emits_run; simpl; auto).
  pose proof (emits_clean_step (view sys MainThread) env cxx) as E4.
  destruct (main sys env []) as [tr o] eqn:Hm. cbn [fst snd].
  unfold main in Hm. cbv zeta in Hm. fold cxx in Hm.
  apply bind_inv in Hm as [[e [H1 ->]] | [a1 [t1 [r1 [H1 [Hm ->]]]]]].
  { left. split; [exact (emits_at _ _ _ _ _ E1 H1) | right; eauto]. }
  apply (emits_at _ _ _ _ _ E1) in H1.
  apply bind_inv in Hm as [[e [H2 ->]] | [a2 [t2 [r2 [H2 [Hm ->]]]]]].
  { left. split; [apply Forall_app; split; [|exact (emits_at _ _ _ _ _ E2 H2)] | right; eauto].
    assumption. }
  apply (emits_at _ _ _ _ _ E2) in H2.
  apply bind_inv in Hm as [[e [H3 ->]] | [a3 [t3 [r3 [H3 [Hm ->]]]]]].
  { left. split; [|right; eauto].
    repeat (apply Forall_app; split); auto. exact (emits_at _ _ _ _ _ E3 H3). }
  apply (emits_at _ _ _ _ _ E3) in H3.
  apply bind_inv in Hm as [[e [H4 ->]] | [a4 [t4 [r4 [H4 [Hm ->]]]]]].
  { left. split; [|right; eauto].
    repeat (apply Forall_app; split); auto. exact (emits_at _ _ _ _ _ E4 H4). }
  apply (emits_at _ _ _ _ _ E4) in H4.
  destruct (get_flags cxx) as [|f fs] eqn:F; cbn [non_empty negb] in Hm.
  - left. split; [|left; reflexivity].
    repeat (apply Forall_app; split); auto.
    injection Hm as <- _. repeat constructor.
  - right. split; [discriminate|].
    exists (t1 ++ t2 ++ t3 ++ t4)%list. eexists. split.
    + repeat (apply Forall_app; split); auto.
    + rewrite Hm. cbn [fst snd]. rewrite <- !app_assoc. reflexivity.
Qed.

(** ** The flag parser *)

Example get_flags_two : get_flags "-DLDK -DLND" = ["LDK"; "LND"].
Proof. reflexivity. Qed.

Example get_flags_mixed :
  get_flags "-O2 -DFOO=1 -Dbar -DBaz --D-DX_1" = ["FOO"; "B"; "X_1"].
Proof. reflexivity. Qed.

Lemma get_flags_no_dash (t : string) :
  PyStr.all_chars (fun c => negb (Ascii.eqb c "-")) t = true -> get_flags t = [].
Proof.
  unfold PyStr.all_chars. induction t as [|a t IH]; [reflexivity|].
  simpl. intros H. apply andb_true_iff in H as [Ha Ht].
  rewrite get_flags_step. unfold match_at.
  apply negb_true_iff in Ha. destruct t as [|b u]; [reflexivity|].
  rewrite Ha. simpl. now apply IH.
Qed.

Lemma get_flags_tokens (ids : list string) :
  Forall (fun g => valid_ident g = true) ids ->
  get_flags (PyStr.join " " (map (append "-D") ids)) = ids.
Proof.
  intros H. rewrite get_flags_join, map_map.
  induction H as [|id ids Hid _ IH]; [reflexivity|].
  cbn [map List.concat]. rewrite get_flags_token by assumption. simpl. now f_equal.
Qed.

(** C3, as stated, fails: the parser does not collapse duplicates.  On
    ["-DLDK -DLND -DLDK"] the result is not [[LDK; LND]] and holds [LDK]
    twice. *)
Lemma get_flags_keeps_duplicates :
  get_flags "-DLDK -DLND -DLDK" <> ["LDK"; "LND"]
  /\ ~ NoDup (get_flags "-DLDK -DLND -DLDK").
Proof.
  split.
  - discriminate.
  - intros H. change (NoDup ["LDK"; "LND"; "LDK"]) in H.
    inversion H as [|x l Hn _]. apply Hn. right. now left.
Qed.

(** *** The tokens of a text *)

Lemma span_ident_exact (id post : string) :
  PyStr.all_chars ident_char id = true -> boundary post = true ->
  span_ident (id ++ post) = (id, post).
Proof.
  unfold PyStr.all_chars. induction id as [|c t IH]; cbn [append list_ascii_of_string forallb].
  - intros _ B. destruct post as [|c u]; [reflexivity|].
    cbn [boundary] in B. apply negb_true_iff in B. cbn [span_ident]. now rewrite B.
  - intros H B. apply andb_true_iff in H as [Hc Ht]. cbn [span_ident].
    now rewrite Hc, IH.
Qed.

Lemma token_at_zero (s id : string) :
  token_at s 0 id <-> exists r : string, match_at s = Some (id, r).
Proof.
  split.
  - intros [pre [post [E [L [V B]]]]].
    destruct pre; [|discriminate L]. cbn [append] in E. subst s. exists post.
    unfold valid_ident in V. apply andb_true_iff in V as [Hne Hall].
    cbn [match_at Ascii.eqb]. simpl. rewrite span_ident_exact by assumption.
    destruct id; [discriminate Hne | reflexivity].
  - intros [r E]. pose proof (match_at_valid _ _ _ E) as V.
    apply match_at_text in E as [Es Er]. exists EmptyString, r.
    split; [exact Es|]. split; [reflexivity|]. split; [exact V|].
    destruct r; [reflexivity|]. cbn [boundary]. now rewrite Er.
Qed.

Lemma token_at_succ (c : ascii) (t : string) (n : nat) (id : string) :
  token_at (String c t) (S n) id <-> token_at t n id.
Proof.
  split.
  - intros [pre [post [E [L [V B]]]]].
    destruct pre as [|c' pre]; [discriminate L|]. cbn [append] in E.
    injection E as -> ->. injection L as L. now exists pre, post.
  - intros [pre [post [E [L [V B]]]]]. exists (String c pre), post.
    split; [now rewrite E|]. split; [cbn; now rewrite L | auto].
Qed.

Lemma token_at_empty (n : nat) (id : string) : ~ token_at EmptyString n id.
Proof. intros [pre [post [E _]]]. destruct pre; discriminate E. Qed.

(** No token starts inside a run of characters other than [-]. *)
Lemma token_at_skip (w r : string) (n : nat) (id : string) :
  PyStr.all_chars (fun c => negb (Ascii.eqb c "-")) w = true ->
  token_at (w ++ r) n id <-> exists m : nat, n = String.length w + m /\ token_at r m id.
Proof.
  unfold PyStr.all_chars. revert n.
  induction w as [|c w IH]; intros n; cbn [append list_ascii_of_string forallb String.length].
  - intros _. split; [intros H; now exists n | intros [m [-> H]]; exact H].
  - intros H. apply andb_true_iff in H as [Hc Hw]. apply negb_true_iff in Hc.
    destruct n as [|n].
    + split.
      * intros T. apply token_at_zero in T as [r' E]. exfalso.
        unfold match_at in E. rewrite Hc in E. destruct (w ++ r); discriminate E.
      * intros [m [E _]]. discriminate E.
    + rewrite token_at_succ, (IH n Hw). split.
      * intros [m [-> T]]. now exists m.
      * intros [m [E T]]. injection E as ->. now exists m.
Qed.

Lemma ident_char_not_dash (c : ascii) : ident_char c = true -> Ascii.eqb c "-" = false.
Proof.
  intros H. destruct (Ascii.eqb_spec c "-") as [->|]; [discriminate H | reflexivity].
Qed.

Lemma ident_no_dash (g : string) :
  PyStr.all_chars ident_char g = true ->
  PyStr.all_chars (fun c => negb (Ascii.eqb c "-")) g = true.
Proof.
  unfold PyStr.all_chars. induction g as [|c g IH]; [reflexivity|].
  cbn [list_ascii_of_string forallb]. intros H. apply andb_true_iff in H as [Hc Hg].
  now rewrite (ident_char_not_dash c Hc), IH.
Qed.

(** The tokens of a text that begins with a match: the one at offset 0,
    and those of the text after it. *)
Lemma token_at_match (s g r : string) (n : nat) (id : string) :
  match_at s = Some (g, r) ->
  token_at s n id
  <-> (n = 0 /\ id = g)
      \/ exists m : nat, n = 2 + String.length g + m /\ token_at r m id.
Proof.
  intros E. pose proof (match_at_valid _ _ _ E) as V.
  pose proof (match_at_text _ _ _ E) as [Es _].
  destruct n as [|n].
  - rewrite token_at_zero. split.
    + intros [r' E']. left. split; [reflexivity | congruence].
    + intros [[_ ->] | [m [X _]]]; [now exists r | discriminate X].
  - unfold valid_ident in V. apply andb_true_iff in V as [_ Hall].
    rewrite Es. cbn [append]. rewrite token_at_succ.
    change (String "D" (g ++ r)) with (String "D" g ++ r).
    rewrite token_at_skip
      by (unfold PyStr.all_chars; cbn [list_ascii_of_string forallb];
          apply (ident_no_dash g Hall)).
    cbn [String.length]. split.
    + intros [m [-> T]]. right. now exists m.
    + intros [[X _] | [m [X T]]]; [discriminate X|]. exists m. split; [lia | exact T].
Qed.

Lemma token_at_no_match (c : ascii) (t : string) (n : nat) (id : string) :
  match_at (String c t) = None ->
  token_at (String c t) n id <-> exists m : nat, n = 1 + m /\ token_at t m id.
Proof.
  intros E. destruct n as [|n].
  - rewrite token_at_zero. split.
    + intros [r E']. congruence.
    + intros [m [X _]]. discriminate X.
  - rewrite token_at_succ. split.
    + intros T. now exists n.
    + intros [m [X T]]. injection X as ->. exact T.
Qed.

(** Offsets moved [k] characters to the right. *)
Lemma shifted_tokens (k : nat) (occ : list (nat * string)) :
  StronglySorted lt (map fst occ) ->
  map snd (map (fun p => (k + fst p, snd p)) occ) = map snd occ
  /\ StronglySorted lt (map fst (map (fun p => (k + fst p, snd p)) occ))
  /\ Forall (fun n => k <= n) (map fst (map (fun p => (k + fst p, snd p)) occ))
  /\ (forall n id, In (n, id) (map (fun p => (k + fst p, snd p)) occ)
                   <-> exists m, n = k + m /\ In (m, id) occ).
Proof.
  intros S. split; [|split; [|split]].
  - rewrite map_map. reflexivity.
  - rewrite map_map. cbn [fst]. induction occ as [|[a x] occ IH]; [constructor|].
    cbn [map fst] in *. apply StronglySorted_inv in S as [S F].
    constructor; [now apply IH|].
    rewrite Forall_map in *. revert F. apply Forall_impl. intros [b y]. cbn [fst]. lia.
  - rewrite map_map, Forall_map. cbn [fst]. apply Forall_forall. intros; lia.
  - intros n id. rewrite in_map_iff. split.
    + intros [[m y] [E Hin]]. cbn [fst snd] in E. injection E as <- <-. now exists m.
    + intros [m [-> Hin]]. now exists (m, id).
Qed.

(** The parser returns the tokens of the text, from left to right. *)
Lemma get_flags_tokens_sorted (n : nat) (s : string) :
  String.length s <= n ->
  exists occ : list (nat * string),
    get_flags s = map snd occ
    /\ StronglySorted lt (map fst occ)
    /\ forall k id, In (k, id) occ <-> token_at s k id.
Proof.
  revert s. induction n as [|n IH]; intros s H.
  - destruct s; [|simpl in H; lia]. exists []. split; [reflexivity|].
    split; [constructor|]. intros k id. split; [intros [] | intros T].
    exact (token_at_empty _ _ T).
  - rewrite get_flags_step. destruct (match_at s) as [[g r]|] eqn:E.
    + pose proof (match_at_shorter _ _ _ E) as L.
      destruct (IH r ltac:(lia)) as [occ [Eo [So Io]]].
      destruct (shifted_tokens (2 + String.length g) occ So) as [M1 [M2 [M3 M4]]].
      exists ((0, g) :: map (fun p => (2 + String.length g + fst p, snd p)) occ).
      split; [cbn [map snd]; now rewrite M1, Eo|].
      split.
      * cbn [map fst]. constructor; [exact M2|].
        revert M3. apply Forall_impl. intros a. lia.
      * intros k id. rewrite (token_at_match s g r k id E). cbn [In]. rewrite M4.
        split.
        -- intros [X | [m [-> Hin]]].
           ++ injection X as <- <-. now left.
           ++ right. exists m. split; [reflexivity | now apply Io].
        -- intros [[-> ->] | [m [-> T]]]; [now left|].
           right. exists m. split; [reflexivity | now apply Io].
    + destruct s as [|c t].
      * exists []. split; [reflexivity|]. split; [constructor|].
        intros k id. split; [intros [] | intros T]. exact (token_at_empty _ _ T).
      * destruct (IH t ltac:(simpl in H; lia)) as [occ [Eo [So Io]]].
        destruct (shifted_tokens 1 occ So) as [M1 [M2 [M3 M4]]].
        exists (map (fun p => (1 + fst p, snd p)) occ).
        split; [now rewrite M1|]. split; [exact M2|].
        intros k id. rewrite (token_at_no_match c t k id E), M4.
        split; intros [m [-> X]]; exists m; (split; [reflexivity | now apply Io]).
Qed.

(** C3, amended: for every configuration string the flag parser returns
    the identifier of every matching token [-D<IDENTIFIER>], in order of
    appearance and once per occurrence (duplicates are kept), and nothing
    else.  The identifiers returned are those of the tokens of the text,
    one for each offset at which a token stands, from left to right;
    whatever is not part of a token (as [-O2], or the [=1] of [-DFOO=1])
    adds nothing.  In particular the parser goes through the words of a
    text one by one, a word [-D<IDENTIFIER>] yields its identifier, a word
    without [-] yields nothing, and the input ["-DLDK -DLND -DLDK"] yields
    [[LDK; LND; LDK]]. *)
Theorem get_flags_in_order_of_appearance :
  (forall text : string,
      exists occ : list (nat * string),
        get_flags text = map snd occ
        /\ StronglySorted lt (map fst occ)
        /\ forall (n : nat) (id : string), In (n, id) occ <-> token_at text n id)
  /\ (forall toks : list string,
        get_flags (PyStr.join " " toks) = List.concat (map get_flags toks))
  /\ (forall id : string, valid_ident id = true -> get_flags ("-D" ++ id) = [id])
  /\ (forall t : string,
        PyStr.all_chars (fun c => negb (Ascii.eqb c "-")) t = true -> get_flags t = [])
  /\ (forall ids : list string,
        Forall (fun g => valid_ident g = true) ids ->
        get_flags (PyStr.join " " (map (append "-D") ids)) = ids)
  /\ (forall s : string, Forall (fun g => valid_ident g = true) (get_flags s))
  /\ get_flags "-DLDK -DLND -DLDK" = ["LDK"; "LND"; "LDK"].
Proof.
  split; [intros text; now apply (get_flags_tokens_sorted (String.length text))|].
  split; [exact get_flags_join|].
  split; [exact get_flags_token|].
  split; [exact get_flags_no_dash|].
  split; [exact get_flags_tokens|].
  split; [exact get_flags_valid | reflexivity].
Qed.

Lemma get_flags_in_order_of_appearance_witness :
  get_flags ("-D" ++ "LDK") = ["LDK"]
  /\ get_flags "O2" = []
  /\ get_flags (PyStr.join " " (map (append "-D") ["LND"; "LND"])) = ["LND"; "LND"].
Proof.
  destruct get_flags_in_order_of_appearance as [_ [_ [Htok [Hno [Hids _]]]]].
  split; [apply Htok; reflexivity|].
  split; [apply Hno; reflexivity|].
  apply Hids. repeat constructor.
Defined.

(** ** The scheduler's partition *)

Example partition_sample :
  filter should_build_sequentially ["LDK"; "SECP256K1"; "CUSTOM_MUTATOR_X"; "LND"; "BITCOINJ"]
  = ["SECP256K1"; "CUSTOM_MUTATOR_X"; "BITCOINJ"].
Proof. reflexivity. Qed.

Lemma placed_cleaning (flags : list string) (tr : list event) :
  Forall cleaning tr -> Forall (placed flags) tr.
Proof.
  apply Forall_impl. intros ev. destruct ev; simpl; tauto.
Qed.

Lemma main_placed (sys : system) (env : environ) :
  Forall (placed (get_flags (environ_get env "CXXFLAGS" EmptyString)))
         (fst (main sys env [])).
Proof.
  destruct (main_cases sys env) as [[Hc _] | [_ [tc [h [Hc E]]]]].
  - now apply placed_cleaning.
  - rewrite E. cbn [fst]. apply Forall_app. split; [now apply placed_cleaning|].
    apply emits_build_phase; simpl; auto.
Qed.

(** ** The module resolver *)

Example get_module_dir_default : get_module_dir "RUST_BITCOIN" = "modules/rustbitcoin".
Proof. reflexivity. Qed.

Example get_module_dir_custom : get_module_dir "CUSTOM_MUTATOR_FOO" = "custommutator".
Proof. reflexivity. Qed.





(** ** Building one module *)



Ltac crunch :=
  repeat (cbn;
          match goal with
          | |- context [path_is_dir ?w ?h ?d] => destruct (path_is_dir w h d) eqn:?
          | |- context [subprocess_run ?w ?h ?c ?d ?q] =>
              destruct (subprocess_run w h c d q) as [?proc|] eqn:?
          | |- context [(returncode ?p =? 0)%Z] => destruct (returncode p =? 0)%Z eqn:?
          end).

Lemma execute_in_dir_commands (w : world) (d cmd : string) (quiet : bool) (h : list event) :
  (In (IsDir d true) (fst (execute_in_dir w d cmd quiet h)) ->
   commands (fst (execute_in_dir w d cmd quiet h)) = [(cmd, Some d)])
  /\ (In (IsDir d false) (fst (execute_in_dir w d cmd quiet h)) ->
      commands (fst (execute_in_dir w d cmd quiet h)) = []).
Proof.
  unfold execute_in_dir, run, bind, when, is_dir, subprocess, print, emit, die, ret, raise.
  destruct quiet; crunch; cbn;
    (split; intros H; try reflexivity;
     repeat (destruct H as [H|H]; try discriminate H); try contradiction).
Qed.

Lemma build_module_shape (w : world) (flag : string) (quiet : bool) (h : list event) :
  exists (before after h' : list event),
    fst (build_module w flag quiet h) =
    (before
       ++ fst (execute_in_dir w (get_module_dir flag)
                 (if needs_rust_nightly flag then pinned_command else "make") quiet h')
       ++ after)%list
    /\ Forall message before /\ Forall message after.
Proof.
  unfold build_module. cbv zeta. rewrite bind_run.
  set (pre := when (negb quiet) _ h).
  assert (Forall message (fst pre) /\ snd pre = Returned tt) as [Hpre ->].
  { subst pre. destruct quiet; simpl; repeat constructor. }
  cbn [fst snd]. rewrite bind_run. exists (fst pre).
  replace (if needs_rust_nightly flag
           then execute_in_dir w (get_module_dir flag)
                  "rustup default nightly && make cargo && make" quiet
           else execute_in_dir w (get_module_dir flag) "make" quiet)
    with (execute_in_dir w (get_module_dir flag)
            (if needs_rust_nightly flag then pinned_command else "make") quiet)
    by (destruct (needs_rust_nightly flag); reflexivity).
  destruct (snd (execute_in_dir w _ _ quiet _)); cbn [fst snd].
  - eexists. eexists. split; [reflexivity|]. split; [assumption|].
    destruct quiet; simpl; repeat constructor.
  - exists []. eexists. rewrite app_nil_r. split; [reflexivity|]. split; [assumption|constructor].
Qed.







(** ** Failing clean steps *)

Lemma aftermath_calm (ev : event) : Forall calm (fst (aftermath ev)).
Proof.
  destruct ev as [| | | |cmd cwd q [proc|]| | | | | |]; simpl; repeat constructor.
  destruct q; repeat constructor.
Qed.

(** A failing event between two calm stretches is found at one place only. *)
Lemma first_failure_unique (pre pre' post post' : list event) (ev ev' : event) :
  (pre ++ ev :: post = pre' ++ ev' :: post')%list ->
  Forall calm pre' -> Forall calm post' -> failing ev = true -> failing ev' = true ->
  pre = pre' /\ ev = ev' /\ post = post'.
Proof.
  revert pre. induction pre' as [|y pre' IH]; intros pre E Hpre Hpost Hev Hev'.
  - destruct pre as [|x pre]; simpl in E.
    + injection E as -> ->. auto.
    + injection E as -> E. exfalso. rewrite Forall_forall in Hpost.
      assert (In ev post') as Hin by (rewrite <- E; apply in_elt).
      specialize (Hpost ev Hin). unfold calm in Hpost. congruence.
  - destruct pre as [|x pre]; simpl in E.
    + injection E as -> E. exfalso. apply Forall_inv in Hpre. unfold calm in Hpre. congruence.
    + injection E as -> E. apply Forall_inv_tail in Hpre.
      destruct (IH pre E Hpre Hpost Hev Hev') as [-> [-> ->]]. auto.
Qed.

Lemma app_eq_split (tc tb pre post : list event) (ev : event) :
  (tc ++ tb = pre ++ ev :: post)%list -> ~ In ev tb ->
  exists rest, tc = (pre ++ ev :: rest)%list.
Proof.
  revert pre. induction tc as [|x tc IH]; intros pre E Hn.
  - exfalso. apply Hn. simpl in E. rewrite E. apply in_elt.
  - destruct pre as [|y pre]; simpl in E.
    + injection E as -> E. now exists tc.
    + injection E as -> E. destruct (IH pre E Hn) as [rest ->]. now exists rest.
Qed.

Lemma cleaning_no_threads (tr : list event) :
  Forall cleaning tr -> started tr = None /\ submitted tr = [].
Proof.
  induction 1 as [|ev tr Hev _ [IH1 IH2]]; [split; reflexivity|].
  destruct ev; simpl in *; try contradiction; auto.
Qed.

Lemma clean_failure_failing (ev : event) (msg : string) :
  clean_failure ev msg ->
  failing ev = true /\ cleaning ev /\ ~ building ev
  /\ aftermath ev = ([PrintErr ("Error: " ++ msg)], SystemExit 1).
Proof.
  intros [d | cwd proc Hrc]; simpl.
  - repeat split; auto.
  - repeat split; auto.
    + apply negb_true_iff. now apply Z.eqb_neq.
    + intros [H _]. discriminate H.
Qed.

Lemma main_clean_failure (sys : system) (env : environ) (pre post : list event)
  (ev : event) (msg : string) :
  fst (main sys env []) = (pre ++ ev :: post)%list -> clean_failure ev msg ->
  post = [PrintErr ("Error: " ++ msg)]
  /\ snd (main sys env []) = Raised (SystemExit 1)
  /\ Forall cleaning (fst (main sys env [])).
Proof.
  intros E Hcf. destruct (clean_failure_failing ev msg Hcf) as [Hf [Hc [Hnb Ha]]].
  pose proof (fails_fast_main sys env []) as F.
  inversion F as [tr o Hcalm E1 E2 | pre' ev' Hcalm Hf' E1 E2].
  { exfalso. rewrite E in Hcalm. apply Forall_elt in Hcalm. unfold calm in Hcalm. congruence. }
  rewrite E in E1. symmetry in E1.
  destruct (first_failure_unique _ _ _ _ _ _ E1 Hcalm (aftermath_calm ev') Hf Hf')
    as [-> [-> ->]].
  rewrite Ha. cbn [fst snd]. split; [reflexivity|]. split; [reflexivity|].
  assert (Forall cleaning pre') as Hpre.
  { destruct (main_cases sys env) as [[Hall _] | [_ [tc [h [Htc Em]]]]].
    - rewrite E in Hall. apply Forall_app in Hall. tauto.
    - rewrite Em in E. cbn [fst] in E.
      assert (~ In ev' (fst (build_phase sys env (environ_get env "CXXFLAGS" EmptyString)
                               (get_flags (environ_get env "CXXFLAGS" EmptyString)) h))) as Hn.
      { intros Hin. apply Hnb.
        assert (emits building (build_phase sys env (environ_get env "CXXFLAGS" EmptyString)
                                  (get_flags (environ_get env "CXXFLAGS" EmptyString)))) as Hb
          by (apply emits_build_phase; simpl; auto).
        specialize (Hb h). rewrite Forall_forall in Hb. now apply Hb. }
      destruct (app_eq_split _ _ _ _ _ E Hn) as [rest ->].
      apply Forall_app in Htc. tauto. }
  apply Forall_app. split; [assumption|].
  constructor; [assumption|]. repeat constructor.
Qed.

(** C8: in full clean and in selective clean alike, the first failing
    clean step ends the whole run at once: what follows the failing step
    in the main thread is its report and nothing else, the process exits
    with status 1, and no module is cleaned or built afterwards.  A
    missing directory and a failed clean command are told apart by their
    reports. *)
Theorem clean_failure_is_fatal :
  (forall w : world, fails_fast (full_clean w) /\ raises_on_failure_only (full_clean w))
  /\ (forall (w : world) (flags : list string),
        fails_fast (clean_by_flags w flags) /\ raises_on_failure_only (clean_by_flags w flags))
  /\ (forall (sys : system) (env : environ) (pre post : list event) (ev : event) (msg : string),
        main_trace (auto_build sys env) = (pre ++ ev :: post)%list ->
        clean_failure ev msg ->
        post = [PrintErr ("Error: " ++ msg)]
        /\ main_outcome (auto_build sys env) = Raised (SystemExit 1)
        /\ exit_status (auto_build sys env) = 1%Z
        /\ Forall cleaning (main_trace (auto_build sys env))
        /\ sequential_thread (auto_build sys env) = None
        /\ pool_futures (auto_build sys env) = [])
  /\ (forall d : string, "Directory " ++ d ++ " does not exist" <> "Command failed: make clean").
Proof.
  split; [intros w; split; [apply fails_fast_full_clean | apply rofo_full_clean]|].
  split; [intros w flags; split; [apply fails_fast_clean_by_flags | apply rofo_clean_by_flags]|].
  split; [|intros d; discriminate].
  intros sys env pre post ev msg E Hcf. unfold auto_build in *. cbn [main_trace] in E.
  cbn [main_trace main_outcome exit_status sequential_thread pool_futures].
  destruct (main_clean_failure sys env pre post ev msg E Hcf) as [Hpost [Ho Hall]].
  destruct (cleaning_no_threads _ Hall) as [Hs Hp].
  rewrite Ho, Hs, Hp. repeat split; auto.
Qed.

Lemma clean_failure_is_fatal_witness :
  exit_status (auto_build (same_for_all (missing "modules/b" ["modules/a"; "modules/b"]))
                          (env_of [("CXXFLAGS", "-DLDK"); ("CLEAN_BUILD", "FULL")])) = 1%Z
  /\ exit_status (auto_build (same_for_all (failing_in "modules/lnd" []))
                             (env_of [("CXXFLAGS", "-DLDK -DLND"); ("CLEAN_BUILD", "CLEAN")]))
     = 1%Z.
Proof.
  destruct clean_failure_is_fatal as [_ [_ [H _]]]. split.
  - refine (proj1 (proj2 (proj2
      (H _ _
         [Print "Cleaning previous builds..."; Print "make clean";
          Subprocess "make clean" None false (Completed proc_ok);
          Print "Performing full clean..."; Glob ["modules/a"; "modules/b"];
          IsDir "modules/a" true; Print "(cd modules/a) make clean";
          Subprocess "make clean" (Some "modules/a") false (Completed proc_ok)]
         [PrintErr "Error: Directory modules/b does not exist"]
         (IsDir "modules/b" false) _ _ (missing_directory "modules/b"))))).
    reflexivity.
  - refine (proj1 (proj2 (proj2
      (H _ _
         [Print "Cleaning previous builds..."; Print "make clean";
          Subprocess "make clean" None false (Completed proc_ok);
          Print "Cleaning modules: LDK LND";
          IsDir "modules/ldk" true; Print "(cd modules/ldk) make clean";
          Subprocess "make clean" (Some "modules/ldk") false (Completed proc_ok);
          IsDir "modules/lnd" true; Print "(cd modules/lnd) make clean"]
         [PrintErr "Error: Command failed: make clean"]
         (Subprocess "make clean" (Some "modules/lnd") false (Completed proc_failed)) _ _
         (failed_command (Some "modules/lnd") proc_failed _))))).
    + reflexivity.
    + discriminate.
Defined.

(** ** The first command, and runs without modules *)

Lemma run_verbose (w : world) (cmd : string) (h : list event) :
  run w cmd None false h =
  let r := subprocess_run w (h ++ [Print cmd]) cmd None false in
  match r with
  | Completed proc =>
      if (returncode proc =? 0)%Z
      then ([Print cmd; Subprocess cmd None false r], Returned proc)
      else ([Print cmd; Subprocess cmd None false r;
             PrintErr ("Error: Command failed: " ++ cmd)], Raised (SystemExit 1))
  | CannotStart => ([Print cmd; Subprocess cmd None false r], Raised OSError)
  end.
Proof.
  unfold run, bind, when, subprocess, print, emit, die, ret, raise. cbn.
  destruct (subprocess_run w (h ++ [Print cmd]) cmd None false) as [proc|]; cbn.
  - destruct (returncode proc =? 0)%Z; reflexivity.
  - reflexivity.
Qed.

Lemma truthy_iff (s : string) : PyStr.truthy s = true <-> s <> EmptyString.
Proof. destruct s; simpl; split; congruence. Qed.

(** C9: whenever CXXFLAGS is set and not empty, the first thing the
    program does is to run [make clean] at the top level: this comes before
    the clean mode is looked at and before any module is built, also when
    CLEAN_BUILD is absent or empty. *)
Theorem top_level_clean_first (sys : system) (env : environ) (cxxflags : string) :
  env "CXXFLAGS" = Some cxxflags -> cxxflags <> EmptyString ->
  exists (r : spawned) (rest : list event),
    main_trace (auto_build sys env)
    = Print "Cleaning previous builds..." :: Print "make clean"
        :: Subprocess "make clean" None false r :: rest
    /\ (forall proc, r = Completed proc -> returncode proc = 0%Z ->
        env "CLEAN_BUILD" = None \/ env "CLEAN_BUILD" = Some EmptyString ->
        exists rest', rest = Print "No CLEAN_BUILD option specified. Skipping clean step." :: rest').
Proof.
  intros Hset Hne. unfold auto_build. cbn [main_trace].
  destruct (main sys env []) as [tr o] eqn:Hm. cbn [fst].
  unfold main in Hm. cbv zeta in Hm. unfold environ_get in Hm at 1. rewrite Hset in Hm.
  apply truthy_iff in Hne. rewrite Hne in Hm. cbn [negb] in Hm.
  apply bind_inv in Hm as [[e [H1 _]] | [a1 [t1 [r1 [H1 [Hm ->]]]]]]; [discriminate H1|].
  injection H1 as <- _.
  apply bind_inv in Hm as [[e [H2 _]] | [a2 [t2 [r2 [H2 [Hm ->]]]]]]; [discriminate H2|].
  injection H2 as <- _. cbn [app] in *.
  exists (subprocess_run (view sys MainThread)
            [Print "Cleaning previous builds..."; Print "make clean"] "make clean" None false).
  apply bind_inv in Hm as [[e [H3 ->]] | [a3 [t3 [r3 [H3 [Hm ->]]]]]];
    rewrite run_verbose in H3; cbv zeta in H3; cbn [app] in H3;
    destruct (subprocess_run (view sys MainThread)
                [Print "Cleaning previous builds..."; Print "make clean"]
                "make clean" None false) as [proc|] eqn:R;
    try destruct (returncode proc =? 0)%Z eqn:Rc; try discriminate H3.
  - injection H3 as <- _. eexists. split; [reflexivity|].
    intros proc' E Hz. injection E as <-. apply Z.eqb_neq in Rc. contradiction.
  - injection H3 as <- _. eexists. split; [reflexivity|]. intros proc' E. discriminate E.
  - injection H3 as <- _. eexists. split; [reflexivity|].
    intros proc' _ _ Hcb.
    apply bind_inv in Hm as [[e [H4 ->]] | [a4 [t4 [r4 [H4 [Hm ->]]]]]];
      unfold clean_step in H4;
      (destruct Hcb as [Hcb|Hcb]; rewrite Hcb in H4; cbn in H4; injection H4 as <- _);
      eexists; reflexivity.
Qed.

Lemma top_level_clean_first_witness :
  exists (r : spawned) (rest : list event),
    main_trace (auto_build (same_for_all (all_fine []))
                           (env_of [("CXXFLAGS", "-DLDK"); ("ONLY_MODULES", "1")]))
    = Print "Cleaning previous builds..." :: Print "make clean"
        :: Subprocess "make clean" None false r :: rest.
Proof.
  destruct (top_level_clean_first (same_for_all (all_fine []))
              (env_of [("CXXFLAGS", "-DLDK"); ("ONLY_MODULES", "1")]) "-DLDK")
    as [r [rest [E _]]].
  - reflexivity.
  - discriminate.
  - exists r, rest. exact E.
Defined.

Lemma calm_not_failing (tr : list event) :
  Forall calm tr -> ~ Exists (fun ev => failing ev = true) tr.
Proof.
  intros Hc Hx. apply Exists_exists in Hx as [ev [Hin Hf]].
  rewrite Forall_forall in Hc. specialize (Hc ev Hin). unfold calm in Hc. congruence.
Qed.

Lemma rofo_at {A : Type} (m : M A) (h tr : list event) (e : exn) :
  raises_on_failure_only m -> m h = (tr, Raised e) -> Forall calm tr -> False.
Proof.
  intros R E Hc. specialize (R h e). rewrite E in R. exact (calm_not_failing tr Hc (R eq_refl)).
Qed.

(** A run whose configuration string holds no identifier: it stays in the
    clean phase, and ends well unless a clean step fails. *)
Lemma no_modules_run (sys : system) (env : environ) (cxxflags : string) :
  env "CXXFLAGS" = Some cxxflags -> cxxflags <> EmptyString -> get_flags cxxflags = [] ->
  Forall cleaning (fst (main sys env []))
  /\ (Forall calm (fst (main sys env [])) ->
      snd (main sys env []) = Returned tt
      /\ exists tr', fst (main sys env []) = (tr' ++ [Print "No modules to build."])%list).
Proof.
  intros Hset Hne Hflags.
  assert (environ_get env "CXXFLAGS" EmptyString = cxxflags) as Hget
    by (unfold environ_get; now rewrite Hset).
  split.
  - destruct (main_cases sys env) as [[Hc _] | [Hn _]]; [assumption|].
    rewrite Hget in Hn. contradiction.
  - destruct (main sys env []) as [tr o] eqn:Hm. cbn [fst snd]. intros Hcalm.
    unfold main in Hm. cbv zeta in Hm. rewrite Hget, Hflags in Hm.
    apply truthy_iff in Hne. rewrite Hne in Hm. cbn [negb non_empty] in Hm.
    apply bind_inv in Hm as [[e [H1 _]] | [a1 [t1 [r1 [H1 [Hm ->]]]]]]; [discriminate H1|].
    injection H1 as <- _.
    apply bind_inv in Hm as [[e [H2 _]] | [a2 [t2 [r2 [H2 [Hm ->]]]]]]; [discriminate H2|].
    injection H2 as <- _.
    apply bind_inv in Hm as [[e [H3 ->]] | [a3 [t3 [r3 [H3 [Hm ->]]]]]].
    { exfalso. apply (rofo_at _ _ _ _ (rofo_run _ _ _ _) H3).
      cbn [app] in Hcalm. now apply Forall_inv_tail in Hcalm. }
    apply bind_inv in Hm as [[e [H4 ->]] | [a4 [t4 [r4 [H4 [Hm ->]]]]]].
    { exfalso. apply (rofo_at _ _ _ _ (rofo_clean_step _ _ _) H4).
      cbn [app] in Hcalm. apply Forall_inv_tail in Hcalm. apply Forall_app in Hcalm. tauto. }
    injection Hm as <- <-. split; [reflexivity|].
    exists (Print "Cleaning previous builds..." :: t3 ++ t4)%list.
    cbn [app]. now rewrite <- app_assoc.
Qed.

Lemma main_ignores_build_variables (sys : system) (env : environ) (cxxflags key : string)
  (v : option string) :
  env "CXXFLAGS" = Some cxxflags -> get_flags cxxflags = [] ->
  String.eqb "CXXFLAGS" key = false -> String.eqb "CLEAN_BUILD" key = false ->
  main sys (setenv env key v) [] = main sys env [].
Proof.
  intros Hset Hflags K1 K2. unfold main, clean_step, environ_get, setenv.
  rewrite K1, K2, Hset, Hflags. reflexivity.
Qed.

(** C10: when CXXFLAGS is not empty but holds no module identifier, no
    module is built and the final [make] at the top level is not run;
    unless a clean step fails, the process prints "No modules to build."
    and exits with status 0.  ONLY_MODULES plays no part. *)
Theorem no_modules_exits_after_clean (sys : system) (env : environ) (cxxflags : string) :
  env "CXXFLAGS" = Some cxxflags -> cxxflags <> EmptyString -> get_flags cxxflags = [] ->
  sequential_thread (auto_build sys env) = None
  /\ pool_futures (auto_build sys env) = []
  /\ (forall cwd q r, ~ In (Subprocess "make" cwd q r) (main_trace (auto_build sys env)))
  /\ (Forall calm (main_trace (auto_build sys env)) ->
      main_outcome (auto_build sys env) = Returned tt
      /\ exit_status (auto_build sys env) = 0%Z
      /\ exists tr', main_trace (auto_build sys env)
                     = (tr' ++ [Print "No modules to build."])%list)
  /\ (forall v : option string,
        auto_build sys (setenv env "ONLY_MODULES" v) = auto_build sys env).
Proof.
  intros Hset Hne Hflags.
  destruct (no_modules_run sys env cxxflags Hset Hne Hflags) as [Hc Hok].
  destruct (cleaning_no_threads _ Hc) as [Hs Hp].
  assert (forall v : option string,
             auto_build sys (setenv env "ONLY_MODULES" v) = auto_build sys env) as Hv.
  { intros v. unfold auto_build.
    rewrite (main_ignores_build_variables sys env cxxflags "ONLY_MODULES" v Hset Hflags
               eq_refl eq_refl).
    reflexivity. }
  split; [|split; [|split; [|split; [|exact Hv]]]];
    unfold auto_build;
    cbn [main_trace main_outcome exit_status sequential_thread pool_futures].
  - now rewrite Hs.
  - now rewrite Hp.
  - intros cwd q r Hin. rewrite Forall_forall in Hc. specialize (Hc _ Hin).
    simpl in Hc. discriminate Hc.
  - intros Hcalm. destruct (Hok Hcalm) as [Ho Ht]. rewrite Ho. auto.
Qed.

Lemma no_modules_exits_after_clean_witness :
  exit_status (auto_build (same_for_all (all_fine []))
                          (env_of [("CXXFLAGS", "-O2 -g"); ("ONLY_MODULES", "0")])) = 0%Z.
Proof.
  apply (no_modules_exits_after_clean (same_for_all (all_fine []))
           (env_of [("CXXFLAGS", "-O2 -g"); ("ONLY_MODULES", "0")]) "-O2 -g").
  - reflexivity.
  - discriminate.
  - reflexivity.
  - repeat constructor.
Defined.

(** C4, as stated, fails: a configuration string that is not empty but
    holds no [-D] token does not end the run with an error.  With
    CXXFLAGS="-O2 -g" and every command succeeding, the exit status is 0. *)
Lemma cxxflags_without_tokens_not_fatal :
  get_flags "-O2 -g" = []
  /\ exit_status (auto_build (same_for_all (all_fine [])) (env_of [("CXXFLAGS", "-O2 -g")]))
     = 0%Z
  /\ main_trace (auto_build (same_for_all (all_fine [])) (env_of [("CXXFLAGS", "-O2 -g")]))
     = [Print "Cleaning previous builds..."; Print "make clean";
        Subprocess "make clean" None false (Completed proc_ok);
        Print "No CLEAN_BUILD option specified. Skipping clean step.";
        Print "No modules to build."].
Proof. repeat split. Qed.

(** C4, amended: the run fails at once, with a message on standard error
    and exit status 1, when CXXFLAGS is absent or empty.  When CXXFLAGS is
    not empty but holds no [-D] token, this is not an error: once the
    clean steps have gone well the program prints "No modules to build."
    and exits with status 0. *)
Theorem missing_cxxflags_is_fatal :
  (forall (sys : system) (env : environ),
      env "CXXFLAGS" = None \/ env "CXXFLAGS" = Some EmptyString ->
      main_trace (auto_build sys env) = [PrintErr ("Error: " ++ cxxflags_missing)]
      /\ main_outcome (auto_build sys env) = Raised (SystemExit 1)
      /\ exit_status (auto_build sys env) = 1%Z)
  /\ (forall (sys : system) (env : environ) (cxxflags : string),
        env "CXXFLAGS" = Some cxxflags -> cxxflags <> EmptyString ->
        get_flags cxxflags = [] ->
        Forall calm (main_trace (auto_build sys env)) ->
        exit_status (auto_build sys env) = 0%Z
        /\ exists tr', main_trace (auto_build sys env)
                       = (tr' ++ [Print "No modules to build."])%list).
Proof.
  split.
  - intros sys env H. unfold auto_build, main, environ_get.
    cbn [main_trace main_outcome exit_status].
    destruct H as [H|H]; rewrite H; repeat split.
  - intros sys env cxxflags Hset Hne Hflags Hcalm.
    destruct (no_modules_run sys env cxxflags Hset Hne Hflags) as [_ Hok].
    unfold auto_build in *. cbn [main_trace exit_status] in *.
    destruct (Hok Hcalm) as [Ho Ht]. rewrite Ho. auto.
Qed.

Lemma missing_cxxflags_is_fatal_witness :
  exit_status (auto_build (same_for_all (all_fine [])) (env_of [("CLEAN_BUILD", "FULL")]))
  = 1%Z
  /\ exit_status (auto_build (same_for_all (all_fine [])) (env_of [("CXXFLAGS", "-Wall")]))
     = 0%Z.
Proof.
  destruct missing_cxxflags_is_fatal as [H1 H2]. split.
  - apply H1. left. reflexivity.
  - apply (H2 _ _ "-Wall"); [reflexivity | discriminate | reflexivity | repeat constructor].
Defined.

(** ** The parallel group *)

Lemma pending_settled (tr : list event) : Forall pending tr -> Forall settled tr.
Proof. apply Forall_impl. intros ev. destruct ev as [| | | | | | |i [u|e]| | |]; simpl; tauto. Qed.

Lemma message_pending (tr : list event) : Forall message tr -> Forall pending tr.
Proof. apply Forall_impl. intros ev. destruct ev; simpl; tauto. Qed.

Lemma cleaning_pending (tr : list event) : Forall cleaning tr -> Forall pending tr.
Proof. apply Forall_impl. intros ev. destruct ev; simpl; tauto. Qed.

Lemma future_result_run (sys : system) (quiet : bool) (i : nat) (f : string) (h : list event) :
  future_result sys quiet (i, f) h
  = ([FutureResult i (snd (future_run sys i f quiet))], snd (future_run sys i f quiet)).
Proof. reflexivity. Qed.

(** Waiting for the results, earliest completion first: either every
    result is a return, or the loop stops at the first failed one. *)
Lemma await_results (sys : system) (quiet : bool) (l : list (nat * string)) (h : list event) :
  (snd (for_each l (future_result sys quiet) h) = Returned tt
   /\ Forall pending (fst (for_each l (future_result sys quiet) h)))
  \/ (exists pre i e,
        fst (for_each l (future_result sys quiet) h)
        = (pre ++ [FutureResult i (Raised e)])%list
        /\ snd (for_each l (future_result sys quiet) h) = Raised e
        /\ Forall pending pre
        /\ (e = SystemExit 1 \/ e = OSError)).
Proof.
  revert h. induction l as [|[i f] l IH]; intros h.
  - left. split; [reflexivity | constructor].
  - cbn [for_each]. rewrite bind_run, !future_result_run. cbn [fst snd].
    destruct (snd (future_run sys i f quiet)) as [[]|e] eqn:O.
    + cbn [fst snd]. destruct (IH (h ++ [FutureResult i (Returned tt)])%list)
        as [[Ho Hp] | [pre [j [e [Ht [Ho [Hp He]]]]]]].
      * left. split; [assumption|]. constructor; [exact I | assumption].
      * right. exists (FutureResult i (Returned tt) :: pre), j, e.
        rewrite Ht. split; [reflexivity|]. split; [assumption|].
        split; [constructor; [exact I | assumption] | assumption].
    + right. exists [], i, e. cbn [fst snd app]. split; [reflexivity|].
      split; [reflexivity|]. split; [constructor|].
      exact (build_module_raises _ _ _ _ _ O).
Qed.

Lemma submit_all (quiet : bool) (l : list (nat * string)) (h : list event) :
  snd (for_each l (fun fut => emit (Submit (fst fut) (snd fut) quiet)) h) = Returned tt
  /\ Forall pending (fst (for_each l (fun fut => emit (Submit (fst fut) (snd fut) quiet)) h)).
Proof.
  revert h. induction l as [|x l IH]; intros h; [split; [reflexivity | constructor]|].
  cbn [for_each]. rewrite bind_run. cbn [emit fst snd].
  destruct (IH (h ++ [Submit (fst x) (snd x) quiet])%list) as [Ho Hp].
  split; [assumption | constructor; [exact I | assumption]].
Qed.

Lemma parallel_builds_cases (sys : system) (sequential parallel : list string) (jobs : Z)
  (quiet : bool) (h : list event) :
  Forall pending (fst (parallel_builds sys sequential parallel jobs quiet h))
  \/ (exists pre i e post,
        fst (parallel_builds sys sequential parallel jobs quiet h)
        = (pre ++ FutureResult i (Raised e) :: post ++ [PoolShutdown])%list
        /\ snd (parallel_builds sys sequential parallel jobs quiet h) = Raised (SystemExit 1)
        /\ Forall pending pre /\ Forall message post).
Proof.
  unfold parallel_builds, when.
  destruct (non_empty parallel); [|left; constructor].
  destruct (jobs <? 0)%Z; [left; constructor|].
  unfold with_pool. rewrite bind_run.
  destruct (submit_all quiet (enumerate parallel) h) as [So Sp]. rewrite So.
  set (subs := fst (for_each (enumerate parallel) _ h)) in *.
  unfold try_except_Exception.
  destruct (await_results sys quiet (as_completed (finish_time sys) (enumerate parallel))
              (h ++ subs)%list) as [[Ho Hp] | [pre [i [e [Ht [Ho [Hp He]]]]]]].
  - left.
    destruct (for_each (as_completed (finish_time sys) (enumerate parallel))
                (future_result sys quiet) (h ++ subs)%list) as [es o].
    cbn [fst snd] in *. subst o. cbn [fst].
    repeat (apply Forall_app; split); auto. repeat constructor.
  - right.
    destruct (for_each (as_completed (finish_time sys) (enumerate parallel))
                (future_result sys quiet) (h ++ subs)%list) as [es o].
    cbn [fst snd] in *. subst es o.
    destruct He as [-> | ->]; cbn [is_Exception].
    + exists (subs ++ pre)%list, i, (SystemExit 1), []. cbn [fst snd app].
      split; [now rewrite <- !app_assoc|]. split; [reflexivity|].
      split; [apply Forall_app; auto | constructor].
    + destruct (non_empty sequential); cbn.
      * exists (subs ++ pre)%list, i, OSError,
          [Print "Parallel build failed, terminating sequential builds";
           PrintErr "Error: One or more module builds failed"].
        split; [now rewrite <- !app_assoc|]. split; [reflexivity|].
        split; [apply Forall_app; auto | repeat constructor].
      * exists (subs ++ pre)%list, i, OSError,
          [PrintErr "Error: One or more module builds failed"].
        split; [now rewrite <- !app_assoc|]. split; [reflexivity|].
        split; [apply Forall_app; auto | repeat constructor].
Qed.

Lemma build_phase_cases (sys : system) (env : environ) (cxxflags : string)
  (flags : list string) (h : list event) :
  Forall settled (fst (build_phase sys env cxxflags flags h))
  \/ (exists pre i e post,
        fst (build_phase sys env cxxflags flags h)
        = (pre ++ FutureResult i (Raised e) :: post ++ [PoolShutdown])%list
        /\ snd (build_phase sys env cxxflags flags h) = Raised (SystemExit 1)
        /\ Forall pending pre /\ Forall message post).
Proof.
  destruct (build_phase sys env cxxflags flags h) as [tr o] eqn:Hb. cbn [fst snd].
  unfold build_phase in Hb. cbv zeta in Hb.
  apply bind_inv in Hb as [[e [H1 ->]] | [jobs [t1 [r1 [H1 [Hb ->]]]]]].
  { left. apply pending_settled. unfold int_of in H1.
    destruct (PyInt.int _); [discriminate H1 | injection H1 as <- _; constructor]. }
  assert (t1 = []) as ->.
  { unfold int_of in H1. destruct (PyInt.int _); [now injection H1 | discriminate H1]. }
  cbn [app].
  apply bind_inv in Hb as [[e [H2 ->]] | [a2 [t2 [r2 [H2 [Hb ->]]]]]].
  { destruct (jobs =? 1)%Z; discriminate H2. }
  assert (Forall pending t2) as P2.
  { destruct (jobs =? 1)%Z; injection H2 as <- _; repeat constructor. }
  apply bind_inv in Hb as [[e [H3 ->]] | [a3 [t3 [r3 [H3 [Hb ->]]]]]].
  { destruct (non_empty _); discriminate H3. }
  assert (Forall pending t3) as P3.
  { destruct (non_empty _); injection H3 as <- _; repeat constructor. }
  apply bind_inv in Hb as [[e [H4 ->]] | [a4 [t4 [r4 [H4 [Hb ->]]]]]].
  - match type of H4 with
    | parallel_builds ?s ?sq ?pl ?j ?q ?hh = _ =>
        destruct (parallel_builds_cases s sq pl j q hh)
          as [Hp | [pre [i [e' [post [Ht [Ho [Hp Hm]]]]]]]]; rewrite H4 in *; cbn [fst snd] in *
    end.
    + left. apply pending_settled. repeat (apply Forall_app; split); auto.
    + right. exists (t2 ++ t3 ++ pre)%list, i, e', post. subst r3.
      split; [now rewrite <- !app_assoc|]. split; [assumption|].
      split; [repeat (apply Forall_app; split); auto | assumption].
  - left.
    match type of H4 with
    | parallel_builds ?s ?sq ?pl ?j ?q ?hh = _ =>
        destruct (parallel_builds_cases s sq pl j q hh)
          as [Hp | [pre [i [e' [post [Ht [Ho [Hp Hm]]]]]]]]; rewrite H4 in *; cbn [fst snd] in *
    end; [|discriminate Ho].
    pose proof (fun E => emits_at settled _ _ _ _ E Hb) as X.
    repeat (apply Forall_app; split); try (apply pending_settled; assumption).
    apply X.
    apply emits_bind; [apply emits_when, emits_emit; exact I|]. intros _.
    apply emits_bind; [now apply emits_print|]. intros _.
    apply emits_bind; [apply emits_int_of|]. intros only.
    apply emits_bind; [|intros _; now apply emits_print].
    apply emits_when. apply emits_bind; [now apply emits_print|]. intros _.
    apply emits_bind; [apply emits_run; simpl; auto | intros; apply emits_ret].
Qed.

Lemma In_settled (tr : list event) (i : nat) (e : exn) :
  Forall settled tr -> ~ In (FutureResult i (Raised e)) tr.
Proof. intros H Hin. rewrite Forall_forall in H. exact (H _ Hin). Qed.

(** When the main thread sees a failed result, that result is the only
    failed one in its trace; what follows is output and the shutdown of the
    pool, and [main] ends with [SystemExit(1)]. *)
Lemma main_parallel_failure (sys : system) (env : environ) (i : nat) (e : exn) :
  In (FutureResult i (Raised e)) (fst (main sys env [])) ->
  exists pre post,
    fst (main sys env []) = (pre ++ FutureResult i (Raised e) :: post ++ [PoolShutdown])%list
    /\ snd (main sys env []) = Raised (SystemExit 1)
    /\ Forall pending pre /\ Forall message post.
Proof.
  intros Hin. destruct (main_cases sys env) as [[Hc _] | [_ [tc [h [Hc E]]]]].
  { exfalso. exact (In_settled _ i e (pending_settled _ (cleaning_pending _ Hc)) Hin). }
  rewrite E in *. cbn [fst snd] in *.
  destruct (build_phase_cases sys env (environ_get env "CXXFLAGS" EmptyString)
              (get_flags (environ_get env "CXXFLAGS" EmptyString)) h)
    as [Hs | [pre [j [e' [post [Ht [Ho [Hp Hm]]]]]]]].
  { exfalso. apply in_app_or in Hin as [Hin|Hin].
    - exact (In_settled _ i e (pending_settled _ (cleaning_pending _ Hc)) Hin).
    - exact (In_settled _ i e Hs Hin). }
  rewrite Ht in *. exists (tc ++ pre)%list, post.
  assert (FutureResult i (Raised e) = FutureResult j (Raised e')) as ->.
  { apply in_app_or in Hin as [Hin|Hin].
    { exfalso. exact (In_settled _ i e (pending_settled _ (cleaning_pending _ Hc)) Hin). }
    apply in_app_or in Hin as [Hin|Hin].
    { exfalso. exact (In_settled _ i e (pending_settled _ Hp) Hin). }
    destruct Hin as [Hin|Hin]; [now symmetry|]. exfalso.
    apply in_app_or in Hin as [Hin|Hin].
    - exact (In_settled _ i e (pending_settled _ (message_pending _ Hm)) Hin).
    - destruct Hin as [Hin|[]]. discriminate Hin. }
  split; [now rewrite <- app_assoc|]. split; [assumption|].
  split; [apply Forall_app; split; [now apply cleaning_pending | assumption] | assumption].
Qed.

Lemma In_submitted (tr : list event) (j : nat) (f : string) (q : bool) :
  In (Submit j f q) tr -> In (j, f, q) (submitted tr).
Proof.
  induction tr as [|ev tr IH]; [intros []|].
  intros [->|H]; [now left|]. destruct ev; simpl; auto.
Qed.

(** C1, as stated, fails: after the first failed result the main thread
    does wait for the parallel builds.  With the build of LDK failing, the
    failed result is followed by the shutdown of the pool, which blocks
    until every submitted build has finished. *)
Lemma pool_is_awaited_after_failure :
  ~ abandons_pool_after_failure (main_trace (auto_build sys_ldk_fails env_four)).
Proof.
  intros H.
  apply (H [Print "Cleaning previous builds..."; Print "make clean";
            Subprocess "make clean" None false (Completed proc_ok);
            Print "No CLEAN_BUILD option specified. Skipping clean step.";
            Print "Compiling selected modules in parallel (jobs=0) with CXXFLAGS=-DSECP256K1 -DBITCOINJ -DLDK -DLND...";
            ThreadStart ["SECP256K1"; "BITCOINJ"] true;
            Submit 0 "LDK" true; Submit 1 "LND" true]
           0 (SystemExit 1) [PoolShutdown]).
  - reflexivity.
  - left. reflexivity.
Qed.

(** C1, amended: when the main thread observes the first failed result
    of the parallel group, the run is reported as failed (exit status 1)
    and no further result is asked for; the submitted builds are not
    cancelled, each of them is run, and the main thread still waits for
    them when it leaves the pool (the shutdown is the last thing it does);
    it does not join the background thread itself, but that thread, when
    one was started, runs to its end and is awaited before the process
    exits. *)
Theorem parallel_failure_fails_the_run (sys : system) (env : environ) (i : nat) (e : exn) :
  In (FutureResult i (Raised e)) (main_trace (auto_build sys env)) ->
  (exists pre post,
      main_trace (auto_build sys env)
      = (pre ++ FutureResult i (Raised e) :: post ++ [PoolShutdown])%list
      /\ Forall pending pre /\ Forall message post)
  /\ main_outcome (auto_build sys env) = Raised (SystemExit 1)
  /\ exit_status (auto_build sys env) = 1%Z
  /\ ~ In ThreadJoin (main_trace (auto_build sys env))
  /\ (forall j f q, In (Submit j f q) (main_trace (auto_build sys env)) ->
                    In (future_run sys j f q) (pool_futures (auto_build sys env)))
  /\ (forall sequential q,
        started (main_trace (auto_build sys env)) = Some (sequential, q) ->
        sequential_thread (auto_build sys env)
        = Some (run_sequential (view sys SequentialThread) sequential q [])
        /\ at_exit (auto_build sys env) = [ExitJoin]).
Proof.
  unfold auto_build.
  cbn [main_trace main_outcome exit_status sequential_thread pool_futures at_exit].
  intros Hin. destruct (main_parallel_failure sys env i e Hin) as [pre [post [Ht [Ho [Hp Hm]]]]].
  split; [exists pre, post; auto|]. rewrite Ho.
  split; [reflexivity|]. split; [reflexivity|]. split; [|split].
  - rewrite Ht. intros Hj. apply in_app_or in Hj as [Hj|Hj].
    + rewrite Forall_forall in Hp. exact (Hp _ Hj).
    + destruct Hj as [Hj|Hj]; [discriminate Hj|].
      apply in_app_or in Hj as [Hj|Hj].
      * rewrite Forall_forall in Hm. exact (Hm _ Hj).
      * destruct Hj as [Hj|[]]. discriminate Hj.
  - intros j f q Hs. apply In_submitted in Hs.
    change (future_run sys j f q)
      with ((fun s : nat * string * bool => future_run sys (fst (fst s)) (snd (fst s)) (snd s))
              (j, f, q)).
    now apply in_map.
  - intros sequential q Hs. rewrite Hs. split; reflexivity.
Qed.

Lemma parallel_failure_fails_the_run_witness :
  exit_status (auto_build sys_ldk_fails env_four) = 1%Z
  /\ at_exit (auto_build sys_ldk_fails env_four) = [ExitJoin].
Proof.
  assert (In (FutureResult 0 (Raised (SystemExit 1)))
             (main_trace (auto_build sys_ldk_fails env_four))) as Hin.
  { do 8 right. left. reflexivity. }
  destruct (parallel_failure_fails_the_run sys_ldk_fails env_four 0 (SystemExit 1) Hin)
    as [_ [_ [Hs [_ [_ Ht]]]]].
  split; [exact Hs|].
  exact (proj2 (Ht ["SECP256K1"; "BITCOINJ"] true eq_refl)).
Defined.

(** ** The sequential group *)

(** Within the background thread a failed build ends the loop: nothing
    follows the report of the failure. *)
Lemma run_sequential_stops (w : world) (sequential : list string) (quiet : bool) :
  fails_fast (run_sequential w sequential quiet)
  /\ raises_on_failure_only (run_sequential w sequential quiet).
Proof.
  split; [apply fails_fast_run_sequential|].
  unfold run_sequential. apply rofo_bind; [apply rofo_print|].
  intros _. apply rofo_for_each. intros; apply rofo_build_module.
Qed.

(** What happens in the background thread has no part in what the main
    thread does. *)
Lemma main_ignores_sequential_thread (sys : system) (env : environ) (w : world) :
  main (with_sequential_view sys w) env = main sys env.
Proof. reflexivity. Qed.

(** C2 does not hold of the code.  With CXXFLAGS="-DSECP256K1 -DBITCOINJ
    -DLDK -DLND" and the build of SECP256K1 failing, the background thread
    reports the failure and stops before BITCOINJ, but [die] ends that
    thread only: the main thread joins it, announces that all module
    builds completed successfully, runs the final [make] and the process
    exits with status 0.  More generally the exit status of a run never
    depends on what happens in the background thread. *)
Theorem sequential_failure_reported_as_success :
  sequential_thread (auto_build sys_secp256k1_fails env_four)
  = Some ([Print "Starting sequential module builds:SECP256K1 BITCOINJ";
           IsDir "modules/secp256k1" true;
           Subprocess "make" (Some "modules/secp256k1") true (Completed proc_failed);
           Print "out"; Print "err";
           PrintErr "Error: Command failed: make"],
          Raised (SystemExit 1))
  /\ main_trace (auto_build sys_secp256k1_fails env_four)
     = [Print "Cleaning previous builds..."; Print "make clean";
        Subprocess "make clean" None false (Completed proc_ok);
        Print "No CLEAN_BUILD option specified. Skipping clean step.";
        Print "Compiling selected modules in parallel (jobs=0) with CXXFLAGS=-DSECP256K1 -DBITCOINJ -DLDK -DLND...";
        ThreadStart ["SECP256K1"; "BITCOINJ"] true;
        Submit 0 "LDK" true; Submit 1 "LND" true;
        FutureResult 0 (Returned tt); FutureResult 1 (Returned tt);
        PoolShutdown; ThreadJoin;
        Print "All module builds completed successfully!";
        Print "Compiling the main project in the root..."; Print "make";
        Subprocess "make" None false (Completed proc_ok);
        Print "Build completed successfully!"]
  /\ main_outcome (auto_build sys_secp256k1_fails env_four) = Returned tt
  /\ exit_status (auto_build sys_secp256k1_fails env_four) = 0%Z
  /\ (forall (sys : system) (env : environ) (w : world),
        exit_status (auto_build (with_sequential_view sys w) env)
        = exit_status (auto_build sys env)
        /\ main_trace (auto_build (with_sequential_view sys w) env)
           = main_trace (auto_build sys env)).
Proof.
  repeat split; unfold auto_build; cbn [exit_status main_trace];
    now rewrite main_ignores_sequential_thread.
Qed.

(** * Further properties of the code *)

(** ** The flag parser: every identifier is in the text *)

(** X1: an identifier the parser returns stands in the configuration
    string right after a [-D], and is not followed there by another
    character of the class [A-Z0-9_]: the parser makes no identifier up
    and cuts none short. *)
Theorem get_flags_occurs (s g : string) :
  In g (get_flags s) ->
  exists a b : string,
    s = a ++ "-D" ++ g ++ b
    /\ match b with EmptyString => True | String c _ => ident_char c = false end.
Proof.
  remember (String.length s) as n eqn:Hn.
  assert (String.length s <= n) as H by lia. clear Hn.
  revert s H. induction n as [|n IH]; intros s H.
  - destruct s; [intros [] | simpl in H; lia].
  - rewrite get_flags_step. destruct (match_at s) as [[g' r]|] eqn:E.
    + pose proof (match_at_shorter _ _ _ E) as L.
      apply match_at_text in E as [Es Er].
      intros [<-|Hin].
      * exists EmptyString, r. auto.
      * destruct (IH r ltac:(lia) Hin) as [a [b [Ea Eb]]].
        exists ("-D" ++ g' ++ a), b. split; [|exact Eb].
        rewrite Es, Ea. cbn [append]. now rewrite str_app_assoc.
    + destruct s as [|c t]; [intros []|]. intros Hin.
      destruct (IH t ltac:(simpl in H; lia) Hin) as [a [b [Ea Eb]]].
      exists (String c a), b. split; [|exact Eb]. rewrite Ea. reflexivity.
Qed.

Lemma get_flags_occurs_witness :
  exists a b : string, "-O2 -DLDK=1" = a ++ "-D" ++ "LDK" ++ b
    /\ match b with EmptyString => True | String c _ => ident_char c = false end.
Proof. apply get_flags_occurs. left. reflexivity. Defined.

(** ** The module resolver on what the parser returns *)

Lemma ident_lower_or_digit (c : ascii) :
  ident_char c = true -> Ascii.eqb c "_" = false ->
  lower_or_digit (PyStr.lower_char c) = true.
Proof. destruct c as [[] [] [] [] [] [] [] []]; simpl; intros H1 H2; try reflexivity; discriminate. Qed.

Lemma default_name_lower_or_digit (s : string) :
  PyStr.all_chars ident_char s = true ->
  PyStr.all_chars lower_or_digit (PyStr.remove_char "_" (PyStr.lower s)) = true.
Proof.
  unfold PyStr.all_chars. induction s as [|c t IH]; [reflexivity|].
  cbn [list_ascii_of_string forallb PyStr.lower PyStr.remove_char].
  intros H. apply andb_true_iff in H as [Hc Ht]. rewrite lower_char_underscore.
  destruct (Ascii.eqb c "_") eqn:E; [now apply IH|].
  cbn [list_ascii_of_string forallb]. now rewrite ident_lower_or_digit, IH.
Qed.

(** X2: for an identifier the parser can return, the build directory is
    [custommutator], [modules/bitcoin], or [modules/] followed by a name
    made of lower-case letters and digits only: no separator, no dot, so
    the directory is never outside [modules/]. *)
Theorem get_module_dir_of_flag (s g : string) :
  In g (get_flags s) ->
  get_module_dir g = "custommutator"
  \/ get_module_dir g = "modules/bitcoin"
  \/ exists name : string,
       get_module_dir g = "modules/" ++ name
       /\ PyStr.all_chars lower_or_digit name = true.
Proof.
  intros Hin. pose proof (get_flags_valid s) as V. rewrite Forall_forall in V.
  specialize (V g Hin). unfold valid_ident in V. apply andb_true_iff in V as [_ V].
  unfold get_module_dir. destruct (PyStr.startswith g "CUSTOM_MUTATOR_"); [now left|].
  destruct (g =? "BITCOIN_CORE"); [right; now left|].
  right. right. eexists. split; [reflexivity|]. now apply default_name_lower_or_digit.
Qed.

Lemma get_module_dir_of_flag_witness :
  get_module_dir "TINY_MINISCRIPT" = "custommutator"
  \/ get_module_dir "TINY_MINISCRIPT" = "modules/bitcoin"
  \/ exists name : string,
       get_module_dir "TINY_MINISCRIPT" = "modules/" ++ name
       /\ PyStr.all_chars lower_or_digit name = true.
Proof. apply (get_module_dir_of_flag "-DTINY_MINISCRIPT"). left. reflexivity. Defined.

Lemma underscores_span (u : string) :
  PyStr.all_chars (fun c => Ascii.eqb c "_") u = true ->
  PyStr.all_chars ident_char u = true
  /\ PyStr.remove_char "_" (PyStr.lower u) = EmptyString
  /\ PyStr.startswith u "CUSTOM_MUTATOR_" = false
  /\ String.eqb u "BITCOIN_CORE" = false.
Proof.
  unfold PyStr.all_chars. intros H.
  assert (PyStr.all_chars ident_char u = true
          /\ PyStr.remove_char "_" (PyStr.lower u) = EmptyString) as [H1 H2].
  { unfold PyStr.all_chars. induction u as [|c t IH]; [split; reflexivity|].
    cbn [list_ascii_of_string forallb] in *. apply andb_true_iff in H as [Hc Ht].
    apply Ascii.eqb_eq in Hc. subst c. destruct (IH Ht) as [I1 I2].
    split; [now rewrite I1|]. cbn. exact I2. }
  repeat split; try assumption.
  - destruct u as [|c t]; [reflexivity|]. cbn [list_ascii_of_string forallb] in H.
    apply andb_true_iff in H as [Hc _]. apply Ascii.eqb_eq in Hc. subst c. reflexivity.
  - destruct u as [|c t]; [reflexivity|]. cbn [list_ascii_of_string forallb] in H.
    apply andb_true_iff in H as [Hc _]. apply Ascii.eqb_eq in Hc. subst c. reflexivity.
Qed.

(** X3: an identifier made of underscores only is accepted by the parser
    and resolves to [modules/] itself, the root of all module
    directories. *)
Theorem underscores_resolve_to_modules_root (u : string) :
  u <> EmptyString -> PyStr.all_chars (fun c => Ascii.eqb c "_") u = true ->
  get_flags ("-D" ++ u) = [u] /\ get_module_dir u = "modules/".
Proof.
  intros Hne H. destruct (underscores_span u H) as [H1 [H2 [H3 H4]]]. split.
  - apply get_flags_token. unfold valid_ident. rewrite H1.
    apply truthy_iff in Hne. now rewrite Hne.
  - unfold get_module_dir. now rewrite H3, H4, H2.
Qed.

Lemma underscores_resolve_to_modules_root_witness :
  get_flags ("-D" ++ "__") = ["__"] /\ get_module_dir "__" = "modules/".
Proof. apply underscores_resolve_to_modules_root; [discriminate | reflexivity]. Defined.

(** X4: no module that needs the pinned toolchain is forced into the
    sequential lane: all five are built by the pool. *)
Theorem pinned_modules_are_parallel (f : string) :
  needs_rust_nightly f = true -> should_build_sequentially f = false.
Proof.
  intros H. apply needs_rust_nightly_iff in H. unfold pinned_toolchain in H.
  repeat (destruct H as [<-|H]; [reflexivity|]). destruct H.
Qed.

Lemma pinned_modules_are_parallel_witness : should_build_sequentially "LDK" = false.
Proof. apply pinned_modules_are_parallel. reflexivity. Defined.

(** ** Success and failure of a unit of work *)

Lemma returned_iff_calm {A : Type} (m : M A) (h : list event) :
  fails_fast m -> raises_on_failure_only m ->
  ((exists a, snd (m h) = Returned a) <-> Forall calm (fst (m h))).
Proof.
  intros F R. split.
  - intros [a Ha]. specialize (F h). rewrite Ha in F. now apply fail_fast_returned in F.
  - intros Hc. destruct (snd (m h)) as [a|e] eqn:O; [now exists a|].
    exfalso. exact (calm_not_failing _ Hc (R h e O)).
Qed.

Lemma probed_app (a b : list event) : probed (a ++ b) = (probed a ++ probed b)%list.
Proof.
  induction a as [|ev a IH]; [reflexivity|].
  destruct ev; simpl; rewrite ?IH; reflexivity.
Qed.

Lemma probed_messages (l : list event) : Forall message l -> probed l = [].
Proof.
  induction 1 as [|ev l Hev _ IH]; [reflexivity|].
  destruct ev; simpl in *; try contradiction; assumption.
Qed.

Lemma execute_in_dir_probed (w : world) (d cmd : string) (quiet : bool) (h : list event) :
  probed (fst (execute_in_dir w d cmd quiet h)) = [d].
Proof.
  unfold execute_in_dir, run, bind, when, is_dir, subprocess, print, emit, die, ret, raise.
  destruct quiet; crunch; reflexivity.
Qed.

Lemma build_module_probed (w : world) (flag : string) (quiet : bool) (h : list event) :
  probed (fst (build_module w flag quiet h)) = [get_module_dir flag].
Proof.
  destruct (build_module_shape w flag quiet h) as [b [a [h' [E [Hb Ha]]]]].
  rewrite E, !probed_app, (probed_messages b Hb), (probed_messages a Ha),
    execute_in_dir_probed. reflexivity.
Qed.

(** A quiet build that goes well prints its success line and nothing
    else. *)
Lemma build_module_quiet_success (w : world) (flag : string) (h : list event) :
  snd (build_module w flag true h) = Returned tt ->
  exists proc : CompletedProcess,
    returncode proc = 0%Z
    /\ fst (build_module w flag true h)
       = [IsDir (get_module_dir flag) true;
          Subprocess (if needs_rust_nightly flag then pinned_command else "make")
            (Some (get_module_dir flag)) true (Completed proc);
          Print ("âœ“ " ++ flag ++ " built successfully")].
Proof.
  unfold build_module, execute_in_dir, run, bind, when, is_dir, subprocess, print, emit,
    die, ret, raise, pinned_command.
  generalize (get_module_dir flag) as d. intros d.
  destruct (needs_rust_nightly flag); crunch; intros H; try discriminate H;
    (eexists; split; [|reflexivity]); now apply Z.eqb_eq.
Qed.

(** X5: a build has no partial success.  [build_module] returns exactly
    when nothing failed: the directory exists and the command exits with
    status 0; otherwise it raises right after the report of the failure.
    It tests one directory, that of the module; in quiet mode a build that
    goes well prints its success line and nothing else. *)
Theorem build_module_all_or_nothing (w : world) (flag : string) (quiet : bool)
  (h : list event) :
  (snd (build_module w flag quiet h) = Returned tt
   <-> Forall calm (fst (build_module w flag quiet h)))
  /\ fail_fast (fst (build_module w flag quiet h)) (snd (build_module w flag quiet h))
  /\ probed (fst (build_module w flag quiet h)) = [get_module_dir flag]
  /\ (quiet = true -> snd (build_module w flag quiet h) = Returned tt ->
      exists proc : CompletedProcess,
        returncode proc = 0%Z
        /\ fst (build_module w flag quiet h)
           = [IsDir (get_module_dir flag) true;
              Subprocess (if needs_rust_nightly flag then pinned_command else "make")
                (Some (get_module_dir flag)) true (Completed proc);
              Print ("âœ“ " ++ flag ++ " built successfully")]).
Proof.
  split; [|split; [|split]].
  - rewrite <- (returned_iff_calm (build_module w flag quiet) h
                  (fails_fast_build_module w flag quiet) (rofo_build_module w flag quiet)).
    split; [intros H; now exists tt | intros [[] H]; exact H].
  - apply fails_fast_build_module.
  - apply build_module_probed.
  - intros ->. apply build_module_quiet_success.
Qed.

Lemma build_module_all_or_nothing_witness :
  exists proc : CompletedProcess,
    returncode proc = 0%Z
    /\ fst (build_module (all_fine []) "LND" true [])
       = [IsDir (get_module_dir "LND") true;
          Subprocess (if needs_rust_nightly "LND" then pinned_command else "make")
            (Some (get_module_dir "LND")) true (Completed proc);
          Print ("âœ“ " ++ "LND" ++ " built successfully")].
Proof.
  apply (build_module_all_or_nothing (all_fine []) "LND" true []); reflexivity.
Defined.

(** ** Loops over modules: what is attempted, and in which order *)

Lemma for_each_probed {A : Type} (d : A -> string) (body : A -> M unit) (l : list A)
  (h : list event) :
  (forall x h', probed (fst (body x h')) = [d x]) ->
  exists done rest : list A,
    l = (done ++ rest)%list
    /\ probed (fst (for_each l body h)) = map d done
    /\ (snd (for_each l body h) = Returned tt -> rest = [])
    /\ (forall e, snd (for_each l body h) = Raised e -> done <> []).
Proof.
  intros Hb. revert h. induction l as [|x l IH]; intros h.
  - exists [], []. split; [reflexivity|]. split; [reflexivity|].
    split; [reflexivity|]. intros e H. discriminate H.
  - cbn [for_each]. rewrite bind_run. destruct (snd (body x h)) as [[]|e] eqn:O.
    + destruct (IH (h ++ fst (body x h))%list) as [done [rest [E [P [R F]]]]].
      exists (x :: done), rest. cbn [fst snd]. rewrite probed_app, Hb, P.
      split; [now rewrite E|]. split; [reflexivity|]. split; [exact R|].
      intros e _. discriminate.
    + exists [x], l. cbn [fst snd]. rewrite Hb.
      split; [reflexivity|]. split; [reflexivity|]. split; [discriminate|].
      intros e' _. discriminate.
Qed.

Lemma run_sequential_probed (w : world) (sequential : list string) (quiet : bool)
  (h : list event) :
  exists done rest : list string,
    sequential = (done ++ rest)%list
    /\ probed (fst (run_sequential w sequential quiet h)) = map get_module_dir done
    /\ (snd (run_sequential w sequential quiet h) = Returned tt -> rest = [])
    /\ (forall e, snd (run_sequential w sequential quiet h) = Raised e -> done <> []).
Proof.
  unfold run_sequential. rewrite bind_run. cbn [print emit fst snd app].
  destruct (for_each_probed get_module_dir (fun f => build_module w f quiet) sequential
              (h ++ [Print ("Starting sequential module builds:" ++ PyStr.join " " sequential)])
              (fun x h' => build_module_probed w x quiet h'))
    as [done [rest [E [P [R F]]]]].
  exists done, rest. auto.
Qed.

(** X6: the background thread builds the sequential modules one after
    another in the order of the flags and stops at the first build that
    fails: the modules attempted are a beginning [done] of the list, none
    of the others is touched, and the thread returns exactly when nothing
    failed, having attempted them all. *)
Theorem run_sequential_in_order (w : world) (sequential : list string) (quiet : bool)
  (h : list event) :
  (exists done rest : list string,
      sequential = (done ++ rest)%list
      /\ probed (fst (run_sequential w sequential quiet h)) = map get_module_dir done
      /\ (snd (run_sequential w sequential quiet h) = Returned tt -> rest = [])
      /\ (forall e, snd (run_sequential w sequential quiet h) = Raised e -> done <> []))
  /\ (snd (run_sequential w sequential quiet h) = Returned tt
      <-> Forall calm (fst (run_sequential w sequential quiet h)))
  /\ fail_fast (fst (run_sequential w sequential quiet h))
               (snd (run_sequential w sequential quiet h)).
Proof.
  split; [apply run_sequential_probed|]. split.
  - destruct (run_sequential_stops w sequential quiet) as [F R].
    rewrite <- (returned_iff_calm (run_sequential w sequential quiet) h F R).
    split; [intros H; now exists tt | intros [[] H]; exact H].
  - apply fails_fast_run_sequential.
Qed.

(** ** The clean mode: which directories, in which order *)





(** ** The exit status *)

Lemma ends_with_one_ret {A : Type} (a : A) : ends_with_one (ret a).
Proof. intros h. exact I. Qed.

Lemma ends_with_one_emit (ev : event) : ends_with_one (emit ev).
Proof. intros h. exact I. Qed.

Lemma ends_with_one_die {A : Type} (msg : string) : ends_with_one (@die A msg).
Proof. intros h. reflexivity. Qed.

Lemma ends_with_one_bind {A B : Type} (m : M A) (k : A -> M B) :
  ends_with_one m -> (forall a, ends_with_one (k a)) -> ends_with_one (bind m k).
Proof.
  intros Hm Hk h. rewrite bind_run. specialize (Hm h).
  destruct (snd (m h)) as [a|e]; cbn [snd]; [apply Hk | exact Hm].
Qed.

Lemma ends_with_one_when (c : bool) (body : M unit) :
  ends_with_one body -> ends_with_one (when c body).
Proof. destruct c; simpl; [trivial | intros _; apply ends_with_one_ret]. Qed.

Lemma ends_with_one_for_each {A : Type} (l : list A) (body : A -> M unit) :
  (forall x, ends_with_one (body x)) -> ends_with_one (for_each l body).
Proof.
  intros H. induction l as [|x l IH]; simpl; [apply ends_with_one_ret|].
  apply ends_with_one_bind; auto.
Qed.

Lemma ends_with_one_int_of (s : string) : ends_with_one (int_of s).
Proof. intros h. unfold int_of. destruct (PyInt.int s); exact I. Qed.

Lemma ends_with_one_fails_fast {A : Type} (m : M A) :
  fails_fast m -> raises_on_failure_only m -> ends_with_one m.
Proof.
  intros F R h. specialize (F h). specialize (R h).
  destruct (snd (m h)) as [a|e] eqn:O; [exact I|].
  specialize (R e eq_refl).
  inversion F as [tr o Hc E1 E2 | pre ev Hc Hf E1 E2].
  - exfalso. exact (calm_not_failing _ Hc R).
  - destruct ev as [| | | |cmd cwd q [proc|]| | | | | |]; simpl; auto.
Qed.

Lemma ends_with_one_parallel_builds (sys : system) (sequential parallel : list string)
  (jobs : Z) (quiet : bool) :
  ends_with_one (parallel_builds sys sequential parallel jobs quiet).
Proof.
  intros h.
  destruct (parallel_builds_cases sys sequential parallel jobs quiet h)
    as [Hp | [pre [i [e [post [_ [Ho _]]]]]]]; [|now rewrite Ho].
  unfold parallel_builds, when in *.
  destruct (non_empty parallel); [|exact I].
  destruct (jobs <? 0)%Z; [exact I|].
  unfold with_pool in *. rewrite bind_run in *.
  destruct (submit_all quiet (enumerate parallel) h) as [So _]. rewrite So in *.
  unfold try_except_Exception in *.
  match goal with
  | |- context [for_each ?l (future_result sys quiet) ?hh] =>
      destruct (await_results sys quiet l hh) as [[Ho _] | [pre [i [e [Ht [Ho [_ He]]]]]]];
      destruct (for_each l (future_result sys quiet) hh) as [es o]; cbn [fst snd] in *; subst o
  end.
  - exact I.
  - destruct He as [-> | ->]; cbn [is_Exception]; cbn; [reflexivity|].
    destruct (non_empty sequential); reflexivity.
Qed.

Lemma ends_with_one_main (sys : system) (env : environ) : ends_with_one (main sys env).
Proof.
  unfold main. apply ends_with_one_bind.
  { destruct (negb _); [apply ends_with_one_die | apply ends_with_one_ret]. }
  intros _. apply ends_with_one_bind; [apply ends_with_one_emit|]. intros _.
  apply ends_with_one_bind.
  { apply ends_with_one_fails_fast; [apply fails_fast_run | apply rofo_run]. }
  intros _. apply ends_with_one_bind.
  { apply ends_with_one_fails_fast; [apply fails_fast_clean_step | apply rofo_clean_step]. }
  intros _. destruct (negb _); [apply ends_with_one_emit|].
  unfold build_phase.
  apply ends_with_one_bind; [apply ends_with_one_int_of|]. intros jobs.
  apply ends_with_one_bind; [destruct (jobs =? 1)%Z; apply ends_with_one_emit|]. intros _.
  apply ends_with_one_bind; [apply ends_with_one_when, ends_with_one_emit|]. intros _.
  apply ends_with_one_bind; [apply ends_with_one_parallel_builds|]. intros _.
  apply ends_with_one_bind; [apply ends_with_one_when, ends_with_one_emit|]. intros _.
  apply ends_with_one_bind; [apply ends_with_one_emit|]. intros _.
  apply ends_with_one_bind; [apply ends_with_one_int_of|]. intros only.
  apply ends_with_one_bind; [|intros _; apply ends_with_one_emit].
  apply ends_with_one_when. apply ends_with_one_bind; [apply ends_with_one_emit|]. intros _.
  apply ends_with_one_bind; [|intros; apply ends_with_one_ret].
  apply ends_with_one_fails_fast; [apply fails_fast_run | apply rofo_run].
Qed.

(** X8: the process exits with status 0 or 1, nothing else: 0 exactly
    when [main] returns, 1 whenever it ends by an exception ([SystemExit]
    from [die], which always carries 1, or any other). *)
Theorem exit_status_zero_or_one (sys : system) (env : environ) :
  (exit_status (auto_build sys env) = 0%Z \/ exit_status (auto_build sys env) = 1%Z)
  /\ (exit_status (auto_build sys env) = 0%Z
      <-> main_outcome (auto_build sys env) = Returned tt)
  /\ (exit_status (auto_build sys env) = 1%Z
      <-> exists e, main_outcome (auto_build sys env) = Raised e).
Proof.
  unfold auto_build. cbn [exit_status main_outcome].
  pose proof (ends_with_one_main sys env []) as H.
  destruct (snd (main sys env [])) as [[]|[c| |]]; cbn in *; subst.
  - split; [now left|]. split; [split; reflexivity|].
    split; [discriminate | intros [e X]; discriminate X].
  - split; [now right|]. split; [split; discriminate|].
    split; [intros _; now eexists | reflexivity].
  - split; [now right|]. split; [split; discriminate|].
    split; [intros _; now eexists | reflexivity].
  - split; [now right|]. split; [split; discriminate|].
    split; [intros _; now eexists | reflexivity].
Qed.

(** ** The parallel group, exactly *)

Lemma submit_exact (quiet : bool) (l : list (nat * string)) (h : list event) :
  for_each l (fun fut => emit (Submit (fst fut) (snd fut) quiet)) h
  = (map (submission quiet) l, Returned tt).
Proof.
  revert h. induction l as [|x l IH]; intros h; [reflexivity|].
  cbn [for_each]. rewrite bind_run. cbn [emit fst snd]. rewrite IH. reflexivity.
Qed.

Lemma await_exact (sys : system) (quiet : bool) (l : list (nat * string)) (h : list event) :
  (Forall (future_returned sys quiet) l
   /\ for_each l (future_result sys quiet) h = (map returned_result l, Returned tt))
  \/ (exists before fut after e,
        l = (before ++ fut :: after)%list
        /\ Forall (future_returned sys quiet) before
        /\ snd (future_run sys (fst fut) (snd fut) quiet) = Raised e
        /\ for_each l (future_result sys quiet) h
           = ((map returned_result before ++ [FutureResult (fst fut) (Raised e)])%list,
              Raised e)).
Proof.
  revert h. induction l as [|[i f] l IH]; intros h.
  - left. split; [constructor | reflexivity].
  - cbn [for_each]. rewrite bind_run, !future_result_run. cbn [fst snd].
    destruct (snd (future_run sys i f quiet)) as [[]|e] eqn:O.
    + destruct (IH (h ++ [FutureResult i (Returned tt)])%list)
        as [[Hall E] | [before [fut [after [e [El [Hb [Hf E]]]]]]]]; rewrite E; cbn [fst snd].
      * left. split; [constructor; [exact O | exact Hall] | reflexivity].
      * right. exists ((i, f) :: before), fut, after, e. rewrite El.
        split; [reflexivity|]. split; [constructor; [exact O | exact Hb]|].
        split; [exact Hf | reflexivity].
    + right. exists [], (i, f), l, e. cbn [fst snd].
      split; [reflexivity|]. split; [constructor|]. split; [exact O | reflexivity].
Qed.

Lemma except_handler_run (sequential : list string) (h : list event) :
  (when (non_empty sequential)
     (print "Parallel build failed, terminating sequential builds") ;;
   @die unit "One or more module builds failed")%py h
  = (except_output sequential OSError, Raised (SystemExit 1)).
Proof. unfold except_output. destruct (non_empty sequential); reflexivity. Qed.

Lemma parallel_builds_exact (sys : system) (sequential parallel : list string) (jobs : Z)
  (quiet : bool) (h : list event) :
  non_empty parallel = true -> (jobs <? 0)%Z = false ->
  (Forall (future_returned sys quiet) (as_completed (finish_time sys) (enumerate parallel))
   /\ parallel_builds sys sequential parallel jobs quiet h
      = ((map (submission quiet) (enumerate parallel)
            ++ map returned_result (as_completed (finish_time sys) (enumerate parallel))
            ++ [PoolShutdown])%list,
         Returned tt))
  \/ (exists before fut after e,
        as_completed (finish_time sys) (enumerate parallel) = (before ++ fut :: after)%list
        /\ Forall (future_returned sys quiet) before
        /\ snd (future_run sys (fst fut) (snd fut) quiet) = Raised e
        /\ (e = SystemExit 1 \/ e = OSError)
        /\ parallel_builds sys sequential parallel jobs quiet h
           = ((map (submission quiet) (enumerate parallel)
                 ++ map returned_result before
                 ++ FutureResult (fst fut) (Raised e) :: except_output sequential e
                 ++ [PoolShutdown])%list,
              Raised (SystemExit 1))).
Proof.
  intros Hne Hj. unfold parallel_builds. rewrite Hne, Hj.
  change (when true ?b) with b.
  unfold with_pool. rewrite bind_run, submit_exact. cbn [fst snd].
  unfold try_except_Exception.
  destruct (await_exact sys quiet (as_completed (finish_time sys) (enumerate parallel))
              (h ++ map (submission quiet) (enumerate parallel))%list)
    as [[Hall E] | [before [fut [after [e [El [Hb [Hf E]]]]]]]]; rewrite E.
  - left. split; [exact Hall|]. now rewrite <- app_assoc.
  - right. exists before, fut, after, e.
    split; [exact El|]. split; [exact Hb|]. split; [exact Hf|].
    pose proof (build_module_raises _ _ _ _ _ Hf) as He. split; [exact He|].
    destruct He as [-> | ->]; cbn [is_Exception].
    + unfold except_output. cbn [is_Exception fst snd app]. rewrite <- ?app_assoc.
      reflexivity.
    + rewrite except_handler_run. cbn [fst snd]. rewrite <- ?app_assoc. reflexivity.
Qed.

Lemma insert_by_perm (key : nat -> nat) (x : nat * string) (l : list (nat * string)) :
  Permutation (insert_by key x l) (x :: l).
Proof.
  induction l as [|y l IH]; simpl; [reflexivity|].
  destruct (key (fst x) <=? key (fst y))%nat; [reflexivity|].
  rewrite IH. apply perm_swap.
Qed.

(** The futures come out of [as_completed] each once, in some order. *)
Lemma as_completed_perm (key : nat -> nat) (l : list (nat * string)) :
  Permutation (as_completed key l) l.
Proof.
  unfold as_completed. induction l as [|x l IH]; simpl; [reflexivity|].
  rewrite insert_by_perm. now constructor.
Qed.

Lemma submitted_app (a b : list event) : submitted (a ++ b) = (submitted a ++ submitted b)%list.
Proof.
  induction a as [|ev a IH]; [reflexivity|].
  destruct ev; simpl; rewrite ?IH; reflexivity.
Qed.

Lemma results_app (a b : list event) : results (a ++ b) = (results a ++ results b)%list.
Proof.
  induction a as [|ev a IH]; [reflexivity|].
  destruct ev; simpl; rewrite ?IH; reflexivity.
Qed.

Lemma submitted_submissions (quiet : bool) (l : list (nat * string)) :
  submitted (map (submission quiet) l) = map (fun fut => (fst fut, snd fut, quiet)) l.
Proof. induction l as [|x l IH]; simpl; [reflexivity | now rewrite IH]. Qed.

Lemma results_submissions (quiet : bool) (l : list (nat * string)) :
  results (map (submission quiet) l) = [].
Proof. induction l as [|x l IH]; simpl; [reflexivity | exact IH]. Qed.

Lemma submitted_results (l : list (nat * string)) : submitted (map returned_result l) = [].
Proof. induction l as [|x l IH]; simpl; [reflexivity | exact IH]. Qed.

Lemma results_returned (l : list (nat * string)) :
  results (map returned_result l) = map (fun fut => (fst fut, Returned tt)) l.
Proof. induction l as [|x l IH]; simpl; [reflexivity | now rewrite IH]. Qed.

Lemma submitted_except_output (sequential : list string) (e : exn) :
  submitted (except_output sequential e) = [].
Proof. unfold except_output. destruct (is_Exception e), (non_empty sequential); reflexivity. Qed.

Lemma parallel_group_facts (sys : system) (sequential parallel : list string)
  (jobs : Z) (quiet : bool) (h : list event) :
  non_empty parallel = true -> (jobs <? 0)%Z = false ->
  submitted (fst (parallel_builds sys sequential parallel jobs quiet h))
  = map (fun fut => (fst fut, snd fut, quiet)) (enumerate parallel)
  /\ (snd (parallel_builds sys sequential parallel jobs quiet h) = Returned tt
      <-> Forall (future_returned sys quiet) (enumerate parallel))
  /\ (snd (parallel_builds sys sequential parallel jobs quiet h) = Returned tt ->
      Permutation (results (fst (parallel_builds sys sequential parallel jobs quiet h)))
                  (map (fun fut => (fst fut, Returned tt)) (enumerate parallel)))
  /\ (snd (parallel_builds sys sequential parallel jobs quiet h) = Returned tt
      \/ snd (parallel_builds sys sequential parallel jobs quiet h) = Raised (SystemExit 1))
  /\ (exists tr', fst (parallel_builds sys sequential parallel jobs quiet h)
                  = (tr' ++ [PoolShutdown])%list).
Proof.
  intros Hne Hj.
  destruct (parallel_builds_exact sys sequential parallel jobs quiet h Hne Hj)
    as [[Hall E] | [before [fut [after [e [El [Hb [Hf [He E]]]]]]]]]; rewrite E; cbn [fst snd].
  - split; [|split; [|split; [|split]]].
    + now rewrite !submitted_app, submitted_submissions, submitted_results, app_nil_r.
    + split; [intros _|reflexivity].
      eapply Permutation_Forall; [apply as_completed_perm | exact Hall].
    + intros _. rewrite !results_app, results_submissions, results_returned, app_nil_r.
      cbn [app]. apply Permutation_map, as_completed_perm.
    + now left.
    + eexists. rewrite app_assoc. reflexivity.
  - split; [|split; [|split; [|split]]].
    + change (FutureResult (fst fut) (Raised e) :: except_output sequential e ++ [PoolShutdown])%list
        with ([FutureResult (fst fut) (Raised e)] ++ except_output sequential e
                ++ [PoolShutdown])%list.
      now rewrite !submitted_app, submitted_submissions, submitted_results,
        submitted_except_output, app_nil_r.
    + split; [discriminate|]. intros Hall. exfalso.
      assert (In fut (enumerate parallel)) as Hin.
      { eapply Permutation_in; [apply as_completed_perm|]. rewrite El. apply in_elt. }
      rewrite Forall_forall in Hall. specialize (Hall fut Hin).
      unfold future_returned in Hall. congruence.
    + discriminate.
    + now right.
    + exists (map (submission quiet) (enumerate parallel) ++ map returned_result before
                ++ FutureResult (fst fut) (Raised e) :: except_output sequential e)%list.
      rewrite <- !app_assoc. reflexivity.
Qed.

(** X9: the parallel group, when there is one and the pool can be made.
    Every parallel module is submitted once, in the order of the flags and
    with the same quiet setting.  The group returns exactly when the build
    of every module returned, and then the result of every future has been
    asked for once; otherwise it ends with [SystemExit(1)] at the first
    failed result in completion order, whatever the later builds do.  In
    both cases the last thing it does is to shut the pool down. *)
Theorem parallel_group_behaviour (sys : system) (sequential parallel : list string)
  (jobs : Z) (quiet : bool) (h : list event) :
  non_empty parallel = true -> (jobs <? 0)%Z = false ->
  submitted (fst (parallel_builds sys sequential parallel jobs quiet h))
  = map (fun fut => (fst fut, snd fut, quiet)) (enumerate parallel)
  /\ (snd (parallel_builds sys sequential parallel jobs quiet h) = Returned tt
      <-> Forall (future_returned sys quiet) (enumerate parallel))
  /\ (snd (parallel_builds sys sequential parallel jobs quiet h) = Returned tt ->
      Permutation (results (fst (parallel_builds sys sequential parallel jobs quiet h)))
                  (map (fun fut => (fst fut, Returned tt)) (enumerate parallel)))
  /\ (snd (parallel_builds sys sequential parallel jobs quiet h) = Returned tt
      \/ snd (parallel_builds sys sequential parallel jobs quiet h) = Raised (SystemExit 1))
  /\ (exists tr', fst (parallel_builds sys sequential parallel jobs quiet h)
                  = (tr' ++ [PoolShutdown])%list).
Proof. apply parallel_group_facts. Qed.

Lemma parallel_group_behaviour_witness :
  submitted (fst (parallel_builds sys_ldk_fails ["SECP256K1"] ["LDK"; "LND"] 0 true []))
  = [(0, "LDK", true); (1, "LND", true)]
  /\ snd (parallel_builds sys_ldk_fails ["SECP256K1"] ["LDK"; "LND"] 0 true [])
     = Raised (SystemExit 1).
Proof.
  destruct (parallel_group_behaviour sys_ldk_fails ["SECP256K1"] ["LDK"; "LND"] 0 true []
              eq_refl eq_refl) as [Hs [_ [_ [[Ho|Ho] _]]]].
  - discriminate Ho.
  - split; [exact Hs | exact Ho].
Defined.

Lemma parallel_builds_idle (sys : system) (sequential parallel : list string) (jobs : Z)
  (quiet : bool) (h : list event) :
  non_empty parallel = false \/ (jobs <? 0)%Z = true ->
  fst (parallel_builds sys sequential parallel jobs quiet h) = []
  /\ (non_empty parallel = false ->
      snd (parallel_builds sys sequential parallel jobs quiet h) = Returned tt)
  /\ (non_empty parallel = true ->
      snd (parallel_builds sys sequential parallel jobs quiet h) = Raised ValueError).
Proof.
  unfold parallel_builds, when. intros [H|H].
  - rewrite H. repeat split. discriminate.
  - destruct (non_empty parallel); rewrite ?H; repeat split; discriminate.
Qed.

Lemma in_pool_events (quiet : bool) (l1 l2 : list (nat * string)) (ev : event) :
  In ev (map (submission quiet) l1 ++ map returned_result l2)%list ->
  (exists i f, ev = Submit i f quiet) \/ (exists i, ev = FutureResult i (Returned tt)).
Proof.
  intros H. apply in_app_or in H as [H|H]; apply in_map_iff in H as [[i f] [<- _]].
  - left. now exists i, f.
  - right. now exists i.
Qed.

(** X10: the [except Exception] branch of the parallel group is taken
    only when a build raised an [Exception] (the shell could not be
    started).  When a build fails through [die] (a missing directory, a
    command with a status other than zero) the [SystemExit] passes the
    branch by: the main thread prints neither "Parallel build failed,
    terminating sequential builds" nor "One or more module builds
    failed". *)
Theorem except_branch_only_for_exceptions (sys : system) (sequential parallel : list string)
  (jobs : Z) (quiet : bool) (h : list event) :
  (forall i c,
      In (FutureResult i (Raised (SystemExit c)))
         (fst (parallel_builds sys sequential parallel jobs quiet h)) ->
      Forall (fun ev => ~ message ev) (fst (parallel_builds sys sequential parallel jobs quiet h)))
  /\ (forall s,
        In (PrintErr s) (fst (parallel_builds sys sequential parallel jobs quiet h)) ->
        s = "Error: One or more module builds failed"
        /\ exists i, In (FutureResult i (Raised OSError))
                        (fst (parallel_builds sys sequential parallel jobs quiet h)))
  /\ (forall i,
        In (FutureResult i (Raised OSError))
           (fst (parallel_builds sys sequential parallel jobs quiet h)) ->
        In (PrintErr "Error: One or more module builds failed")
           (fst (parallel_builds sys sequential parallel jobs quiet h))).
Proof.
  destruct (non_empty parallel) eqn:Hne;
    [destruct (jobs <? 0)%Z eqn:Hj|];
    try (destruct (parallel_builds_idle sys sequential parallel jobs quiet h) as [-> _];
         [solve [auto] | repeat split; intros; contradiction]).
  destruct (parallel_builds_exact sys sequential parallel jobs quiet h Hne Hj)
    as [[Hall E] | [before [fut [after [e [El [Hb [Hf [He E]]]]]]]]]; rewrite E; cbn [fst snd].
  - assert (forall ev, In ev (map (submission quiet) (enumerate parallel)
                               ++ map returned_result
                                    (as_completed (finish_time sys) (enumerate parallel))
                               ++ [PoolShutdown])%list ->
                       (exists i f, ev = Submit i f quiet)
                       \/ (exists i, ev = FutureResult i (Returned tt))
                       \/ ev = PoolShutdown) as Hev.
    { intros ev Hin. rewrite app_assoc in Hin. apply in_app_or in Hin as [Hin|[<-|[]]]; auto.
      apply in_pool_events in Hin as [Hin|Hin]; auto. }
    split; [|split].
    + intros i c Hin. apply Hev in Hin as [[j [f Hin]]|[[j Hin]|Hin]]; discriminate Hin.
    + intros s Hin. apply Hev in Hin as [[j [f Hin]]|[[j Hin]|Hin]]; discriminate Hin.
    + intros i Hin. apply Hev in Hin as [[j [f Hin]]|[[j Hin]|Hin]]; discriminate Hin.
  - set (head := (map (submission quiet) (enumerate parallel) ++ map returned_result before)%list).
    assert (forall ev, In ev (map (submission quiet) (enumerate parallel)
                               ++ map returned_result before
                               ++ FutureResult (fst fut) (Raised e)
                                  :: except_output sequential e ++ [PoolShutdown])%list ->
                       In ev head \/ ev = FutureResult (fst fut) (Raised e)
                       \/ In ev (except_output sequential e) \/ ev = PoolShutdown) as Hev.
    { intros ev Hin. rewrite app_assoc in Hin. fold head in Hin.
      apply in_app_or in Hin as [Hin|[<-|Hin]]; auto.
      apply in_app_or in Hin as [Hin|[<-|[]]]; auto. }
    assert (forall ev, In ev head ->
                       (exists i f, ev = Submit i f quiet)
                       \/ (exists i, ev = FutureResult i (Returned tt))) as Hhead
      by (intros ev; apply in_pool_events).
    destruct He as [-> | ->]; unfold except_output in *; cbn [is_Exception] in *.
    + split; [|split].
      * intros _ _ _. rewrite Forall_forall. intros ev Hin.
        apply Hev in Hin as [Hin|[Hin|[Hin|Hin]]].
        -- apply Hhead in Hin as [[j [f Hin]]|[j Hin]]; subst ev; intros [].
        -- subst ev. intros [].
        -- destruct Hin.
        -- subst ev. intros [].
      * intros s Hin. apply Hev in Hin as [Hin|[Hin|[Hin|Hin]]]; try discriminate Hin.
        -- apply Hhead in Hin as [[j [f Hin]]|[j Hin]]; discriminate Hin.
        -- destruct Hin.
      * intros i Hin. apply Hev in Hin as [Hin|[Hin|[Hin|Hin]]]; try discriminate Hin.
        -- apply Hhead in Hin as [[j [f Hin]]|[j Hin]]; discriminate Hin.
        -- destruct Hin.
    + split; [|split].
      * intros i c Hin. exfalso. apply Hev in Hin as [Hin|[Hin|[Hin|Hin]]]; try discriminate Hin.
        -- apply Hhead in Hin as [[j [f Hin]]|[j Hin]]; discriminate Hin.
        -- destruct (non_empty sequential); simpl in Hin;
             repeat (destruct Hin as [Hin|Hin]; try discriminate Hin); exact Hin.
      * intros s Hin. split.
        -- apply Hev in Hin as [Hin|[Hin|[Hin|Hin]]]; try discriminate Hin.
           ++ apply Hhead in Hin as [[j [f Hin]]|[j Hin]]; discriminate Hin.
           ++ destruct (non_empty sequential); simpl in Hin;
                repeat (destruct Hin as [Hin|Hin]; try discriminate Hin);
                try contradiction; now injection Hin.
        -- exists (fst fut). apply in_or_app. right. apply in_or_app. right. now left.
      * intros i _. apply in_or_app. right. apply in_or_app. right. right.
        apply in_or_app. left. destruct (non_empty sequential); simpl; auto.
Qed.

Lemma except_branch_only_for_exceptions_witness :
  Forall (fun ev => ~ message ev)
         (fst (parallel_builds sys_ldk_fails ["SECP256K1"] ["LDK"; "LND"] 0 true [])).
Proof.
  apply (proj1 (except_branch_only_for_exceptions sys_ldk_fails ["SECP256K1"] ["LDK"; "LND"]
                  0 true []) 0 1%Z).
  right. right. left. reflexivity.
Defined.

(** ** The build phase, stage by stage *)

Lemma int_of_run (text : string) (h : list event) :
  int_of text h
  = match PyInt.int text with
    | Some n => ([], Returned n)
    | None => ([], Raised ValueError)
    end.
Proof. unfold int_of. destruct (PyInt.int text); reflexivity. Qed.

Lemma build_phase_run (sys : system) (env : environ) (cxxflags : string)
  (flags : list string) (h : list event) :
  match PyInt.int (environ_get env "PARALLEL_JOBS" "0") with
  | None => build_phase sys env cxxflags flags h = ([], Raised ValueError)
  | Some jobs =>
      let quiet := negb (jobs =? 1)%Z in
      let sequential := filter should_build_sequentially flags in
      let parallel := filter (fun f => negb (should_build_sequentially f)) flags in
      let ts := if non_empty sequential then [ThreadStart sequential quiet] else [] in
      let tj := if non_empty sequential then [ThreadJoin] else [] in
      exists h1 h2 : list event,
        match snd (parallel_builds sys sequential parallel jobs quiet h1) with
        | Raised e =>
            build_phase sys env cxxflags flags h
            = ((Print (banner jobs cxxflags) :: ts
                  ++ fst (parallel_builds sys sequential parallel jobs quiet h1))%list,
               Raised e)
        | Returned _ =>
            build_phase sys env cxxflags flags h
            = ((Print (banner jobs cxxflags) :: ts
                  ++ fst (parallel_builds sys sequential parallel jobs quiet h1)
                  ++ tj ++ fst (final_build (view sys MainThread) env h2))%list,
               snd (final_build (view sys MainThread) env h2))
        end
  end.
Proof.
  unfold build_phase. cbv zeta. rewrite bind_run, !int_of_run.
  destruct (PyInt.int (environ_get env "PARALLEL_JOBS" "0")) as [jobs|]; [|reflexivity].
  cbn [ret fst snd app]. rewrite bind_run.
  assert (forall hh,
             (if (jobs =? 1)%Z
              then print ("Compiling selected modules sequentially with CXXFLAGS="
                            ++ cxxflags ++ "...")
              else print ("Compiling selected modules in parallel (jobs="
                            ++ PyInt.str jobs ++ ") with CXXFLAGS=" ++ cxxflags ++ "..."))
               hh
             = ([Print (banner jobs cxxflags)], Returned tt)) as B.
  { intros hh. unfold banner. destruct (jobs =? 1)%Z; reflexivity. }
  rewrite !B. cbn [fst snd app]. rewrite bind_run.
  set (sequential := filter should_build_sequentially flags).
  set (parallel := filter (fun f => negb (should_build_sequentially f)) flags).
  set (quiet := negb (jobs =? 1)%Z).
  assert (forall hh,
             when (non_empty sequential) (emit (ThreadStart sequential quiet)) hh
             = ((if non_empty sequential then [ThreadStart sequential quiet] else []),
                Returned tt)) as S.
  { intros hh. destruct (non_empty sequential); reflexivity. }
  assert (forall hh,
             when (non_empty sequential) (emit ThreadJoin) hh
             = ((if non_empty sequential then [ThreadJoin] else []), Returned tt)) as J.
  { intros hh. destruct (non_empty sequential); reflexivity. }
  rewrite !S. cbn [fst snd]. rewrite bind_run.
  match goal with
  | |- context [parallel_builds sys sequential parallel jobs quiet ?hh] =>
      exists hh; eexists;
      destruct (snd (parallel_builds sys sequential parallel jobs quiet hh)) as [[]|e] eqn:O
  end.
  - cbn [fst snd]. rewrite bind_run, !J. cbn [fst snd]. reflexivity.
  - reflexivity.
Qed.

Lemma final_build_run (w : world) (env : environ) (h : list event) :
  match PyInt.int (environ_get env "ONLY_MODULES" "0") with
  | None =>
      final_build w env h
      = ([Print "All module builds completed successfully!"], Raised ValueError)
  | Some n =>
      if (n =? 0)%Z
      then exists h' : list event,
          final_build w env h
          = (Print "All module builds completed successfully!"
               :: Print "Compiling the main project in the root..."
               :: (fst (run w "make" None false h')
                     ++ match snd (run w "make" None false h') with
                        | Returned _ => [Print "Build completed successfully!"]
                        | Raised _ => []
                        end)%list,
             match snd (run w "make" None false h') with
             | Returned _ => Returned tt
             | Raised e => Raised e
             end)
      else final_build w env h
           = ([Print "All module builds completed successfully!";
               Print "Build completed successfully!"], Returned tt)
  end.
Proof.
  unfold final_build. rewrite bind_run. cbn [print emit fst snd app].
  rewrite bind_run, !int_of_run.
  destruct (PyInt.int (environ_get env "ONLY_MODULES" "0")) as [n|]; [|reflexivity].
  cbn [fst snd app]. destruct (n =? 0)%Z; [|reflexivity].
  cbn [when]. rewrite bind_run. rewrite bind_run. cbn [print emit fst snd app].
  rewrite !bind_run.
  match goal with
  | |- context [run w "make" None false ?hh] =>
      exists hh; destruct (snd (run w "make" None false hh)) as [proc|e]
  end; cbn [ret fst snd app]; rewrite ?app_nil_r; reflexivity.
Qed.

Lemma emits_final_build (P : event -> Prop) (w : world) (env : environ) :
  (forall s, P (Print s)) -> (forall s, P (PrintErr s)) ->
  (forall r, P (Subprocess "make" None false r)) ->
  emits P (final_build w env).
Proof.
  intros Hp He Hm. unfold final_build.
  apply emits_bind; [now apply emits_print|]. intros _.
  apply emits_bind; [apply emits_int_of|]. intros only.
  apply emits_bind; [|intros _; now apply emits_print].
  apply emits_when. apply emits_bind; [now apply emits_print|]. intros _.
  apply emits_bind; [now apply emits_run | intros; apply emits_ret].
Qed.

Lemma started_app (a b : list event) :
  started (a ++ b) = match started a with Some t => Some t | None => started b end.
Proof.
  induction a as [|ev a IH]; [reflexivity|].
  destruct ev; simpl; rewrite ?IH; reflexivity.
Qed.

(** A run that gets to the build phase: what the main thread does there. *)
Lemma main_build_run (sys : system) (env : environ) :
  let cxx := environ_get env "CXXFLAGS" EmptyString in
  let flags := get_flags cxx in
  flags <> [] ->
  (Forall cleaning (fst (main sys env [])) /\ exists e, snd (main sys env []) = Raised e)
  \/ (exists tc : list event,
        Forall cleaning tc
        /\ match PyInt.int (environ_get env "PARALLEL_JOBS" "0") with
           | None => main sys env [] = (tc, Raised ValueError)
           | Some jobs =>
               let quiet := negb (jobs =? 1)%Z in
               let sequential := filter should_build_sequentially flags in
               let parallel := filter (fun f => negb (should_build_sequentially f)) flags in
               let ts := if non_empty sequential then [ThreadStart sequential quiet] else [] in
               let tj := if non_empty sequential then [ThreadJoin] else [] in
               exists h1 h2 : list event,
                 match snd (parallel_builds sys sequential parallel jobs quiet h1) with
                 | Raised e =>
                     main sys env []
                     = ((tc ++ Print (banner jobs cxx) :: ts
                           ++ fst (parallel_builds sys sequential parallel jobs quiet h1))%list,
                        Raised e)
                 | Returned _ =>
                     main sys env []
                     = ((tc ++ Print (banner jobs cxx) :: ts
                           ++ fst (parallel_builds sys sequential parallel jobs quiet h1)
                           ++ tj ++ fst (final_build (view sys MainThread) env h2))%list,
                        snd (final_build (view sys MainThread) env h2))
                 end
           end).
Proof.
  intros cxx flags Hne.
  destruct (main_cases sys env) as [[Hc [Hf|He]] | [_ [tc [h [Hc E]]]]].
  - contradiction.
  - now left.
  - right. exists tc. split; [exact Hc|]. fold cxx flags in E.
    pose proof (build_phase_run sys env cxx flags h) as B.
    destruct (PyInt.int (environ_get env "PARALLEL_JOBS" "0")) as [jobs|].
    + cbv zeta in B. destruct B as [h1 [h2 B]]. exists h1, h2.
      destruct (snd (parallel_builds sys _ _ jobs _ h1)); rewrite E, B; reflexivity.
    + rewrite E, B. cbn [fst snd]. now rewrite app_nil_r.
Qed.

Lemma plain_no_threads (tr : list event) :
  Forall plain tr -> started tr = None /\ submitted tr = [] /\ ~ In ThreadJoin tr.
Proof.
  induction 1 as [|ev tr Hev _ [IH1 [IH2 IH3]]]; [repeat split; auto|].
  destruct ev; simpl in *; try contradiction; repeat split; auto;
    intros [X|X]; try discriminate X; auto.
Qed.

Lemma enumerate_length (l : list string) : length (enumerate l) = length l.
Proof. unfold enumerate. rewrite length_combine, length_seq. apply Nat.min_id. Qed.

Lemma enumerate_flags (l : list string) : map snd (enumerate l) = l.
Proof.
  unfold enumerate. generalize 0. induction l as [|x l IH]; intros n; [reflexivity|].
  cbn [length seq combine map snd]. now rewrite IH.
Qed.

Lemma enumerate_numbers (l : list string) : map fst (enumerate l) = seq 0 (length l).
Proof.
  unfold enumerate. generalize 0. induction l as [|x l IH]; intros n; [reflexivity|].
  cbn [length seq combine map fst]. now rewrite IH.
Qed.

Lemma parallel_builds_returned (sys : system) (sequential parallel : list string) (jobs : Z)
  (quiet : bool) (h : list event) :
  snd (parallel_builds sys sequential parallel jobs quiet h) = Returned tt ->
  submitted (fst (parallel_builds sys sequential parallel jobs quiet h))
  = map (fun fut => (fst fut, snd fut, quiet)) (enumerate parallel)
  /\ Forall (future_returned sys quiet) (enumerate parallel)
  /\ started (fst (parallel_builds sys sequential parallel jobs quiet h)) = None
  /\ (parallel = [] \/ (jobs <? 0)%Z = false).
Proof.
  intros Ho.
  assert (emits (fun ev => forall s q, ev <> ThreadStart s q)
            (parallel_builds sys sequential parallel jobs quiet)) as Hns
    by (apply emits_parallel_builds; intros; discriminate).
  assert (started (fst (parallel_builds sys sequential parallel jobs quiet h)) = None) as St.
  { specialize (Hns h). induction Hns as [|ev l Hev _ IH]; [reflexivity|].
    destruct ev; simpl; auto. now contradiction (Hev sequential0 quiet0). }
  destruct (non_empty parallel) eqn:Hne.
  - destruct (jobs <? 0)%Z eqn:Hj.
    + destruct (parallel_builds_idle sys sequential parallel jobs quiet h) as [_ [_ X]]; auto.
      rewrite (X Hne) in Ho. discriminate Ho.
    + destruct (parallel_group_facts sys sequential parallel jobs quiet h Hne Hj)
        as [Hs [Hr _]]. split; [exact Hs|]. split; [now apply Hr|]. split; [exact St | now right].
  - destruct (parallel_builds_idle sys sequential parallel jobs quiet h) as [E _]; auto.
    destruct parallel; [|discriminate Hne]. rewrite E. repeat split; auto.
Qed.

Lemma main_success_run (sys : system) (env : environ) :
  let cxx := environ_get env "CXXFLAGS" EmptyString in
  let flags := get_flags cxx in
  let sequential := filter should_build_sequentially flags in
  let parallel := filter (fun f => negb (should_build_sequentially f)) flags in
  flags <> [] -> snd (main sys env []) = Returned tt ->
  exists (jobs : Z) (tc tp tf : list event),
    PyInt.int (environ_get env "PARALLEL_JOBS" "0") = Some jobs
    /\ fst (main sys env [])
       = (tc ++ Print (banner jobs cxx)
             :: (if non_empty sequential
                 then [ThreadStart sequential (negb (jobs =? 1)%Z)] else [])
             ++ tp ++ (if non_empty sequential then [ThreadJoin] else []) ++ tf)%list
    /\ Forall cleaning tc /\ Forall plain tf
    /\ submitted tp
       = map (fun fut => (fst fut, snd fut, negb (jobs =? 1)%Z)) (enumerate parallel)
    /\ Forall (future_returned sys (negb (jobs =? 1)%Z)) (enumerate parallel)
    /\ started tp = None
    /\ (parallel = [] \/ (jobs <? 0)%Z = false)
    /\ (exists tf', tf = (tf' ++ [Print "Build completed successfully!"])%list).
Proof.
  intros cxx flags sequential parallel Hne Ho.
  destruct (main_build_run sys env Hne) as [[_ [e He]] | [tc [Hc B]]].
  { rewrite He in Ho. discriminate Ho. }
  fold cxx flags in B.
  destruct (PyInt.int (environ_get env "PARALLEL_JOBS" "0")) as [jobs|];
    [|rewrite B in Ho; discriminate Ho].
  cbv zeta in B. fold sequential parallel in B. destruct B as [h1 [h2 B]].
  destruct (snd (parallel_builds sys sequential parallel jobs (negb (jobs =? 1)%Z) h1))
    as [[]|e] eqn:O; [|rewrite B in Ho; discriminate Ho].
  rewrite B in Ho. cbn [snd] in Ho.
  destruct (parallel_builds_returned _ _ _ _ _ _ O) as [Hs [Hr [Hst Hj]]].
  exists jobs, tc, (fst (parallel_builds sys sequential parallel jobs (negb (jobs =? 1)%Z) h1)),
    (fst (final_build (view sys MainThread) env h2)).
  split; [reflexivity|]. split; [now rewrite B|]. split; [exact Hc|].
  split; [apply emits_final_build; intros; exact I|].
  split; [exact Hs|]. split; [exact Hr|]. split; [exact Hst|]. split; [exact Hj|].
  pose proof (final_build_run (view sys MainThread) env h2) as F.
  destruct (PyInt.int (environ_get env "ONLY_MODULES" "0")) as [n|];
    [|rewrite F in Ho; discriminate Ho].
  destruct (n =? 0)%Z.
  - destruct F as [h' F]. rewrite F in *. cbn [fst snd] in *.
    destruct (snd (run (view sys MainThread) "make" None false h')); [|discriminate Ho].
    eexists. rewrite !app_comm_cons. reflexivity.
  - rewrite F. cbn [fst]. now exists [Print "All module builds completed successfully!"].
Qed.

(** X11: what a run that ends well has done.  When the flags hold at
    least one module and [main] returns, nothing failed in the main
    thread; the modules submitted to the pool are exactly the parallel
    modules, once each and in their order, each with a future of its own
    and all with the same quiet setting, and each of those builds returned;
    when there are sequential modules the main thread has joined their
    thread; and the last line printed is "Build completed
    successfully!". *)
Theorem successful_run (sys : system) (env : environ) :
  get_flags (environ_get env "CXXFLAGS" EmptyString) <> [] ->
  main_outcome (auto_build sys env) = Returned tt ->
  Forall calm (main_trace (auto_build sys env))
  /\ (exists quiet : bool,
        submitted (main_trace (auto_build sys env))
        = map (fun fut => (fst fut, snd fut, quiet))
            (enumerate (filter (fun f => negb (should_build_sequentially f))
                          (get_flags (environ_get env "CXXFLAGS" EmptyString))))
        /\ pool_futures (auto_build sys env)
           = map (fun fut => future_run sys (fst fut) (snd fut) quiet)
               (enumerate (filter (fun f => negb (should_build_sequentially f))
                             (get_flags (environ_get env "CXXFLAGS" EmptyString)))))
  /\ map (fun s => snd (fst s)) (submitted (main_trace (auto_build sys env)))
     = filter (fun f => negb (should_build_sequentially f))
         (get_flags (environ_get env "CXXFLAGS" EmptyString))
  /\ map (fun s => fst (fst s)) (submitted (main_trace (auto_build sys env)))
     = seq 0 (length (filter (fun f => negb (should_build_sequentially f))
                        (get_flags (environ_get env "CXXFLAGS" EmptyString))))
  /\ length (pool_futures (auto_build sys env))
     = length (filter (fun f => negb (should_build_sequentially f))
                 (get_flags (environ_get env "CXXFLAGS" EmptyString)))
  /\ Forall (fun r => snd r = Returned tt) (pool_futures (auto_build sys env))
  /\ (filter should_build_sequentially (get_flags (environ_get env "CXXFLAGS" EmptyString))
      <> [] ->
      In ThreadJoin (main_trace (auto_build sys env))
      /\ exists quiet : bool,
          sequential_thread (auto_build sys env)
          = Some (run_sequential (view sys SequentialThread)
                    (filter should_build_sequentially
                       (get_flags (environ_get env "CXXFLAGS" EmptyString))) quiet []))
  /\ (exists tr', main_trace (auto_build sys env)
                  = (tr' ++ [Print "Build completed successfully!"])%list).
Proof.
  unfold auto_build. cbn [main_trace main_outcome pool_futures sequential_thread].
  intros Hne Ho.
  split.
  { pose proof (fails_fast_main sys env []) as F. rewrite Ho in F.
    now apply fail_fast_returned in F. }
  destruct (main_success_run sys env Hne Ho)
    as [jobs [tc [tp [tf [Hi [Et [Hc [Hf [Hs [Hr [Hst [Hj [tf' Etf]]]]]]]]]]]]].
  set (flags := get_flags (environ_get env "CXXFLAGS" EmptyString)) in *.
  set (sequential := filter should_build_sequentially flags) in *.
  set (parallel := filter (fun f => negb (should_build_sequentially f)) flags) in *.
  set (quiet := negb (jobs =? 1)%Z) in *.
  destruct (cleaning_no_threads _ Hc) as [Sc Pc].
  destruct (plain_no_threads _ Hf) as [Sf [Pf _]].
  assert (submitted (fst (main sys env []))
          = map (fun fut => (fst fut, snd fut, quiet)) (enumerate parallel)) as Hsub.
  { rewrite Et. rewrite submitted_app, Pc. cbn [app submitted].
    rewrite !submitted_app, Hs, Pf.
    destruct (non_empty sequential); cbn [submitted app]; now rewrite app_nil_r. }
  rewrite Hsub, !map_map. cbn [fst snd].
  split; [exists quiet; split; reflexivity|].
  split; [apply enumerate_flags|].
  split; [apply enumerate_numbers|].
  split; [now rewrite length_map, enumerate_length|].
  split.
  { rewrite Forall_map. exact Hr. }
  split.
  - intros Hseq. assert (non_empty sequential = true) as Hn
      by (destruct sequential; [contradiction | reflexivity]).
    rewrite Et, Hn. split.
    + apply in_or_app. right. right. apply in_or_app. right.
      apply in_or_app. right. now left.
    + exists quiet. rewrite started_app, Sc. reflexivity.
  - rewrite Et, Etf. eexists. rewrite !app_comm_cons, !app_assoc. reflexivity.
Qed.

Lemma successful_run_witness :
  map (fun s => snd (fst s))
      (submitted (main_trace (auto_build (same_for_all (all_fine [])) env_four)))
  = ["LDK"; "LND"]
  /\ In ThreadJoin (main_trace (auto_build (same_for_all (all_fine [])) env_four)).
Proof.
  destruct (successful_run (same_for_all (all_fine [])) env_four)
    as [_ [_ [Hs [_ [_ [_ [Hj _]]]]]]].
  - discriminate.
  - reflexivity.
  - split; [exact Hs|]. apply Hj. discriminate.
Defined.

(** ** Bad values of PARALLEL_JOBS and ONLY_MODULES *)

Lemma raised_kind {A : Type} (m : M A) (h : list event) (e : exn) :
  fails_fast m -> raises_on_failure_only m -> snd (m h) = Raised e ->
  Exists (fun ev => failing ev = true) (fst (m h)) /\ (e = SystemExit 1 \/ e = OSError).
Proof.
  intros F R O. pose proof (R h e O) as X. split; [exact X|].
  specialize (F h). rewrite O in F.
  inversion F as [tr o Hc E1 E2 | pre ev Hc Hf E1 E2].
  - exfalso. exact (calm_not_failing _ Hc X).
  - destruct ev as [| | | |cmd cwd q [proc|]| | | | | |]; simpl; auto.
Qed.

Lemma get_flags_empty_text : get_flags EmptyString = [].
Proof. reflexivity. Qed.

(** With flags to build, [main] either stops in the clean phase at a
    failing step, or goes through it without failure and enters the build
    phase. *)
Lemma main_prologue (sys : system) (env : environ) :
  let cxx := environ_get env "CXXFLAGS" EmptyString in
  get_flags cxx <> [] ->
  (Forall cleaning (fst (main sys env []))
   /\ Exists (fun ev => failing ev = true) (fst (main sys env []))
   /\ (snd (main sys env []) = Raised (SystemExit 1) \/ snd (main sys env []) = Raised OSError))
  \/ (exists tc h : list event,
        Forall cleaning tc /\ Forall calm tc
        /\ main sys env []
           = ((tc ++ fst (build_phase sys env cxx (get_flags cxx) h))%list,
              snd (build_phase sys env cxx (get_flags cxx) h))).
Proof.
  intros cxx Hne.
  assert (PyStr.truthy cxx = true) as Ht.
  { destruct cxx; [now contradiction Hne | reflexivity]. }
  pose proof (emits_clean_step (view sys MainThread) env cxx) as E4.
  assert (emits cleaning (run (view sys MainThread) "make clean" None false)) as E3
    by (apply emits_run; simpl; auto).
  destruct (main sys env []) as [tr o] eqn:Hm. cbn [fst snd].
  unfold main in Hm. cbv zeta in Hm. fold cxx in Hm. rewrite Ht in Hm. cbn [negb] in Hm.
  apply bind_inv in Hm as [[e [H1 _]] | [a1 [t1 [r1 [H1 [Hm ->]]]]]]; [discriminate H1|].
  injection H1 as <- _.
  apply bind_inv in Hm as [[e [H2 _]] | [a2 [t2 [r2 [H2 [Hm ->]]]]]]; [discriminate H2|].
  injection H2 as <- _. cbn [app] in *.
  apply bind_inv in Hm as [[e [H3 ->]] | [a3 [t3 [r3 [H3 [Hm ->]]]]]].
  { left. pose proof (emits_at _ _ _ _ _ E3 H3) as C3.
    destruct (raised_kind (run (view sys MainThread) "make clean" None false)
                [Print "Cleaning previous builds..."] e
                (fails_fast_run _ _ _ _) (rofo_run _ _ _ _)) as [X K];
      [now rewrite H3|]. rewrite H3 in X. cbn [fst] in X.
    split; [constructor; [exact I | exact C3]|]. split; [now apply Exists_cons_tl|].
    destruct K as [-> | ->]; auto. }
  pose proof (emits_at _ _ _ _ _ E3 H3) as C3.
  assert (Forall calm t3) as K3.
  { pose proof (fails_fast_run (view sys MainThread) "make clean" None false
                  [Print "Cleaning previous builds..."]) as F.
    rewrite H3 in F. now apply fail_fast_returned in F. }
  apply bind_inv in Hm as [[e [H4 ->]] | [a4 [t4 [r4 [H4 [Hm ->]]]]]].
  { left. pose proof (emits_at _ _ _ _ _ E4 H4) as C4.
    destruct (raised_kind (clean_step (view sys MainThread) env cxx)
                ([Print "Cleaning previous builds..."] ++ t3)%list e
                (fails_fast_clean_step _ _ _) (rofo_clean_step _ _ _)) as [X K];
      [now rewrite H4|]. rewrite H4 in X. cbn [fst] in X.
    split; [constructor; [exact I | apply Forall_app; auto]|].
    split; [apply Exists_cons_tl, Exists_app; now right|].
    destruct K as [-> | ->]; auto. }
  pose proof (emits_at _ _ _ _ _ E4 H4) as C4.
  assert (Forall calm t4) as K4.
  { pose proof (fails_fast_clean_step (view sys MainThread) env cxx
                  ([Print "Cleaning previous builds..."] ++ t3)%list) as F.
    rewrite H4 in F. now apply fail_fast_returned in F. }
  right. destruct (get_flags cxx) as [|f fs] eqn:Fl; [now contradiction Hne|].
  cbn [non_empty negb] in Hm.
  exists (Print "Cleaning previous builds..." :: t3 ++ t4)%list. eexists.
  split; [constructor; [exact I | apply Forall_app; auto]|].
  split; [constructor; [reflexivity | apply Forall_app; auto]|].
  rewrite Hm. cbn [fst snd app]. now rewrite <- app_assoc.
Qed.

Lemma cleaning_no_join (tr : list event) : Forall cleaning tr -> ~ In ThreadJoin tr.
Proof. intros H Hin. rewrite Forall_forall in H. exact (H _ Hin). Qed.

(** X12: a bad PARALLEL_JOBS is found out only after the clean phase.
    When the clean phase goes well and there are modules to build: an
    ASCII value that [int] refuses ends the run there with [ValueError]
    (status 1), before any thread or future exists; a negative integer is refused by
    the pool, so with parallel modules the run ends with [ValueError]
    (status 1) and nothing is submitted, but the background thread of the
    sequential modules, when there is one, has been started before: it is
    never joined by the main thread and runs to its end while the
    interpreter waits for it. *)
Theorem bad_parallel_jobs (sys : system) (env : environ) :
  get_flags (environ_get env "CXXFLAGS" EmptyString) <> [] ->
  Forall calm (main_trace (auto_build sys env)) ->
  (PyStr.is_ascii (environ_get env "PARALLEL_JOBS" "0") = true ->
   PyInt.int (environ_get env "PARALLEL_JOBS" "0") = None ->
   main_outcome (auto_build sys env) = Raised ValueError
   /\ exit_status (auto_build sys env) = 1%Z
   /\ Forall cleaning (main_trace (auto_build sys env))
   /\ sequential_thread (auto_build sys env) = None
   /\ pool_futures (auto_build sys env) = [])
  /\ (forall jobs : Z,
        PyInt.int (environ_get env "PARALLEL_JOBS" "0") = Some jobs -> (jobs < 0)%Z ->
        filter (fun f => negb (should_build_sequentially f))
          (get_flags (environ_get env "CXXFLAGS" EmptyString)) <> [] ->
        main_outcome (auto_build sys env) = Raised ValueError
        /\ exit_status (auto_build sys env) = 1%Z
        /\ pool_futures (auto_build sys env) = []
        /\ ~ In ThreadJoin (main_trace (auto_build sys env))
        /\ (filter should_build_sequentially
              (get_flags (environ_get env "CXXFLAGS" EmptyString)) <> [] ->
            sequential_thread (auto_build sys env)
            = Some (run_sequential (view sys SequentialThread)
                      (filter should_build_sequentially
                         (get_flags (environ_get env "CXXFLAGS" EmptyString))) true [])
            /\ at_exit (auto_build sys env) = [ExitJoin])).
Proof.
  unfold auto_build.
  cbn [main_trace main_outcome exit_status pool_futures sequential_thread at_exit].
  intros Hne Hcalm.
  destruct (main_prologue sys env Hne) as [[_ [X _]] | [tc [h [Hc [_ E]]]]].
  { exfalso. exact (calm_not_failing _ Hcalm X). }
  set (cxx := environ_get env "CXXFLAGS" EmptyString) in *.
  set (flags := get_flags cxx) in *.
  pose proof (build_phase_run sys env cxx flags h) as B.
  destruct (cleaning_no_threads _ Hc) as [Sc Pc].
  split.
  - intros _ Hi. rewrite Hi in B. rewrite E, B. cbn [fst snd]. rewrite app_nil_r, Sc, Pc.
    repeat split; auto.
  - intros jobs Hi Hneg Hpar. rewrite Hi in B. cbv zeta in B. destruct B as [h1 [h2 B]].
    set (sequential := filter should_build_sequentially flags) in *.
    set (parallel := filter (fun f => negb (should_build_sequentially f)) flags) in *.
    assert ((jobs =? 1)%Z = false) as J1 by (apply Z.eqb_neq; lia).
    rewrite J1 in *. cbn [negb] in *.
    assert (non_empty parallel = true) as Np
      by (destruct parallel; [contradiction | reflexivity]).
    destruct (parallel_builds_idle sys sequential parallel jobs true h1) as [Pt [_ Po]].
    { right. apply Z.ltb_lt. exact Hneg. }
    rewrite (Po Np), Pt in B. rewrite E, B. cbn [fst snd]. rewrite app_nil_r.
    split; [reflexivity|]. split; [reflexivity|].
    split.
    { rewrite submitted_app, Pc. destruct (non_empty sequential); reflexivity. }
    split.
    { intros Hin. apply in_app_or in Hin as [Hin|Hin]; [exact (cleaning_no_join _ Hc Hin)|].
      destruct (non_empty sequential); simpl in Hin;
        repeat (destruct Hin as [Hin|Hin]; try discriminate Hin); exact Hin. }
    intros Hseq. assert (non_empty sequential = true) as Ns
      by (destruct sequential; [contradiction | reflexivity]).
    rewrite started_app, Sc, Ns. split; reflexivity.
Qed.

Lemma bad_parallel_jobs_witness :
  exit_status (auto_build (same_for_all (all_fine []))
                 (env_of [("CXXFLAGS", "-DLDK"); ("PARALLEL_JOBS", "four")])) = 1%Z
  /\ sequential_thread
       (auto_build (same_for_all (all_fine []))
          (env_of [("CXXFLAGS", "-DSECP256K1 -DLDK"); ("PARALLEL_JOBS", "-2")]))
     = Some (run_sequential (view (same_for_all (all_fine [])) SequentialThread)
               (filter should_build_sequentially
                  (get_flags (environ_get
                                (env_of [("CXXFLAGS", "-DSECP256K1 -DLDK");
                                         ("PARALLEL_JOBS", "-2")])
                                "CXXFLAGS" EmptyString))) true []).
Proof.
  split.
  - apply (bad_parallel_jobs (same_for_all (all_fine []))
             (env_of [("CXXFLAGS", "-DLDK"); ("PARALLEL_JOBS", "four")]));
      [discriminate | repeat constructor | reflexivity | reflexivity].
  - apply (bad_parallel_jobs (same_for_all (all_fine []))
             (env_of [("CXXFLAGS", "-DSECP256K1 -DLDK"); ("PARALLEL_JOBS", "-2")]))
      with (jobs := (-2)%Z);
      [discriminate | repeat constructor | reflexivity | reflexivity | discriminate
      | discriminate].
Defined.

Lemma cleaning_not_final_make (tr : list event) :
  Forall cleaning tr -> Forall not_final_make tr.
Proof.
  apply Forall_impl. intros ev. destruct ev; simpl; auto. intros ->. discriminate.
Qed.

Lemma run_make_returned (w : world) (h : list event) (proc : CompletedProcess) :
  snd (run w "make" None false h) = Returned proc ->
  returncode proc = 0%Z
  /\ In (Subprocess "make" None false (Completed proc)) (fst (run w "make" None false h)).
Proof.
  rewrite run_verbose. cbv zeta.
  destruct (subprocess_run w (h ++ [Print "make"]) "make" None false) as [p|];
    [|discriminate].
  destruct (returncode p =? 0)%Z eqn:R; [|discriminate].
  cbn [fst snd]. intros E. injection E as <-. split; [now apply Z.eqb_eq|].
  right. left. reflexivity.
Qed.

(** X13: ONLY_MODULES.  With a value that reads as an integer other than
    zero the main thread never runs [make] at the top level.  With zero
    (or no value) a run with modules that ends well has run it, and it
    exited with status 0.  With an ASCII value that [int] refuses a run
    with modules cannot end well: the value is read only after all the
    builds, and the run then ends with an exception. *)
Theorem only_modules_toggle (sys : system) (env : environ) :
  (forall n : Z,
      PyInt.int (environ_get env "ONLY_MODULES" "0") = Some n -> n <> 0%Z ->
      Forall not_final_make (main_trace (auto_build sys env)))
  /\ (PyInt.int (environ_get env "ONLY_MODULES" "0") = Some 0%Z ->
      get_flags (environ_get env "CXXFLAGS" EmptyString) <> [] ->
      main_outcome (auto_build sys env) = Returned tt ->
      exists proc : CompletedProcess,
        returncode proc = 0%Z
        /\ In (Subprocess "make" None false (Completed proc)) (main_trace (auto_build sys env)))
  /\ (PyStr.is_ascii (environ_get env "ONLY_MODULES" "0") = true ->
      PyInt.int (environ_get env "ONLY_MODULES" "0") = None ->
      get_flags (environ_get env "CXXFLAGS" EmptyString) <> [] ->
      exists e : exn, main_outcome (auto_build sys env) = Raised e).
Proof.
  unfold auto_build. cbn [main_trace main_outcome].
  set (cxx := environ_get env "CXXFLAGS" EmptyString).
  split; [|split].
  - intros n Hn Hnz.
    destruct (main_cases sys env) as [[Hc _] | [_ [tc [h [Hc E]]]]];
      [now apply cleaning_not_final_make|].
    fold cxx in E. rewrite E. cbn [fst]. apply Forall_app.
    split; [now apply cleaning_not_final_make|].
    pose proof (build_phase_run sys env cxx (get_flags cxx) h) as B.
    destruct (PyInt.int (environ_get env "PARALLEL_JOBS" "0")) as [jobs|];
      [|rewrite B; constructor].
    cbv zeta in B. destruct B as [h1 [h2 B]].
    assert (Forall not_final_make
              (fst (parallel_builds sys (filter should_build_sequentially (get_flags cxx))
                      (filter (fun f => negb (should_build_sequentially f)) (get_flags cxx))
                      jobs (negb (jobs =? 1)%Z) h1))) as Hp
      by (apply emits_parallel_builds; intros; exact I).
    assert (Forall not_final_make (fst (final_build (view sys MainThread) env h2))) as Hf.
    { pose proof (final_build_run (view sys MainThread) env h2) as F. rewrite Hn in F.
      apply Z.eqb_neq in Hnz. rewrite Hnz in F. rewrite F. repeat constructor. }
    destruct (snd (parallel_builds sys _ _ jobs _ h1)); rewrite B; cbn [fst];
      (constructor; [exact I|]);
      destruct (non_empty (filter should_build_sequentially (get_flags cxx)));
      repeat (apply Forall_app; split); auto; repeat constructor.
  - intros Hn Hne Ho.
    destruct (main_build_run sys env Hne) as [[_ [e He]] | [tc [Hc B]]].
    { rewrite He in Ho. discriminate Ho. }
    fold cxx in B.
    destruct (PyInt.int (environ_get env "PARALLEL_JOBS" "0")) as [jobs|];
      [|rewrite B in Ho; discriminate Ho].
    cbv zeta in B. destruct B as [h1 [h2 B]].
    destruct (snd (parallel_builds sys _ _ jobs _ h1)); [|rewrite B in Ho; discriminate Ho].
    rewrite B in *. cbn [fst snd] in *.
    pose proof (final_build_run (view sys MainThread) env h2) as F. rewrite Hn in F.
    change (0 =? 0)%Z with true in F. cbv iota in F.
    destruct F as [h' F]. rewrite F in *. cbn [fst snd] in *.
    destruct (snd (run (view sys MainThread) "make" None false h')) as [proc|e] eqn:R;
      [|discriminate Ho].
    destruct (run_make_returned _ _ _ R) as [Hrc Hin]. exists proc. split; [exact Hrc|].
    apply in_or_app. right. right. apply in_or_app. right. apply in_or_app. right.
    apply in_or_app. right. right. right. apply in_or_app. now left.
  - intros _ Hn Hne.
    destruct (main_build_run sys env Hne) as [[_ [e He]] | [tc [Hc B]]]; [now exists e|].
    fold cxx in B.
    destruct (PyInt.int (environ_get env "PARALLEL_JOBS" "0")) as [jobs|];
      [|rewrite B; now eexists].
    cbv zeta in B. destruct B as [h1 [h2 B]].
    destruct (snd (parallel_builds sys _ _ jobs _ h1)); rewrite B; cbn [snd]; [|now eexists].
    pose proof (final_build_run (view sys MainThread) env h2) as F. rewrite Hn in F.
    rewrite F. now eexists.
Qed.

Lemma only_modules_toggle_witness :
  Forall not_final_make
    (main_trace (auto_build (same_for_all (all_fine []))
                   (env_of [("CXXFLAGS", "-DLDK"); ("ONLY_MODULES", "1")])))
  /\ exists e : exn,
      main_outcome (auto_build (same_for_all (all_fine []))
                      (env_of [("CXXFLAGS", "-DLDK"); ("ONLY_MODULES", "yes")]))
      = Raised e.
Proof.
  split.
  - apply (proj1 (only_modules_toggle (same_for_all (all_fine []))
                    (env_of [("CXXFLAGS", "-DLDK"); ("ONLY_MODULES", "1")])) 1%Z);
      [reflexivity | discriminate].
  - apply (only_modules_toggle (same_for_all (all_fine []))
             (env_of [("CXXFLAGS", "-DLDK"); ("ONLY_MODULES", "yes")]));
      [reflexivity | reflexivity | discriminate].
Defined.

(** ** The quiet setting *)

(** X14: one run has one quiet setting, read from PARALLEL_JOBS: the
    background thread and every future are given [quiet = false] when
    PARALLEL_JOBS is 1 and [quiet = true] for every other integer (also
    for 0, the value taken when the variable is not set). *)
Theorem quiet_setting (sys : system) (env : environ) (jobs : Z) :
  PyInt.int (environ_get env "PARALLEL_JOBS" "0") = Some jobs ->
  Forall (quiet_is (negb (jobs =? 1)%Z)) (main_trace (auto_build sys env)).
Proof.
  unfold auto_build. cbn [main_trace]. intros Hj.
  assert (forall tr, Forall cleaning tr -> Forall (quiet_is (negb (jobs =? 1)%Z)) tr) as Hcl.
  { intros tr. apply Forall_impl. intros ev. destruct ev; simpl; tauto. }
  destruct (main_cases sys env) as [[Hc _] | [_ [tc [h [Hc E]]]]]; [now apply Hcl|].
  set (cxx := environ_get env "CXXFLAGS" EmptyString) in *.
  rewrite E. cbn [fst]. apply Forall_app. split; [now apply Hcl|].
  pose proof (build_phase_run sys env cxx (get_flags cxx) h) as B. rewrite Hj in B.
  cbv zeta in B. destruct B as [h1 [h2 B]].
  assert (Forall (quiet_is (negb (jobs =? 1)%Z))
            (fst (parallel_builds sys (filter should_build_sequentially (get_flags cxx))
                    (filter (fun f => negb (should_build_sequentially f)) (get_flags cxx))
                    jobs (negb (jobs =? 1)%Z) h1))) as Hp
    by (apply emits_parallel_builds; intros; simpl; auto).
  assert (Forall (quiet_is (negb (jobs =? 1)%Z))
            (fst (final_build (view sys MainThread) env h2))) as Hf
    by (apply emits_final_build; intros; exact I).
  destruct (snd (parallel_builds sys _ _ jobs _ h1)); rewrite B; cbn [fst];
    (constructor; [exact I|]);
    destruct (non_empty (filter should_build_sequentially (get_flags cxx)));
    repeat (apply Forall_app; split); auto; repeat constructor.
Qed.

Lemma quiet_setting_witness :
  Forall (quiet_is false)
    (main_trace (auto_build (same_for_all (all_fine []))
                   (env_of [("CXXFLAGS", "-DLDK -DBITCOINJ"); ("PARALLEL_JOBS", " 1 ")]))).
Proof.
  apply (quiet_setting (same_for_all (all_fine []))
           (env_of [("CXXFLAGS", "-DLDK -DBITCOINJ"); ("PARALLEL_JOBS", " 1 ")]) 1%Z).
  reflexivity.
Defined.

(** ** A clean mode of white space *)

Lemma split_spaces_aux (s : string) :
  PyStr.all_chars PyStr.is_space s = true -> PyStr.split_aux [] s = [].
Proof.
  unfold PyStr.all_chars. induction s as [|c t IH]; [reflexivity|].
  cbn [list_ascii_of_string forallb PyStr.split_aux]. intros H.
  apply andb_true_iff in H as [Hc Ht]. rewrite Hc. now apply IH.
Qed.

(** X15: a CLEAN_BUILD made of white space only is not the "skip" setting
    (the text is not empty) and names no module: the clean mode prints
    "Cleaning modules: " with an empty list, tests no directory, runs no
    command, and returns. *)
Theorem blank_clean_build_cleans_nothing (w : world) (env : environ) (cxxflags cb : string)
  (h : list event) :
  env "CLEAN_BUILD" = Some cb -> cb <> EmptyString ->
  PyStr.all_chars PyStr.is_space cb = true ->
  clean_step w env cxxflags h = ([Print "Cleaning modules: "], Returned tt).
Proof.
  intros Hcb Hne Hsp. unfold clean_step. rewrite Hcb.
  apply truthy_iff in Hne. rewrite Hne.
  assert (String.eqb cb "FULL" = false /\ String.eqb cb "CLEAN" = false) as [-> ->].
  { split; apply String.eqb_neq; intros ->; discriminate Hsp. }
  unfold PyStr.split. rewrite split_spaces_aux by assumption. reflexivity.
Qed.

Lemma blank_clean_build_cleans_nothing_witness :
  clean_step (all_fine []) (env_of [("CLEAN_BUILD", "  ")]) "-DLDK" []
  = ([Print "Cleaning modules: "], Returned tt).
Proof.
  apply (blank_clean_build_cleans_nothing (all_fine []) (env_of [("CLEAN_BUILD", "  ")])
           "-DLDK" "  " []); [reflexivity | discriminate | reflexivity].
Defined.

(** ** The directory guard *)

(** X16: [execute_in_dir] never runs its command in a directory that is
    not there: when the directory test fails it reports the directory by
    name and raises [SystemExit(1)] without starting any process; when the
    test succeeds it runs exactly one command, the one it was given, with
    that directory as working directory. *)
Theorem execute_in_dir_guard (w : world) (d cmd : string) (quiet : bool) (h : list event) :
  (path_is_dir w h d = false ->
   execute_in_dir w d cmd quiet h
   = ([IsDir d false; PrintErr ("Error: Directory " ++ d ++ " does not exist")],
      Raised (SystemExit 1)))
  /\ (path_is_dir w h d = true ->
      commands (fst (execute_in_dir w d cmd quiet h)) = [(cmd, Some d)]
      /\ probed (fst (execute_in_dir w d cmd quiet h)) = [d]).
Proof.
  split.
  - intros H. unfold execute_in_dir, bind, is_dir. rewrite H. reflexivity.
  - intros H. split; [|apply execute_in_dir_probed].
    apply execute_in_dir_commands.
    unfold execute_in_dir. rewrite bind_run. cbn [is_dir fst snd]. rewrite H.
    left. reflexivity.
Qed.

Lemma execute_in_dir_guard_witness :
  execute_in_dir (missing "modules/lnd" []) "modules/lnd" "make" true []
  = ([IsDir "modules/lnd" false; PrintErr ("Error: Directory " ++ "modules/lnd" ++ " does not exist")],
     Raised (SystemExit 1))
  /\ commands (fst (execute_in_dir (all_fine []) "modules/lnd" "make" true []))
     = [("make", Some "modules/lnd")].
Proof.
  split.
  - apply (execute_in_dir_guard (missing "modules/lnd" []) "modules/lnd" "make" true []).
    reflexivity.
  - apply (execute_in_dir_guard (all_fine []) "modules/lnd" "make" true []). reflexivity.
Defined.

(** ** The scheduler, in a run *)

Lemma parallel_builds_no_start (sys : system) (sequential parallel : list string) (jobs : Z)
  (quiet : bool) (h : list event) :
  started (fst (parallel_builds sys sequential parallel jobs quiet h)) = None.
Proof.
  assert (emits (fun ev => forall s q, ev <> ThreadStart s q)
            (parallel_builds sys sequential parallel jobs quiet)) as Hns
    by (apply emits_parallel_builds; intros; discriminate).
  specialize (Hns h). induction Hns as [|ev l Hev _ IH]; [reflexivity|].
  destruct ev; simpl; auto. now contradiction (Hev sequential0 quiet0).
Qed.

Lemma parallel_builds_submitted (sys : system) (sequential parallel : list string) (jobs : Z)
  (quiet : bool) (h : list event) :
  submitted (fst (parallel_builds sys sequential parallel jobs quiet h))
  = if (jobs <? 0)%Z then []
    else map (fun fut => (fst fut, snd fut, quiet)) (enumerate parallel).
Proof.
  destruct (jobs <? 0)%Z eqn:Hj.
  - destruct (parallel_builds_idle sys sequential parallel jobs quiet h) as [E _]; auto.
    now rewrite E.
  - destruct (non_empty parallel) eqn:Hne.
    + now destruct (parallel_group_facts sys sequential parallel jobs quiet h Hne Hj) as [Hs _].
    + destruct (parallel_builds_idle sys sequential parallel jobs quiet h) as [E _]; auto.
      rewrite E. destruct parallel; [reflexivity | discriminate Hne].
Qed.

(** What the main thread hands to the background thread and to the pool,
    once it is past the clean phase and has read PARALLEL_JOBS. *)
Lemma main_schedules (sys : system) (env : environ) (jobs : Z) :
  let flags := get_flags (environ_get env "CXXFLAGS" EmptyString) in
  let sequential := filter should_build_sequentially flags in
  let parallel := filter (fun f => negb (should_build_sequentially f)) flags in
  let quiet := negb (jobs =? 1)%Z in
  flags <> [] ->
  PyInt.int (environ_get env "PARALLEL_JOBS" "0") = Some jobs ->
  ~ stops_in_clean_phase (fst (main sys env [])) ->
  started (fst (main sys env []))
  = (if non_empty sequential then Some (sequential, quiet) else None)
  /\ submitted (fst (main sys env []))
     = (if (jobs <? 0)%Z then []
        else map (fun fut => (fst fut, snd fut, quiet)) (enumerate parallel)).
Proof.
  intros flags sequential parallel quiet Hne Hint Hclean.
  destruct (main_prologue sys env Hne) as [[Hc [Hx _]] | [tc [h [Hc [_ E]]]]].
  { exfalso. apply Hclean. now split. }
  pose proof (build_phase_run sys env (environ_get env "CXXFLAGS" EmptyString) flags h) as B.
  rewrite Hint in B. cbv zeta in B. fold sequential parallel quiet in B.
  destruct B as [h1 [h2 B]].
  pose proof (parallel_builds_no_start sys sequential parallel jobs quiet h1) as Pst.
  pose proof (parallel_builds_submitted sys sequential parallel jobs quiet h1) as Psub.
  destruct (cleaning_no_threads _ Hc) as [Sc Pc].
  assert (Forall plain (fst (final_build (view sys MainThread) env h2))) as Hf
    by (apply emits_final_build; intros; exact I).
  destruct (plain_no_threads _ Hf) as [Sf [Pf _]].
  fold flags in E.
  destruct (snd (parallel_builds sys sequential parallel jobs quiet h1));
    rewrite E, B; cbn [fst]; rewrite started_app, submitted_app, Sc, Pc;
    cbn [app started submitted];
    rewrite ?started_app, ?submitted_app, Pst, Psub, ?Sf, ?Pf;
    destruct (non_empty sequential); cbn [started submitted app];
    rewrite ?app_nil_r; split; reflexivity.
Qed.

(** C5: the scheduler puts an identifier in the sequential lane exactly
    when it is one of SECP256K1, BITCOINJ, LIGHTNING_KMP or starts with
    CUSTOM_MUTATOR_, keeping the original order there; every other
    identifier goes to the parallel pool, and no forced-sequential
    identifier is ever submitted to the pool.  In a run: whatever the
    main thread starts or submits is placed that way; and once the main
    thread is past the clean phase and has read PARALLEL_JOBS, it starts
    the background thread with exactly the sequential identifiers, in
    their order (no thread when there is none), and, unless PARALLEL_JOBS
    is negative, submits every other identifier to the pool, once each and
    in their order. *)
Theorem scheduler_partition :
  (forall (flags : list string) (f : string),
      In f (filter should_build_sequentially flags) <-> In f flags /\ forced_sequential f)
  /\ (forall (flags : list string) (f : string),
        In f (filter (fun f => negb (should_build_sequentially f)) flags)
        <-> In f flags /\ ~ forced_sequential f)
  /\ (forall flags : list string,
        subsequence (filter should_build_sequentially flags) flags
        /\ subsequence (filter (fun f => negb (should_build_sequentially f)) flags) flags
        /\ Permutation flags
             (filter should_build_sequentially flags
                ++ filter (fun f => negb (should_build_sequentially f)) flags)%list)
  /\ (forall (sys : system) (env : environ),
        Forall (placed (get_flags (environ_get env "CXXFLAGS" EmptyString)))
               (main_trace (auto_build sys env)))
  /\ (forall (sys : system) (env : environ) (jobs : Z),
        let flags := get_flags (environ_get env "CXXFLAGS" EmptyString) in
        let sequential := filter should_build_sequentially flags in
        let parallel := filter (fun f => negb (should_build_sequentially f)) flags in
        let quiet := negb (jobs =? 1)%Z in
        flags <> [] ->
        PyInt.int (environ_get env "PARALLEL_JOBS" "0") = Some jobs ->
        ~ stops_in_clean_phase (main_trace (auto_build sys env)) ->
        started (main_trace (auto_build sys env))
        = (if non_empty sequential then Some (sequential, quiet) else None)
        /\ sequential_thread (auto_build sys env)
           = (if non_empty sequential
              then Some (run_sequential (view sys SequentialThread) sequential quiet [])
              else None)
        /\ ((jobs <? 0)%Z = false ->
            map (fun s => snd (fst s)) (submitted (main_trace (auto_build sys env))) = parallel
            /\ map (fun s => fst (fst s)) (submitted (main_trace (auto_build sys env)))
               = seq 0 (length parallel)
            /\ submitted (main_trace (auto_build sys env))
               = map (fun fut => (fst fut, snd fut, quiet)) (enumerate parallel)
            /\ pool_futures (auto_build sys env)
               = map (fun fut => future_run sys (fst fut) (snd fut) quiet)
                     (enumerate parallel))
        /\ ((jobs <? 0)%Z = true -> submitted (main_trace (auto_build sys env)) = [])).
Proof.
  split; [|split; [|split; [|split]]].
  - intros flags f. rewrite filter_In, should_build_sequentially_iff. reflexivity.
  - intros flags f. rewrite filter_In, negb_true_iff, <- not_true_iff_false,
      should_build_sequentially_iff. reflexivity.
  - intros flags. split; [apply filter_subsequence|].
    split; [apply filter_subsequence | apply filter_partition_perm].
  - intros sys env. apply main_placed.
  - intros sys env jobs flags sequential parallel quiet Hne Hint Hclean.
    unfold auto_build in *. cbn [main_trace sequential_thread pool_futures] in *.
    destruct (main_schedules sys env jobs Hne Hint Hclean) as [Hst Hsub].
    fold flags sequential parallel quiet in Hst, Hsub.
    split; [exact Hst|]. split.
    { rewrite Hst. destruct (non_empty sequential); reflexivity. }
    split.
    + intros Hj. rewrite Hj in Hsub. rewrite Hsub, !map_map. cbn [fst snd].
      split; [apply enumerate_flags|]. split; [apply enumerate_numbers|].
      split; reflexivity.
    + intros Hj. now rewrite Hj in Hsub.
Qed.

Lemma scheduler_partition_witness :
  started (main_trace (auto_build (same_for_all (all_fine [])) env_four))
  = Some (["SECP256K1"; "BITCOINJ"], true)
  /\ map (fun s => snd (fst s))
         (submitted (main_trace (auto_build (same_for_all (all_fine [])) env_four)))
     = ["LDK"; "LND"].
Proof.
  destruct scheduler_partition as [_ [_ [_ [_ H]]]].
  destruct (H (same_for_all (all_fine [])) env_four 0%Z) as [Hst [_ [Hsub _]]].
  - discriminate.
  - reflexivity.
  - intros [Hc _]. rewrite Forall_forall in Hc.
    apply (Hc (ThreadStart ["SECP256K1"; "BITCOINJ"] true)).
    vm_compute. tauto.
  - split; [exact Hst|]. now destruct (Hsub eq_refl) as [Hf _].
Defined.
